(** * MCP hub: context paths, model registry, discovery and device synchronizer

    A shallow embedding of the Python sources ([context.py], [sunspec.py],
    [discovery.py], [device.py], and of [protocol.py] and [simulator.py] the
    framing of messages and the simulated devices) and the properties
    stated about them.

    Layout: the Python values and built-ins the sources rely on ([Py]), then
    one module per source class ([ContextPathParser], [SunSpecModels],
    the registry rows, [DeviceDiscovery], [DeviceManager],
    [ContextDataHandler], [Simulator], [Framing]), then the lemmas. *)

From Stdlib Require Import ZArith NArith List String Ascii Bool Lia.
From Stdlib Require Import DecimalString SpecFloat.
Import ListNotations.

Local Open Scope string_scope.
Local Open Scope Z_scope.

(* ================================================================== *)
(** * Python values and built-ins *)
(* ================================================================== *)

Module Py.

(** A Python [str] is a sequence of code points.  The embedding keeps the
    code points below U+0100 (one [ascii] each), with the character classes
    of the Unicode database on that range. *)

Definition code (c : ascii) : Z := Z.of_N (N_of_ascii c).

Definition in_range (lo hi : Z) (c : ascii) : bool :=
  (lo <=? code c) && (code c <=? hi).

(** [str.isalpha] on one code point. *)
Definition isalpha (c : ascii) : bool :=
  in_range 65 90 c || in_range 97 122 c
  || (code c =? 170) || (code c =? 181) || (code c =? 186)
  || in_range 192 214 c || in_range 216 246 c || in_range 248 255 c.

(** [str.isdecimal] on one code point: the ten digits accepted by [int]. *)
Definition isdecimal (c : ascii) : bool := in_range 48 57 c.

(** [str.isdigit] on one code point: the decimal digits and the superscript
    digits U+00B2, U+00B3, U+00B9, which [int] rejects. *)
Definition isdigit (c : ascii) : bool :=
  isdecimal c || in_range 178 179 c || (code c =? 185).

(** [str.lower] on one code point. *)
Definition lower (c : ascii) : ascii :=
  if in_range 65 90 c || ((in_range 192 222 c) && negb (code c =? 215))
  then ascii_of_N (N_of_ascii c + 32)
  else c.

(** White space skipped by [int] and [float] around a literal. *)
Definition isnumspace (c : ascii) : bool :=
  in_range 9 13 c || (code c =? 32) || (code c =? 133) || (code c =? 160).

(** [str.isprintable] on one code point (used by [repr]). *)
Definition isprintable (c : ascii) : bool :=
  in_range 32 126 c || in_range 161 172 c || in_range 174 255 c.

(** ** Strings *)

Fixpoint str_filter (p : ascii -> bool) (s : string) : string :=
  match s with
  | EmptyString => EmptyString
  | String c s' => if p c then String c (str_filter p s') else str_filter p s'
  end.

Fixpoint str_map (f : ascii -> ascii) (s : string) : string :=
  match s with
  | EmptyString => EmptyString
  | String c s' => String (f c) (str_map f s')
  end.

Fixpoint str_forall (p : ascii -> bool) (s : string) : bool :=
  match s with
  | EmptyString => true
  | String c s' => p c && str_forall p s'
  end.

Definition str_exists (p : ascii -> bool) (s : string) : bool :=
  negb (str_forall (fun c => negb (p c)) s).

Definition str_lower (s : string) : string := str_map lower s.

(** [s.isdigit()]: non-empty and every character a digit. *)
Definition str_isdigit (s : string) : bool :=
  match s with
  | EmptyString => false
  | _ => str_forall isdigit s
  end.

Definition str_nonempty (s : string) : bool :=
  match s with EmptyString => false | _ => true end.

(** [s.split(sep)] for a one-character separator: the first field and the
    remaining ones, so the result is never the empty list. *)
Fixpoint split_at (sep : ascii) (s : string) : string * list string :=
  match s with
  | EmptyString => (EmptyString, [])
  | String c s' =>
      let (h, t) := split_at sep s' in
      if Ascii.eqb c sep then (EmptyString, h :: t) else (String c h, t)
  end.

Definition split (sep : ascii) (s : string) : list string :=
  let (h, t) := split_at sep s in h :: t.

(** [sep.join(l)]. *)
Definition join (sep : string) (l : list string) : string := String.concat sep l.

Fixpoint str_rev_onto (s acc : string) : string :=
  match s with
  | EmptyString => acc
  | String c s' => str_rev_onto s' (String c acc)
  end.

Definition str_rev (s : string) : string := str_rev_onto s EmptyString.

Fixpoint lstrip (p : ascii -> bool) (s : string) : string :=
  match s with
  | EmptyString => EmptyString
  | String c s' => if p c then lstrip p s' else s
  end.

Definition strip (p : ascii -> bool) (s : string) : string :=
  str_rev (lstrip p (str_rev (lstrip p s))).

Fixpoint repeat_char (c : ascii) (n : nat) : string :=
  match n with
  | O => EmptyString
  | S n' => String c (repeat_char c n')
  end.

(** ** Exceptions and results *)

Inductive exn := ValueError | TypeError | OverflowError.

Inductive res (A : Type) :=
| Ret (a : A)
| Raise (e : exn).
Arguments Ret {A} a.
Arguments Raise {A} e.

Definition bind {A B} (r : res A) (k : A -> res B) : res B :=
  match r with
  | Ret a => k a
  | Raise e => Raise e
  end.

(** [try: body except (ValueError, TypeError): handler]. *)
Definition try_except_value_type {A} (body : res A) (handler : res A) : res A :=
  match body with
  | Raise ValueError | Raise TypeError => handler
  | other => other
  end.

(** ** Values: what [json.loads] can produce *)

#[local] Set Warnings "-register-all".

Inductive pyval :=
| PyNone
| PyBool (b : bool)
| PyInt (z : Z)
| PyFloat (f : spec_float)
| PyStr (s : string)
| PyList (l : list pyval)
| PyDict (d : list (string * pyval)).

Definition is_none (v : pyval) : bool :=
  match v with PyNone => true | _ => false end.

(** Truth value, as tested by [if v], [not v] and [bool(v)]. *)
Definition truthy (v : pyval) : bool :=
  match v with
  | PyNone => false
  | PyBool b => b
  | PyInt z => negb (z =? 0)
  | PyFloat (S754_zero _) => false
  | PyFloat _ => true
  | PyStr s => str_nonempty s
  | PyList l => match l with [] => false | _ => true end
  | PyDict d => match d with [] => false | _ => true end
  end.

(** ** Integers and their literals

    Integers are unbounded, and so are the conversions between integers
    and strings: the interpreter's configurable limit on the number of
    digits of such a conversion is not part of the embedding. *)

Definition str_of_Z (z : Z) : string := NilZero.string_of_int (Z.to_int z).

Definition digit_val (c : ascii) : Z := code c - 48.

(** Digits of a literal, single underscores allowed between digits; the
    function is entered after a digit, with the value and the number of
    digits read so far. *)
Fixpoint digits_go (acc : Z) (n : nat) (s : string) : option (Z * nat) :=
  match s with
  | EmptyString => Some (acc, n)
  | String c s' =>
      if isdecimal c then digits_go (10 * acc + digit_val c) (S n) s'
      else if Ascii.eqb c "_"
      then match s' with
           | String d s'' =>
               if isdecimal d then digits_go (10 * acc + digit_val d) (S n) s''
               else None
           | EmptyString => None
           end
      else None
  end.

(** A non-empty run of digits: its value and the number of digits. *)
Definition digits_of (s : string) : option (Z * nat) :=
  match s with
  | String c s' => if isdecimal c then digits_go (digit_val c) 1%nat s' else None
  | EmptyString => None
  end.

Definition split_sign (s : string) : bool * string :=
  match s with
  | String "-" s' => (true, s')
  | String "+" s' => (false, s')
  | _ => (false, s)
  end.

(** [int(s)] for a string, base ten. *)
Definition int_of_str (s : string) : res Z :=
  let (neg, body) := split_sign (strip isnumspace s) in
  match digits_of body with
  | Some (n, _) => Ret (if neg then - n else n)
  | None => Raise ValueError
  end.

(** ** Floats: binary64, as [spec_float] with [prec = 53], [emax = 1024] *)

Definition is_inf (f : spec_float) : bool :=
  match f with S754_infinity _ => true | _ => false end.

Definition is_finite (f : spec_float) : bool :=
  match f with
  | S754_zero _ | S754_finite _ _ _ => true
  | S754_infinity _ | S754_nan => false
  end.

(** [float(n)] for an integer: round to nearest even; an integer beyond the
    largest float raises [OverflowError]. *)
Definition float_of_int (z : Z) : res spec_float :=
  let f := binary_normalize 53 1024 z 0 false in
  if is_inf f then Raise OverflowError else Ret f.

(** The float nearest to [m * 10^e] ([m >= 0]); a quotient is cut with a
    sticky bit below 64 significant bits, so rounding it rounds the exact
    value. *)
Definition float_of_decimal (neg : bool) (m e : Z) : spec_float :=
  let sgn x := if neg then - x else x in
  if m =? 0 then S754_zero neg
  else if 0 <=? e then binary_normalize 53 1024 (sgn (m * 10 ^ e)) 0 neg
  else
    let d := 10 ^ (- e) in
    let t := Z.log2 d + 64 in
    let n := m * 2 ^ t in
    let q := 2 * (n / d) + (if n mod d =? 0 then 0 else 1) in
    binary_normalize 53 1024 (sgn q) (- (t + 1)) neg.

(** The prefix before the first character satisfying [p], and what follows
    that character when there is one. *)
Fixpoint break_on (p : ascii -> bool) (s : string) : string * option string :=
  match s with
  | EmptyString => (EmptyString, None)
  | String c s' =>
      if p c then (EmptyString, Some s')
      else let (h, t) := break_on p s' in (String c h, t)
  end.

(** An optional run of digits: the empty string counts as no digits. *)
Definition digits_opt (s : string) : option (Z * nat) :=
  match s with
  | EmptyString => Some (0, O)
  | _ => digits_of s
  end.

(** Mantissa [digits [. digits]] or [. digits]: value and fraction length. *)
Definition mantissa_of (s : string) : option (Z * nat) :=
  let (ip, rest) := break_on (Ascii.eqb ".") s in
  match rest with
  | None =>
      match digits_of ip with
      | Some (n, _) => Some (n, O)
      | None => None
      end
  | Some fp =>
      match digits_opt ip, digits_opt fp with
      | Some (n, ni), Some (f, nf) =>
          if (Nat.eqb ni 0 && Nat.eqb nf 0)%bool then None
          else Some (n * 10 ^ Z.of_nat nf + f, nf)
      | _, _ => None
      end
  end.

Definition exponent_of (s : string) : option Z :=
  let (neg, body) := split_sign s in
  match digits_of body with
  | Some (n, _) => Some (if neg then - n else n)
  | None => None
  end.

(** [float(s)] for a string. *)
Definition float_of_str (s : string) : res spec_float :=
  let (neg, body) := split_sign (strip isnumspace s) in
  let word := str_lower body in
  if (String.eqb word "inf" || String.eqb word "infinity")%bool
  then Ret (S754_infinity neg)
  else if String.eqb word "nan" then Ret S754_nan
  else
    let (ms, es) := break_on (fun c => Ascii.eqb c "e" || Ascii.eqb c "E")%bool body in
    match mantissa_of ms, es with
    | Some (m, nf), None => Ret (float_of_decimal neg m (- Z.of_nat nf))
    | Some (m, nf), Some e =>
        match exponent_of e with
        | Some x => Ret (float_of_decimal neg m (x - Z.of_nat nf))
        | None => Raise ValueError
        end
    | None, _ => Raise ValueError
    end.

(** [int(x)] for a float: truncation toward zero. *)
Definition int_of_float (f : spec_float) : res Z :=
  match f with
  | S754_nan => Raise ValueError
  | S754_infinity _ => Raise OverflowError
  | S754_zero _ => Ret 0
  | S754_finite s m e =>
      let a := Z.shiftl (Zpos m) e in
      Ret (if s then - a else a)
  end.

(** Nearest integer to [num / den], ties to even ([den > 0]). *)
Definition round_half_even (num den : Z) : Z :=
  let q := num / den in
  match (2 * (num mod den)) ?= den with
  | Lt => q
  | Gt => q + 1
  | Eq => if Z.even q then q else q + 1
  end.

Definition digit_char (d : Z) : ascii := ascii_of_N (Z.to_N (48 + d)).

Definition sign_str (neg : bool) : string := if neg then "-" else "".

(** [f"{x:.2f}"]: the exact value rounded to hundredths, ties to even. *)
Definition format_2f (f : spec_float) : string :=
  match f with
  | S754_nan => "nan"
  | S754_infinity s => sign_str s ++ "inf"
  | S754_zero s => sign_str s ++ "0.00"
  | S754_finite s m e =>
      let n := round_half_even (Zpos m * 100 * 2 ^ Z.max e 0) (2 ^ Z.max (- e) 0) in
      sign_str s ++ str_of_Z (n / 100) ++ "."
        ++ String (digit_char ((n mod 100) / 10))
             (String (digit_char (n mod 10)) EmptyString)
  end.

(** *** [repr] of a float: the shortest decimal that reads back as it *)

(** Compare [m * 2^e] with [c * 10^k]. *)
Definition cmp_scaled (m e c k : Z) : comparison :=
  (m * 2 ^ Z.max e 0 * 10 ^ Z.max (- k) 0)
    ?= (c * 10 ^ Z.max k 0 * 2 ^ Z.max (- e) 0).

(** [p] with [10^(p-1) <= m * 2^e < 10^p]. *)
Definition decpt (m e : Z) : Z :=
  let ge p := match cmp_scaled m e 1 p with Lt => false | _ => true end in
  let p0 := ((Z.log2 m + e) * 30103) / 100000 in
  if ge (p0 + 1) then p0 + 2
  else if ge p0 then p0 + 1
  else if ge (p0 - 1) then p0 else p0 - 1.

(** Does [c * 10^k] read back as [m * 2^e]?  The interval reaches half way
    to each neighbour (a quarter below a power of two), ends included when
    [m] is even. *)
Definition reads_back (m e c k : Z) : bool :=
  let lo := 4 * m - (if ((m =? 2 ^ 52) && (-1074 <? e))%bool then 1 else 2) in
  let hi := 4 * m + 2 in
  let closed := Z.even m in
  (match cmp_scaled lo (e - 2) c k with
   | Lt => true | Eq => closed | Gt => false end)
  && (match cmp_scaled hi (e - 2) c k with
      | Gt => true | Eq => closed | Lt => false end).

(** The [n]-digit candidate for [m * 2^e], if one reads back. *)
Definition candidate (m e p : Z) (n : Z) : option (Z * Z) :=
  let k := p - n in
  let lo := (m * 2 ^ Z.max e 0 * 10 ^ Z.max (- k) 0)
              / (10 ^ Z.max k 0 * 2 ^ Z.max (- e) 0) in
  let hi := lo + 1 in
  match reads_back m e lo k, reads_back m e hi k with
  | true, false => Some (lo, k)
  | false, true => Some (hi, k)
  | true, true =>
      match cmp_scaled (2 * m) e (lo + hi) k with
      | Lt => Some (lo, k)
      | Gt => Some (hi, k)
      | Eq => Some (if Z.even lo then lo else hi, k)
      end
  | false, false => None
  end.

Fixpoint shortest (m e p : Z) (n : Z) (fuel : nat) : Z * Z :=
  match fuel with
  | O => ((m * 2 ^ Z.max e 0 * 10 ^ Z.max (n - p) 0)
            / (10 ^ Z.max (p - n) 0 * 2 ^ Z.max (- e) 0), p - n)
  | S fuel' =>
      match candidate m e p n with
      | Some ck => ck
      | None => shortest m e p (n + 1) fuel'
      end
  end.

Fixpoint strip_zeros (c k : Z) (fuel : nat) : Z * Z :=
  match fuel with
  | O => (c, k)
  | S fuel' =>
      if ((c mod 10 =? 0) && negb (c =? 0))%bool
      then strip_zeros (c / 10) (k + 1) fuel'
      else (c, k)
  end.

Fixpoint str_take (n : nat) (s : string) : string :=
  match n, s with
  | S n', String c s' => String c (str_take n' s')
  | _, _ => EmptyString
  end.

Fixpoint str_drop (n : nat) (s : string) : string :=
  match n, s with
  | S n', String _ s' => str_drop n' s'
  | _, _ => s
  end.

(** Lay out digits [ds] with the decimal point after [p] of them. *)
Definition layout_repr (ds : string) (p : Z) : string :=
  let nd := Z.of_nat (String.length ds) in
  if ((p <=? -4) || (16 <? p))%bool then
    let x := p - 1 in
    let xs := str_of_Z (Z.abs x) in
    str_take 1 ds
      ++ (match str_drop 1 ds with
          | EmptyString => EmptyString
          | r => "." ++ r
          end)
      ++ "e" ++ (if x <? 0 then "-" else "+")
      ++ (if Z.abs x <? 10 then "0" else "") ++ xs
  else if p <=? 0 then "0." ++ repeat_char "0" (Z.to_nat (- p)) ++ ds
  else if nd <=? p then ds ++ repeat_char "0" (Z.to_nat (p - nd)) ++ ".0"
  else str_take (Z.to_nat p) ds ++ "." ++ str_drop (Z.to_nat p) ds.

Definition float_repr (f : spec_float) : string :=
  match f with
  | S754_nan => "nan"
  | S754_infinity s => sign_str s ++ "inf"
  | S754_zero s => sign_str s ++ "0.0"
  | S754_finite s m e =>
      let (c0, k0) := shortest (Zpos m) e (decpt (Zpos m) e) 1 17 in
      let (c, k) := strip_zeros c0 k0 18 in
      let ds := str_of_Z c in
      sign_str s ++ layout_repr ds (Z.of_nat (String.length ds) + k)
  end.

(** ** [repr] and [str] *)

Definition hex_char (d : Z) : ascii :=
  if d <? 10 then digit_char d else ascii_of_N (Z.to_N (87 + d)).

Definition escape_char (quote c : ascii) : string :=
  if (Ascii.eqb c quote || Ascii.eqb c "\")%bool then String "\" (String c EmptyString)
  else if code c =? 9 then "\t"
  else if code c =? 10 then "\n"
  else if code c =? 13 then "\r"
  else if isprintable c then String c EmptyString
  else String "\" (String "x" (String (hex_char (code c / 16))
                                 (String (hex_char (code c mod 16)) EmptyString))).

Fixpoint escape (quote : ascii) (s : string) : string :=
  match s with
  | EmptyString => EmptyString
  | String c s' => escape_char quote c ++ escape quote s'
  end.

Definition dquote : ascii := ascii_of_N 34.
Definition squote : ascii := ascii_of_N 39.

(** [repr(s)] for a string: single quotes unless the string holds a single
    quote and no double quote. *)
Definition str_repr (s : string) : string :=
  let q := if (str_exists (Ascii.eqb squote) s
               && negb (str_exists (Ascii.eqb dquote) s))%bool
           then dquote else squote in
  String q (escape q s ++ String q EmptyString).

Fixpoint repr (v : pyval) : string :=
  match v with
  | PyNone => "None"
  | PyBool b => if b then "True" else "False"
  | PyInt z => str_of_Z z
  | PyFloat f => float_repr f
  | PyStr s => str_repr s
  | PyList l => "[" ++ join ", " (map repr l) ++ "]"
  | PyDict d =>
      "{" ++ join ", " (map (fun kv => str_repr (fst kv) ++ ": " ++ repr (snd kv)) d) ++ "}"
  end.

(** [str(v)]: never raises. *)
Definition str (v : pyval) : string :=
  match v with
  | PyStr s => s
  | _ => repr v
  end.

(** [int(v)]. *)
Definition int (v : pyval) : res Z :=
  match v with
  | PyBool b => Ret (if b then 1 else 0)
  | PyInt z => Ret z
  | PyFloat f => int_of_float f
  | PyStr s => int_of_str s
  | PyNone | PyList _ | PyDict _ => Raise TypeError
  end.

(** [float(v)]. *)
Definition float (v : pyval) : res spec_float :=
  match v with
  | PyBool b => float_of_int (if b then 1 else 0)
  | PyInt z => float_of_int z
  | PyFloat f => Ret f
  | PyStr s => float_of_str s
  | PyNone | PyList _ | PyDict _ => Raise TypeError
  end.

(** [str.capitalize]: first character to title case, the rest to lower
    case.  The title case of U+00DF is the two letters [Ss]; that of U+00B5
    and of U+00FF lies above U+00FF, outside the code points kept here, and
    the character is left as it is. *)
Definition title (c : ascii) : string :=
  if (in_range 97 122 c || (in_range 224 254 c && negb (code c =? 247)))%bool
  then String (ascii_of_N (N_of_ascii c - 32)) EmptyString
  else if code c =? 223 then "Ss"
  else String c EmptyString.

Definition capitalize (s : string) : string :=
  match s with
  | EmptyString => EmptyString
  | String c s' => title c ++ str_lower s'
  end.

(** [f"{x}"] for an optional string: [None] prints as [None]. *)
Definition str_opt (o : option string) : string :=
  match o with
  | Some s => s
  | None => "None"
  end.

End Py.

(* ================================================================== *)
(** * context.py: [ContextPathParser] *)
(* ================================================================== *)

Module ContextPathParser.
Import Py.

Definition isinstance_str (v : pyval) : bool :=
  match v with PyStr _ => true | _ => false end.

(** The guard [not context_path or not isinstance(context_path, str)]. *)
Definition rejected (context_path : pyval) : bool :=
  negb (truthy context_path) || negb (isinstance_str context_path).

(** The text of a value that passed the guard. *)
Definition text (context_path : pyval) : string :=
  match context_path with PyStr s => s | _ => EmptyString end.

Definition parse_context_path (context_path : pyval)
  : string * option (list string) :=
  if rejected context_path then (EmptyString, None)
  else
    let parts := split "." (text context_path) in
    if (List.length parts <=? 1)%nat then (text context_path, None)
    else
      let context_id := hd EmptyString parts in
      let subcontext_parts :=
        if (1 <? List.length parts)%nat then Some (tl parts) else None in
      (context_id, subcontext_parts).

(** [not subcontext_parts]: [None] or the empty list. *)
Definition no_parts (subcontext_parts : option (list string)) : bool :=
  match subcontext_parts with
  | None | Some [] => true
  | Some (_ :: _) => false
  end.

Definition build_context_path (context_id : string)
    (subcontext_parts : option (list string)) : string :=
  match subcontext_parts with
  | None | Some [] => context_id
  | Some parts => context_id ++ "." ++ join "." parts
  end.

Definition is_valid_context_path (context_path : pyval) : bool :=
  if rejected context_path then false
  else
    let parts := split "." (text context_path) in
    if negb (str_nonempty (hd EmptyString parts)) then false
    else forallb str_nonempty parts.

Definition get_context_type (context_path : pyval) : string :=
  if rejected context_path then "unknown"
  else
    let parts := split "." (text context_path) in
    match parts with
    | [] => "unknown"
    | part0 :: _ =>
        let context_type := str_filter isalpha part0 in
        if str_nonempty context_type then str_lower context_type else "unknown"
    end.

(** The body of the [try] raises what [int] raises; [except ValueError]
    falls through to the final [return None]. *)
Definition get_context_index (context_path : pyval) : res (option Z) :=
  if rejected context_path then Ret None
  else
    let parts := split "." (text context_path) in
    match parts with
    | [] => Ret None
    | part0 :: rest =>
        let body : res (option Z) :=
          let digits := str_filter isdigit part0 in
          if str_nonempty digits
          then bind (int (PyStr digits)) (fun n => Ret (Some n))
          else
            match rest with
            | part1 :: _ =>
                if str_isdigit part1
                then bind (int (PyStr part1)) (fun n => Ret (Some n))
                else Ret None
            | [] => Ret None
            end in
        match body with
        | Raise ValueError => Ret None
        | other => other
        end
    end.

(** ** The wording of the specification, for comparison *)

Fixpoint take_while (p : ascii -> bool) (s : string) : string :=
  match s with
  | EmptyString => EmptyString
  | String c s' => if p c then String c (take_while p s') else EmptyString
  end.

Fixpoint drop_while (p : ascii -> bool) (s : string) : string :=
  match s with
  | EmptyString => EmptyString
  | String c s' => if p c then drop_while p s' else s
  end.

(** The first run of characters satisfying [p]. *)
Definition first_run (p : ascii -> bool) (s : string) : string :=
  take_while p (drop_while (fun c => negb (p c)) s).

Definition first_segment (s : string) : string := fst (split_at "." s).

(** "The run of alphabetic characters at the start of the first segment,
    lower-cased; unknown on invalid/empty input or if no alphabetic run
    exists." *)
Definition spec_get_type (context_path : pyval) : string :=
  if rejected context_path then "unknown"
  else
    let run := take_while isalpha (first_segment (text context_path)) in
    if str_nonempty run then str_lower run else "unknown".

(** Decimal value of a string of digits. *)
Fixpoint dec_value_from (acc : Z) (s : string) : Z :=
  match s with
  | EmptyString => acc
  | String c s' => dec_value_from (10 * acc + digit_val c) s'
  end.

Definition dec_value (s : string) : Z := dec_value_from 0 s.

(** "The first run of digit characters found in the first segment; if none,
    fall back to the second segment only if it is purely numeric; none if
    neither yields digits." *)
Definition spec_get_index (context_path : pyval) : option Z :=
  if rejected context_path then None
  else
    match split "." (text context_path) with
    | [] => None
    | part0 :: rest =>
        let run := first_run isdigit part0 in
        if str_nonempty run then Some (dec_value run)
        else
          match rest with
          | part1 :: _ =>
              if str_isdigit part1 then Some (dec_value part1) else None
          | [] => None
          end
    end.

(** Digits as [int] reads them: the value of a string of decimal digits,
    nothing for a string holding a digit that is not decimal. *)
Definition decimal_int (d : string) : option Z :=
  if str_forall isdecimal d then Some (dec_value d) else None.

Definition second_segment (s : string) : option string :=
  match snd (split_at "." s) with
  | part1 :: _ => Some part1
  | [] => None
  end.

(** A segment: no dot in it. *)
Definition no_dot (s : string) : bool :=
  str_forall (fun c => negb (Ascii.eqb c ".")) s.

(** All characters satisfying [p] stand at the start of [s]. *)
Definition all_leading (p : ascii -> bool) (s : string) : bool :=
  negb (str_exists p (drop_while p s)).

(** The characters satisfying [p] form one run in [s]. *)
Definition one_run (p : ascii -> bool) (s : string) : bool :=
  all_leading p (drop_while (fun c => negb (p c)) s).

(** No digit of [s] is a superscript digit. *)
Definition plain_digits (s : string) : bool :=
  str_forall (fun c => implb (isdigit c) (isdecimal c)) s.

End ContextPathParser.

(* ================================================================== *)
(** * sunspec.py: [SunSpecModels] *)
(* ================================================================== *)

Module SunSpecModels.
Import Py.

(** One entry of a model's [points] dictionary; [unit] and [access] are
    keys that some entries do not have. *)
Record point_info := mk_point {
  pname : string;
  ptype : string;
  unit : option string;
  description : string;
  access : option string
}.

Record model_def := mk_model {
  id : Z;
  name : string;
  mdescription : string;
  points : list (string * point_info)
}.

Definition pt (n t : string) (u : option string) (d : string) (a : option string)
  : point_info := mk_point n t u d a.

(** The dictionary built by [_load_models]. *)
Definition models : list (Z * model_def) :=
  [ (1, mk_model 1 "Common" "Common Model"
       [ ("Mn", pt "Manufacturer" "string" None "Device manufacturer" None);
         ("Md", pt "Model" "string" None "Device model" None);
         ("SN", pt "SerialNumber" "string" None "Device serial number" None);
         ("Ver", pt "Version" "string" None "Device version" None) ]);
    (101, mk_model 101 "Inverter" "Single Phase Inverter"
       [ ("A", pt "AC Current" "float" (Some "A") "AC Total Current" (Some "R"));
         ("AphA", pt "Phase A Current" "float" (Some "A") "Phase A Current" (Some "R"));
         ("PhVphA", pt "Phase A Voltage" "float" (Some "V") "Phase A Voltage" (Some "R"));
         ("W", pt "AC Power" "float" (Some "W") "AC Power" (Some "R"));
         ("Hz", pt "Frequency" "float" (Some "Hz") "AC Frequency" (Some "R"));
         ("WH", pt "Energy" "float" (Some "Wh") "AC Energy" (Some "R"));
         ("St", pt "Operating State" "enum16" None "Inverter operating state" (Some "R")) ]);
    (160, mk_model 160 "Multiple MPPT Inverter Extension"
       "DER Multiple MPPT Inverter Extension Model"
       [ ("ID", pt "ID" "uint16" None "MPPT ID" (Some "R"));
         ("DCA", pt "DC Current" "float" (Some "A") "DC Current" (Some "R"));
         ("DCV", pt "DC Voltage" "float" (Some "V") "DC Voltage" (Some "R"));
         ("DCW", pt "DC Power" "float" (Some "W") "DC Power" (Some "R"));
         ("TmpCab", pt "Cabinet Temperature" "float" (Some "C") "Cabinet Temperature" (Some "R"));
         ("St", pt "Operating State" "enum16" None "MPPT operating state" (Some "R")) ]);
    (124, mk_model 124 "Storage" "Storage Model"
       [ ("ChaState", pt "State of Charge" "float" (Some "%") "Battery state of charge" (Some "R"));
         ("ChaSt", pt "Battery Status" "enum16" None "Battery status" (Some "R"));
         ("W", pt "Power" "float" (Some "W") "Battery power" (Some "R"));
         ("WChaMax", pt "Max Charge Rate" "float" (Some "W") "Max charge rate" (Some "RW"));
         ("WDisChaMax", pt "Max Discharge Rate" "float" (Some "W") "Max discharge rate" (Some "RW")) ]) ].

(** [dict.get] on a dictionary with integer keys. *)
Fixpoint lookup_Z {A} (k : Z) (d : list (Z * A)) : option A :=
  match d with
  | [] => None
  | (k', a) :: d' => if k =? k' then Some a else lookup_Z k d'
  end.

(** [dict.get] on a dictionary with string keys. *)
Fixpoint lookup {A} (k : string) (d : list (string * A)) : option A :=
  match d with
  | [] => None
  | (k', a) :: d' => if String.eqb k k' then Some a else lookup k d'
  end.

Definition get_model (model_id : Z) : option model_def := lookup_Z model_id models.

Definition get_point_info (model_id : Z) (point_id : string) : option point_info :=
  match get_model model_id with
  | Some model => lookup point_id (points model)
  | None => None
  end.

Definition in_strs (s : string) (l : list string) : bool :=
  existsb (String.eqb s) l.

Definition parse_value (model_id : Z) (point_id : string) (value : pyval)
  : res pyval :=
  match get_point_info model_id point_id with
  | None => Ret value
  | Some info =>
      let data_type := ptype info in
      try_except_value_type
        (if String.eqb data_type "float"
         then bind (float value) (fun f => Ret (PyFloat f))
         else if in_strs data_type ["uint16"; "uint32"; "uint64"]
         then bind (int value) (fun n => Ret (PyInt n))
         else if in_strs data_type ["int16"; "int32"; "int64"]
         then bind (int value) (fun n => Ret (PyInt n))
         else if String.eqb data_type "enum16"
         then bind (int value) (fun n => Ret (PyInt n))
         else if String.eqb data_type "string" then Ret (PyStr (str value))
         else if String.eqb data_type "boolean" then Ret (PyBool (truthy value))
         else Ret value)
        (Ret value)
  end.

(** [point_info.get('unit', '')] followed by [formatted += f" {unit}"] when
    the unit is not empty. *)
Definition add_unit (formatted : string) (u : option string) : string :=
  match u with
  | Some (String c r) => formatted ++ " " ++ String c r
  | _ => formatted
  end.

Definition format_value (model_id : Z) (point_id : string) (value : pyval)
  : res string :=
  if is_none value then Ret "N/A"
  else
    match get_point_info model_id point_id with
    | None => Ret (str value)
    | Some info =>
        let data_type := ptype info in
        try_except_value_type
          (bind (if String.eqb data_type "float"
                 then bind (float value) (fun f => Ret (format_2f f))
                 else Ret (str value))
                (fun formatted => Ret (add_unit formatted (unit info))))
          (Ret (str value))
    end.

Definition validate_value (model_id : Z) (point_id : string) (value : pyval)
  : res bool :=
  match get_point_info model_id point_id with
  | None => Ret true
  | Some info =>
      let data_type := ptype info in
      try_except_value_type
        (if String.eqb data_type "float"
         then bind (float value) (fun _ => Ret true)
         else if in_strs data_type ["uint16"; "uint32"; "uint64"]
         then bind (int value) (fun int_val => Ret (negb (int_val <? 0)))
         else if in_strs data_type ["int16"; "int32"; "int64"]
         then bind (int value) (fun _ => Ret true)
         else if String.eqb data_type "enum16"
         then bind (int value) (fun _ => Ret true)
         else Ret true)
        (Ret false)
  end.

(** ** The wording of the specification, for comparison *)

(** A rendering with "exactly two fraction digits": it ends with a point
    and two decimal digits. *)
Definition ends_with_2f (r : string) : bool :=
  match str_rev r with
  | String b (String a (String "." _)) => isdecimal a && isdecimal b
  | _ => false
  end.

(** [r] without the suffix [suf], when it ends with it. *)
Fixpoint strip_prefix (pre r : string) : option string :=
  match pre, r with
  | EmptyString, _ => Some r
  | String c pre', String d r' =>
      if Ascii.eqb c d then strip_prefix pre' r' else None
  | String _ _, EmptyString => None
  end.

Definition strip_suffix (suf r : string) : option string :=
  match strip_prefix (str_rev suf) (str_rev r) with
  | Some x => Some (str_rev x)
  | None => None
  end.

(** "For a float-typed known point it renders exactly two fraction digits;
    when the point declares a unit it appends a single space plus that
    unit." *)
Definition renders_2f_with_unit (u r : string) : bool :=
  match strip_suffix (" " ++ u) r with
  | Some x => ends_with_2f x
  | None => false
  end.

End SunSpecModels.

(* ================================================================== *)
(** * The registry rows *)
(* ================================================================== *)

(** Modelled from the spec: the ORM classes [Device], [Context],
    [DataPoint] and [DeviceEvent] of [models.py], which the sources import
    and which is not among them.  The fields are those of the data model
    (section 3) under the attribute names the sources read and write.  The
    columns the sources fill from dynamically typed wire values hold the
    value assigned; the event timestamp, which the sources never set or
    read, is left out. *)

Module Device.
Record t := mk {
  id : Z;
  uuid : string;
  name : string;
  model : option string;
  manufacturer : option string;
  firmware_version : option string;
  protocol_version : option string;
  ip_address : string;
  port : Z;
  is_online : bool;
  last_seen : Z
}.

Definition set_is_online (b : bool) (d : t) : t :=
  mk (id d) (uuid d) (name d) (model d) (manufacturer d) (firmware_version d)
     (protocol_version d) (ip_address d) (port d) b (last_seen d).

Definition set_last_seen (ts : Z) (d : t) : t :=
  mk (id d) (uuid d) (name d) (model d) (manufacturer d) (firmware_version d)
     (protocol_version d) (ip_address d) (port d) (is_online d) ts.
End Device.

Module Context.
Record t := mk {
  id : Z;
  device_id : Z;
  context_id : string;
  context_type : string;
  model_id : option Z;
  model_name : option string;
  description : string
}.
End Context.

Module DataPoint.
Record t := mk {
  context_id : Z;
  point_id : string;
  name : Py.pyval;
  data_type : Py.pyval;
  unit : Py.pyval;
  access : Py.pyval;
  description : Py.pyval;
  value : option string;
  last_updated : option Z
}.

Definition set_value (v : option string) (ts : option Z) (p : t) : t :=
  mk (context_id p) (point_id p) (name p) (data_type p) (unit p) (access p)
     (description p) v ts.

Definition set_metadata (n ty u a d : Py.pyval) (p : t) : t :=
  mk (context_id p) (point_id p) n ty u a d (value p) (last_updated p).
End DataPoint.

Module DeviceEvent.
Record t := mk {
  device_id : Z;
  event_type : string;
  message : string;
  details : option string
}.
End DeviceEvent.

(* ================================================================== *)
(** * protocol.py: the messages exchanged *)
(* ================================================================== *)

Module Protocol.
Import Py.

(** A Python [dict] with string keys, in insertion order. *)
Definition dict := list (string * pyval).

Definition dict_get (k : string) (d : dict) : option pyval :=
  SunSpecModels.lookup k d.

(** [d[k] = v]. *)
Fixpoint dict_set (k : string) (v : pyval) (d : dict) : dict :=
  match d with
  | [] => [(k, v)]
  | (k', v') :: d' =>
      if String.eqb k k' then (k, v) :: d' else (k', v') :: dict_set k v d'
  end.

Definition keys (d : dict) : list string := map fst d.

(** The [device] object of a discovery response. *)
Record device_info := mk_device_info {
  uuid : option string;
  name : option string;
  model : option string;
  manufacturer : option string;
  firmwareVersion : option string;
  protocolVersion : option string;
  version : option string
}.

(** One accepted discovery response: [response['mcp']['device']] when both
    keys are there, and the sender annotation. *)
Record discovery_response := mk_discovery_response {
  device : option device_info;
  source_ip : option string;
  source_port : option Z
}.

(** One element of [mcp.contexts], an object; [type] and [cpoints] (the
    key [points]) are whatever values the answer carries under these
    keys, the other keys are typed as the registry stores them ([None]: the
    key is missing). *)
Record context_info := mk_context_info {
  id : option string;
  type : option pyval;
  modelId : option Z;
  modelName : option string;
  description : option string;
  cpoints : option pyval
}.

(** The [mcp] object of a response, with the type-specific keys. *)
Record mcp_body := mk_mcp {
  contexts : option (list context_info);
  points : option dict;
  success : option pyval;
  error : option string
}.

Record response := mk_response { mcp : option mcp_body }.

(** The messages built by [get_available_contexts], [read_context] and
    [write_context] ([create_read_request], [create_write_request]), with
    the address they are sent to. *)
Inductive request :=
| contexts_request (ip_address : string) (port : Z)
| read_request (ip_address : string) (port : Z) (context_path : string)
| write_request (ip_address : string) (port : Z) (context_path : string)
    (wpoints : dict).

End Protocol.

(* ================================================================== *)
(** * The world the two services act on *)
(* ================================================================== *)

Module World.

(** The store ([db.session], committed), the clock readings taken so far
    and the messages sent so far. *)
Record t := mk {
  devices : list Device.t;
  contexts : list Context.t;
  points : list DataPoint.t;
  events : list DeviceEvent.t;
  tick : nat;
  sent : list Protocol.request
}.

Definition set_devices (l : list Device.t) (w : t) : t :=
  mk l (contexts w) (points w) (events w) (tick w) (sent w).
Definition set_contexts (l : list Context.t) (w : t) : t :=
  mk (devices w) l (points w) (events w) (tick w) (sent w).
Definition set_points (l : list DataPoint.t) (w : t) : t :=
  mk (devices w) (contexts w) l (events w) (tick w) (sent w).
Definition set_events (l : list DeviceEvent.t) (w : t) : t :=
  mk (devices w) (contexts w) (points w) l (tick w) (sent w).

(** The environment: [clock n] is the [n]-th reading of
    [datetime.utcnow()], [net n r] what [send_message] returns for the
    message [r] sent after [n] others ([None]: no response). *)
Record env := mk_env {
  clock : nat -> Z;
  net : nat -> Protocol.request -> option Protocol.response
}.

(** Computations of the services: state passing over the world. *)
Definition M (A : Type) : Type := t -> A * t.

Definition ret {A} (a : A) : M A := fun w => (a, w).

Definition bind {A B} (m : M A) (k : A -> M B) : M B :=
  fun w => let (a, w') := m w in k a w'.

Definition get : M t := fun w => (w, w).

Definition modify (f : t -> t) : M unit := fun w => (tt, f w).

Definition utcnow (E : env) : M Z :=
  fun w => (clock E (tick w),
            mk (devices w) (contexts w) (points w) (events w) (S (tick w)) (sent w)).

Definition send_message (E : env) (r : Protocol.request)
  : M (option Protocol.response) :=
  fun w => (net E (List.length (sent w)) r,
            mk (devices w) (contexts w) (points w) (events w) (tick w)
               (sent w ++ [r])).

(** [db.session.add(event)]. *)
Definition add_event (e : DeviceEvent.t) : M unit :=
  modify (fun w => set_events (events w ++ [e]) w).

Fixpoint for_each {A} (l : list A) (body : A -> M unit) : M unit :=
  match l with
  | [] => ret tt
  | x :: l' => bind (body x) (fun _ => for_each l' body)
  end.

(** A loop whose body may raise ([false]); the exception ends the loop. *)
Fixpoint for_each_try {A} (l : list A) (body : A -> M bool) : M bool :=
  match l with
  | [] => ret true
  | x :: l' =>
      bind (body x)
        (fun completed => if completed then for_each_try l' body else ret false)
  end.

(** The first row satisfying [p] replaced by its image: the object returned
    by [query.filter_by(...).first()] or by [next(...)], mutated. *)
Fixpoint update_first {A} (p : A -> bool) (f : A -> A) (l : list A) : list A :=
  match l with
  | [] => []
  | x :: l' => if p x then f x :: l' else x :: update_first p f l'
  end.

(** The last row satisfying [p]: the object a dictionary comprehension
    keeps under a key. *)
Fixpoint find_last {A} (p : A -> bool) (l : list A) : option A :=
  match l with
  | [] => None
  | x :: l' =>
      match find_last p l' with
      | Some y => Some y
      | None => if p x then Some x else None
      end
  end.

Fixpoint update_last {A} (p : A -> bool) (f : A -> A) (l : list A) : list A :=
  match l with
  | [] => []
  | x :: l' =>
      if existsb p l' then x :: update_last p f l'
      else if p x then f x :: l' else x :: l'
  end.

(** The key given to a new row. *)
Definition fresh_id (ids : list Z) : Z := 1 + fold_right Z.max 0 ids.

End World.

Declare Scope world_scope.
Notation "x <- m ;; k" := (World.bind m (fun x => k))
  (at level 61, m at next level, right associativity) : world_scope.
Notation "m ;;; k" := (World.bind m (fun _ => k))
  (at level 61, right associativity) : world_scope.

(* ================================================================== *)
(** * discovery.py: [DeviceDiscovery] *)
(* ================================================================== *)

Module DeviceDiscovery.
Import Py Protocol World.
Local Open Scope world_scope.

(** The [device_data] dictionary of [_process_device_info]; [id] is added
    once the row is known. *)
Record device_data := mk_device_data {
  uuid : string;
  name : string;
  model : option string;
  manufacturer : option string;
  firmware_version : option string;
  protocol_version : option string;
  ip_address : string;
  port : Z;
  is_online : bool;
  last_seen : Z;
  id : option Z
}.

Definition with_id (i : Z) (d : device_data) : device_data :=
  mk_device_data (uuid d) (name d) (model d) (manufacturer d)
    (firmware_version d) (protocol_version d) (ip_address d) (port d)
    (is_online d) (last_seen d) (Some i).

(** [setattr(existing_device, key, value)] for every key but [uuid]. *)
Definition assign (data : device_data) (existing : Device.t) : Device.t :=
  Device.mk (Device.id existing) (Device.uuid existing) (name data) (model data)
    (manufacturer data) (firmware_version data) (protocol_version data)
    (ip_address data) (port data) (is_online data) (last_seen data).

(** The row built from [device_data] and flushed, which gives it its id. *)
Definition new_device (i : Z) (data : device_data) : Device.t :=
  Device.mk i (uuid data) (name data) (model data) (manufacturer data)
    (firmware_version data) (protocol_version data) (ip_address data)
    (port data) (is_online data) (last_seen data).

Definition has_uuid (u : string) (d : Device.t) : bool :=
  String.eqb (Device.uuid d) u.

Definition or_default {A} (o : option A) (d : A) : A :=
  match o with Some a => a | None => d end.

Section Service.
Variable E : env.

Definition _process_device_info (info : device_info) (ip : string)
    (port : option Z) : M (option device_data) :=
  match Protocol.uuid info with
  | None | Some EmptyString => ret None
  | Some uuid =>
      let device_port :=
        match port with
        | Some p => if p =? 0 then 47808 else p
        | None => 47808
        end in
      now <- utcnow E ;;
      let data :=
        mk_device_data uuid
          (or_default (Protocol.name info) ("Device-" ++ str_take 8 uuid))
          (Protocol.model info) (Protocol.manufacturer info)
          (firmwareVersion info)
          (match protocolVersion info with
           | Some v => Some v
           | None => version info
           end)
          ip device_port true now None in
      w <- get ;;
      match find (has_uuid uuid) (devices w) with
      | Some existing_device =>
          let updated := assign data existing_device in
          modify (set_devices (update_first (has_uuid uuid) (assign data) (devices w))) ;;;
          (if negb (Device.is_online updated)
           then add_event
                  (DeviceEvent.mk (Device.id updated) "status_change"
                     "Device came online"
                     (Some ("IP: " ++ ip ++ ", Port: " ++ str_of_Z device_port)))
           else ret tt) ;;;
          ret (Some (with_id (Device.id updated) data))
      | None =>
          let device := new_device (fresh_id (map Device.id (devices w))) data in
          modify (set_devices (devices w ++ [device])) ;;;
          add_event
            (DeviceEvent.mk (Device.id device) "discovery" "Device discovered"
               (Some ("Model: " ++ str_opt (Device.model device)
                        ++ ", Manufacturer: "
                        ++ str_opt (Device.manufacturer device)))) ;;;
          ret (Some (with_id (Device.id device) data))
      end
  end.

Definition in_context (cid : Z) (pid : string) (p : DataPoint.t) : bool :=
  (DataPoint.context_id p =? cid) && String.eqb (DataPoint.point_id p) pid.

(** [point_info.get(key)]: [None] for a missing key. *)
Definition get_or_none (k : string) (d : dict) : pyval :=
  or_default (dict_get k d) PyNone.

(** One iteration of the loop of [_process_context_points];
    [existing_point_ids] is the set computed before the loop.  A new row
    gets no [last_updated] from the source: it is left at [None]. *)
Definition process_point (cid : Z) (existing_point_ids : list string)
    (item : string * pyval) : M unit :=
  let (point_id, point_info) := item in
  match point_info with
  | PyDict info =>
      let name := or_default (dict_get "name" info) (PyStr point_id) in
      let data_type := get_or_none "type" info in
      let unit := get_or_none "unit" info in
      let access := get_or_none "access" info in
      let description := get_or_none "description" info in
      let value := get_or_none "value" info in
      if existsb (String.eqb point_id) existing_point_ids then
        modify (fun w => set_points
                  (update_first (in_context cid point_id)
                     (DataPoint.set_metadata name data_type unit access description)
                     (points w)) w) ;;;
        (if negb (is_none value) then
           now <- utcnow E ;;
           modify (fun w => set_points
                     (update_first (in_context cid point_id)
                        (DataPoint.set_value (Some (str value)) (Some now))
                        (points w)) w)
         else ret tt)
      else
        modify (fun w => set_points
                  (points w ++
                     [DataPoint.mk cid point_id name data_type unit access
                        description
                        (if negb (is_none value) then Some (str value) else None)
                        None]) w)
  | _ => ret tt
  end.

Definition _process_context_points (context : Context.t) (points_data : dict)
  : M unit :=
  w <- get ;;
  let existing_points :=
    filter (fun p => DataPoint.context_id p =? Context.id context) (points w) in
  let existing_point_ids := map DataPoint.point_id existing_points in
  for_each points_data (process_point (Context.id context) existing_point_ids).

Definition is_context (did : Z) (cid : string) (c : Context.t) : bool :=
  (Context.device_id c =? did) && String.eqb (Context.context_id c) cid.

Definition assign_context (ty : string) (mid : option Z) (mn : option string)
    (d : string) (c : Context.t) : Context.t :=
  Context.mk (Context.id c) (Context.device_id c) (Context.context_id c)
    ty mid mn d.

(** One iteration of the loop of [_process_device_contexts]; the result
    is [false] when the iteration raises.  The default of the description,
    [context_type.capitalize()], is evaluated whether or not the key is
    there, and raises [AttributeError] when the type is not a string; so
    does [points_data.items()] when the points are not a dictionary. *)
Definition process_context (device_id : Z) (existing_context_ids : list string)
    (info : context_info) : M bool :=
  match Protocol.id info with
  | None | Some EmptyString => ret true
  | Some context_id =>
      match or_default (type info) (PyStr "unknown") with
      | PyStr context_type =>
          let model_id := modelId info in
          let model_name := modelName info in
          let description :=
            or_default (Protocol.description info)
              (capitalize context_type ++ " context") in
          w <- get ;;
          let fresh :=
            Context.mk (fresh_id (map Context.id (contexts w))) device_id
              context_id context_type model_id model_name description in
          context <-
            (if existsb (String.eqb context_id) existing_context_ids then
               modify (set_contexts
                         (update_first (is_context device_id context_id)
                            (assign_context context_type model_id model_name
                               description)
                            (contexts w))) ;;;
               ret (match find (is_context device_id context_id) (contexts w) with
                    | Some c =>
                        assign_context context_type model_id model_name
                          description c
                    | None => fresh
                    end)
             else
               modify (set_contexts (contexts w ++ [fresh])) ;;;
               ret fresh) ;;
          match cpoints info with
          | Some (PyDict points_data) =>
              _process_context_points context points_data ;;; ret true
          | Some _ => ret false
          | None => ret true
          end
      | _ => ret false
      end
  end.

(** [_process_device_contexts]: the answer is committed when the loop
    completes; when an iteration raises, [db.session.rollback()] undoes
    what the call has done to contexts and data points since it began
    (the state [_process_device_info] committed). *)
Definition _process_device_contexts (device_id : Z)
    (contexts_data : list context_info) : M unit :=
  w <- get ;;
  let existing_contexts :=
    filter (fun c => Context.device_id c =? device_id) (contexts w) in
  let existing_context_ids := map Context.context_id existing_contexts in
  completed <-
    for_each_try contexts_data (process_context device_id existing_context_ids) ;;
  if completed then ret tt
  else modify (fun w' => set_contexts (contexts w) (set_points (points w) w')).

Definition _get_device_details (data : device_data) : M unit :=
  match id data with
  | Some device_id =>
      if (device_id =? 0) || negb (str_nonempty (ip_address data))
         || (port data =? 0)
      then ret tt
      else
        contexts_response <-
          send_message E (contexts_request (ip_address data) (port data)) ;;
        match contexts_response with
        | Some (mk_response (Some body)) =>
            match Protocol.contexts body with
            | Some contexts => _process_device_contexts device_id contexts
            | None => ret tt
            end
        | _ => ret tt
        end
  | None => ret tt
  end.

Definition discovered_uuids (discovered_devices : list device_data)
  : list string := map uuid discovered_devices.

Definition in_uuids (u : string) (l : list string) : bool :=
  existsb (String.eqb u) l.

(** Does the liveness pass take this row offline? *)
Definition goes_offline (uuids : list string) (d : Device.t) : bool :=
  Device.is_online d && negb (in_uuids (Device.uuid d) uuids).

Definition went_offline (d : Device.t) : DeviceEvent.t :=
  DeviceEvent.mk (Device.id d) "status_change" "Device went offline" None.

Definition _update_device_status (discovered_devices : list device_data)
  : M unit :=
  let uuids := discovered_uuids discovered_devices in
  w <- get ;;
  let all_devices := devices w in
  modify (set_devices
            (map (fun d => if goes_offline uuids d
                           then Device.set_is_online false d else d)
               all_devices)) ;;;
  for_each (filter (goes_offline uuids) all_devices)
    (fun d => add_event (went_offline d)).

(** The loop body of [discover_devices]; the list of discovered devices is
    threaded through. *)
Definition process_response (acc : list device_data) (r : discovery_response)
  : M (list device_data) :=
  match device r with
  | None => ret acc
  | Some info =>
      match Protocol.uuid info with
      | None | Some EmptyString => ret acc
      | Some _ =>
          match source_ip r with
          | None | Some EmptyString => ret acc
          | Some ip =>
              data <- _process_device_info info ip (source_port r) ;;
              match data with
              | Some d => _get_device_details d ;;; ret (acc ++ [d])%list
              | None => ret acc
              end
          end
      end
  end.

Fixpoint process_responses (acc : list device_data)
    (responses : list discovery_response) : M (list device_data) :=
  match responses with
  | [] => ret acc
  | r :: rs => acc' <- process_response acc r ;; process_responses acc' rs
  end.

(** [discover_devices], given what [broadcast_discovery] collected. *)
Definition discover_devices (responses : list discovery_response)
  : M (list device_data) :=
  discovered_devices <- process_responses [] responses ;;
  _update_device_status discovered_devices ;;;
  ret discovered_devices.

End Service.

(** Does the payload's entry for a point supply a value?  Only a point
    definition whose [value] is there and not null does. *)
Definition supplies_value (point_info : pyval) : bool :=
  match point_info with
  | PyDict info => negb (is_none (get_or_none "value" info))
  | _ => false
  end.

(** The predicate counting the [status_change] events of a device. *)
Definition status_change_of (device_id : Z) (e : DeviceEvent.t) : bool :=
  (DeviceEvent.device_id e =? device_id)
  && String.eqb (DeviceEvent.event_type e) "status_change".

End DeviceDiscovery.

(* ================================================================== *)
(** * device.py: [DeviceManager] *)
(* ================================================================== *)

Module DeviceManager.
Import Py Protocol World.
Local Open Scope world_scope.

(** The dictionaries returned by the read and write entry points. *)
Record result := mk_result {
  rsuccess : bool;
  rerror : option string
}.

Definition ok : result := mk_result true None.
Definition failure (msg : string) : result := mk_result false (Some msg).

Definition in_context (cid : Z) (pid : string) (p : DataPoint.t) : bool :=
  (DataPoint.context_id p =? cid) && String.eqb (DataPoint.point_id p) pid.

(** [point.access not in ['W', 'RW']], negated. *)
Definition writable (p : DataPoint.t) : bool :=
  match DataPoint.access p with
  | PyStr a => String.eqb a "W" || String.eqb a "RW"
  | _ => false
  end.

Definition opt_str_eqb (o : option string) (s : string) : bool :=
  match o with
  | Some x => String.eqb x s
  | None => false
  end.

Section Service.
Variable E : env.

(** One iteration of the loop of [_update_context_points]; the dictionary
    [existing_points] keeps, for a point id, the last row of the context
    with that id. *)
Definition update_point (cid : Z) (item : string * pyval) : M unit :=
  let (point_id, value) := item in
  w <- get ;;
  match find_last (in_context cid point_id) (points w) with
  | Some point =>
      if negb (is_none value) then
        let str_value := str value in
        if negb (opt_str_eqb (DataPoint.value point) str_value) then
          now <- utcnow E ;;
          modify (fun w => set_points
                    (update_last (in_context cid point_id)
                       (DataPoint.set_value (Some str_value) (Some now))
                       (points w)) w)
        else ret tt
      else ret tt
  | None => ret tt
  end.

Definition _update_context_points (context : Context.t) (points_data : dict)
  : M unit :=
  for_each points_data (update_point (Context.id context)).

Definition refresh_context (device : Device.t) (context : Context.t) : M unit :=
  response <-
    send_message E
      (read_request (Device.ip_address device) (Device.port device)
         (Context.context_id context)) ;;
  match response with
  | Some (mk_response (Some body)) =>
      match Protocol.points body with
      | Some (item :: rest) => _update_context_points context (item :: rest)
      | _ => ret tt
      end
  | _ => ret tt
  end.

Definition has_id (i : Z) (d : Device.t) : bool := Device.id d =? i.

Definition refresh_device (device : Device.t) : M unit :=
  now <- utcnow E ;;
  modify (fun w => set_devices
            (update_first (has_id (Device.id device)) (Device.set_last_seen now)
               (devices w)) w) ;;;
  w <- get ;;
  for_each (filter (fun c => Context.device_id c =? Device.id device) (contexts w))
    (refresh_context device).

Definition refresh_all_devices : M unit :=
  w <- get ;;
  for_each (filter Device.is_online (devices w)) refresh_device.

(** The validation loop of [write_device_context]. *)
Fixpoint validate (pts : list DataPoint.t) (cid : Z) (points_data : dict)
    (validated_points : dict) : dict :=
  match points_data with
  | [] => validated_points
  | (point_id, value) :: rest =>
      match find (in_context cid point_id) pts with
      | None => validate pts cid rest validated_points
      | Some point =>
          if negb (writable point) then validate pts cid rest validated_points
          else validate pts cid rest (dict_set point_id value validated_points)
      end
  end.

(** One iteration of the loop that stores the written values. *)
Definition store_point (cid : Z) (item : string * pyval) : M unit :=
  let (point_id, value) := item in
  w <- get ;;
  match find (in_context cid point_id) (points w) with
  | Some _ =>
      now <- utcnow E ;;
      modify (fun w => set_points
                (update_first (in_context cid point_id)
                   (DataPoint.set_value (Some (str value)) (Some now))
                   (points w)) w)
  | None => ret tt
  end.

Definition write_device_context (device_id context_id : Z) (points_data : dict)
  : M result :=
  w <- get ;;
  match find (has_id device_id) (devices w) with
  | None => ret (failure "Device not found or offline")
  | Some device =>
      if negb (Device.is_online device)
      then ret (failure "Device not found or offline")
      else
        match find (fun c => Context.id c =? context_id) (contexts w) with
        | None => ret (failure "Context not found")
        | Some context =>
            let validated_points :=
              validate (points w) (Context.id context) points_data [] in
            match validated_points with
            | [] => ret (failure "No valid writable points")
            | _ :: _ =>
                response <-
                  send_message E
                    (write_request (Device.ip_address device) (Device.port device)
                       (Context.context_id context) validated_points) ;;
                match response with
                | Some (mk_response (Some body)) =>
                    if truthy (DeviceDiscovery.or_default (success body) (PyBool false))
                    then
                      for_each validated_points (store_point (Context.id context)) ;;;
                      add_event
                        (DeviceEvent.mk device_id "write"
                           ("Wrote values to " ++ Context.context_id context)
                           (Some ("Points: " ++ join ", " (keys validated_points)))) ;;;
                      ret ok
                    else
                      ret (failure
                             (DeviceDiscovery.or_default (error body) "Unknown error"))
                | _ => ret (failure "Failed to write to device")
                end
            end
        end
  end.

(** [write_point_value]: one point, addressed by the context's path. *)
Definition write_point_value (device_id : Z) (context_id : string)
    (point_id : string) (value : pyval) : M bool :=
  w <- get ;;
  match find (has_id device_id) (devices w) with
  | None => ret false
  | Some device =>
      if negb (Device.is_online device) then ret false
      else
        match find (DeviceDiscovery.is_context device_id context_id) (contexts w) with
        | None => ret false
        | Some context =>
            match find (in_context (Context.id context) point_id) (points w) with
            | None => ret false
            | Some point =>
                if negb (writable point) then ret false
                else
                  response <-
                    send_message E
                      (write_request (Device.ip_address device) (Device.port device)
                         context_id [(point_id, value)]) ;;
                  match response with
                  | Some (mk_response (Some body)) =>
                      if truthy (DeviceDiscovery.or_default (success body) (PyBool false))
                      then
                        now <- utcnow E ;;
                        modify (fun w => set_points
                                  (update_first (in_context (Context.id context) point_id)
                                     (DataPoint.set_value (Some (str value)) (Some now))
                                     (points w)) w) ;;;
                        add_event
                          (DeviceEvent.mk device_id "write"
                             ("Wrote value to " ++ context_id ++ "." ++ point_id)
                             (Some ("Value: " ++ str value))) ;;;
                        ret true
                      else ret false
                  | _ => ret false
                  end
            end
        end
  end.

End Service.
End DeviceManager.

(* ================================================================== *)
(** * context.py: [ContextDataHandler] *)
(* ================================================================== *)

Module ContextDataHandler.
Import Py Protocol.

(** [k in d] for a dictionary. *)
Definition has_key (k : string) (d : dict) : bool :=
  match dict_get k d with
  | Some _ => true
  | None => false
  end.

Definition filter_points_by_ids (points_data : dict)
    (point_ids : option (list string)) : dict :=
  match point_ids with
  | None => points_data
  | Some ids =>
      filter (fun item => existsb (String.eqb (fst item)) ids) points_data
  end.

(** [result = base_data.copy()], then the loop over [new_data.items()]. *)
Definition merge_points_data (base_data new_data : dict) (overwrite : bool)
  : dict :=
  fold_left
    (fun result item =>
       if overwrite || negb (has_key (fst item) result)
       then dict_set (fst item) (snd item) result
       else result)
    new_data base_data.

(** [access in ['W', 'RW']]. *)
Definition is_write_access (access : pyval) : bool :=
  match access with
  | PyStr a => String.eqb a "W" || String.eqb a "RW"
  | _ => false
  end.

(** [details.get('access', 'R')]. *)
Definition access_of (details : dict) : pyval :=
  match dict_get "access" details with
  | Some a => a
  | None => PyStr "R"
  end.

Definition extract_writable_points (points_data : list (string * dict)) : dict :=
  fold_left
    (fun writable_points item =>
       let access := access_of (snd item) in
       if is_write_access access
       then dict_set (fst item) access writable_points
       else writable_points)
    points_data [].

(** [transform_to_mcp_response]: the [error] key is added when the error
    is neither [None] nor empty. *)
Definition transform_to_mcp_response (context_id : string) (points_data : dict)
    (success : bool) (error : option string) : pyval :=
  let body :=
    [("version", PyStr "1.0"); ("context", PyStr context_id);
     ("success", PyBool success); ("points", PyDict points_data)] in
  PyDict
    [("mcp",
      PyDict
        (match error with
         | Some (String c e) => dict_set "error" (PyStr (String c e)) body
         | _ => body
         end))].

End ContextDataHandler.

(* ================================================================== *)
(** * Predicates on discovery rounds *)
(* ================================================================== *)

Module RoundInvariant.
Import World DeviceDiscovery.

(** What identifies a row of the device table. *)
Definition identity (d : Device.t) : Z * string := (Device.id d, Device.uuid d).

(** Every device whose uuid was discovered so far is online. *)
Definition discovered_online (acc : list device_data) (w : World.t) : Prop :=
  forall d, In d (devices w) ->
            In (Device.uuid d) (discovered_uuids acc) ->
            Device.is_online d = true.

(** While responses are processed the identities of the rows stay, rows
    are only added, distinct uuids stay distinct and discovered devices
    are online. *)
Definition round_keeps (acc acc' : list device_data) (w w' : World.t) : Prop :=
  (exists more, map identity (devices w') = (map identity (devices w) ++ more)%list)
  /\ (NoDup (map Device.uuid (devices w)) ->
      NoDup (map Device.uuid (devices w'))
      /\ (discovered_online acc w -> discovered_online acc' w')).

End RoundInvariant.

(* ================================================================== *)
(** * device.py: [read_device_context], and what a call leaves alone *)
(* ================================================================== *)

Module DeviceReads.
Import Py Protocol World DeviceManager.
Local Open Scope world_scope.

Section Service.
Variable E : env.

Definition read_device_context (device_id context_id : Z) : M result :=
  w <- get ;;
  match find (has_id device_id) (devices w) with
  | None => ret (failure "Device not found or offline")
  | Some device =>
      if negb (Device.is_online device)
      then ret (failure "Device not found or offline")
      else
        match find (fun c => Context.id c =? context_id) (contexts w) with
        | None => ret (failure "Context not found")
        | Some context => refresh_context E device context ;;; ret ok
        end
  end.

End Service.

(** The store of [w'] is that of [w]. *)
Definition store_unchanged (w w' : World.t) : Prop :=
  devices w' = devices w /\ contexts w' = contexts w
  /\ points w' = points w /\ events w' = events w.

(** The row [p'] is the row [p] but for its value and the time of its
    last update. *)
Definition same_but_value (p p' : DataPoint.t) : Prop :=
  p' = DataPoint.set_value (DataPoint.value p') (DataPoint.last_updated p') p.

(** The row [d'] is the row [d] but for its last-seen time. *)
Definition same_but_last_seen (d d' : Device.t) : Prop :=
  d' = Device.set_last_seen (Device.last_seen d') d.

(** What a refresh may do to a world: nothing to contexts and events, and
    to devices and points only what the two relations above allow. *)
Definition refreshed (w w' : World.t) : Prop :=
  contexts w' = contexts w /\ events w' = events w
  /\ Forall2 same_but_last_seen (devices w) (devices w')
  /\ Forall2 same_but_value (points w) (points w').

End DeviceReads.

(* ================================================================== *)
(** * The keys under which contexts and data points are registered *)
(* ================================================================== *)

Module RegistryKeys.
Import Py Protocol.

(** What [_process_context_points] looks a data point up by. *)
Definition point_key (p : DataPoint.t) : Z * string :=
  (DataPoint.context_id p, DataPoint.point_id p).

(** What [_process_device_contexts] looks a context up by. *)
Definition context_key (c : Context.t) : Z * string :=
  (Context.device_id c, Context.context_id c).

Definition is_dict (v : pyval) : bool :=
  match v with PyDict _ => true | _ => false end.

Definition known (ids : list string) (k : string) : bool :=
  existsb (String.eqb k) ids.

(** The point ids of a payload that name a point definition and are not
    among [existing]. *)
Definition new_point_ids (existing : list string) (points_data : dict)
  : list string :=
  map fst
    (filter (fun item => is_dict (snd item) && negb (known existing (fst item)))
       points_data).

(** The ids that a list of context descriptions carries (a missing or
    empty id is skipped), in order and with repetitions. *)
Definition incoming_context_ids (contexts_data : list context_info)
  : list string :=
  flat_map (fun info =>
              match Protocol.id info with
              | Some (String a s) => [String a s]
              | _ => []
              end) contexts_data.

Definition new_context_ids (existing : list string)
    (contexts_data : list context_info) : list string :=
  filter (fun k => negb (known existing k)) (incoming_context_ids contexts_data).

(** The point ids of a context's rows, and the context ids of a device's
    rows: the sets computed before the loops. *)
Definition point_ids_of (cid : Z) (pts : list DataPoint.t) : list string :=
  map DataPoint.point_id (filter (fun p => DataPoint.context_id p =? cid) pts).

Definition context_ids_of (did : Z) (cs : list Context.t) : list string :=
  map Context.context_id (filter (fun c => Context.device_id c =? did) cs).

Definition is_str (v : pyval) : bool :=
  match v with PyStr _ => true | _ => false end.

(** A context description that cannot be processed: it has an id, and
    under [type] a value that is not a string (null, a number, a list,
    ...), which has no [capitalize], or under [points] a value that is not
    a dictionary, which has no [items]. *)
Definition ill_typed (info : context_info) : bool :=
  match Protocol.id info with
  | Some (String _ _) =>
      match type info with
      | Some v => negb (is_str v)
      | None => false
      end
      || match cpoints info with
         | Some v => negb (is_dict v)
         | None => false
         end
  | _ => false
  end.

End RegistryKeys.

(* ================================================================== *)
(** * simulator.py: the request handlers of [DeviceSimulator], and the
      branch of [send_message] that calls them *)
(* ================================================================== *)

Module Simulator.
Import Py Protocol.

(** A simulated context and a simulated device, with the keys that the
    handlers read.  A point is the dictionary the simulator keeps for it
    ([name], [type], [unit], [access], [value], ...). *)
Record sim_context := mk_context {
  id : string;
  type : string;
  description : option string;
  modelId : option Z;
  modelName : option string;
  points : list (string * dict)
}.

Record sim_device := mk_device {
  uuid : string;
  name : string;
  model : string;
  manufacturer : option string;
  firmware_version : option string;
  protocol_version : option string;
  contexts : list sim_context
}.

(** [self.devices]. *)
Definition t := list sim_device.

(** The dictionaries returned by the handlers: [success] with the data, or
    the error message. *)
Inductive result (A : Type) :=
| Success (a : A)
| Failure (error : string).
Arguments Success {A} a.
Arguments Failure {A} error.

(** A handler returns, or a subscript raises [KeyError]. *)
Inductive raised (A : Type) :=
| Returns (a : A)
| KeyError (key : string).
Arguments Returns {A} a.
Arguments KeyError {A} key.

Definition has_uuid (u : string) (d : sim_device) : bool := String.eqb (uuid d) u.
Definition has_id (c : string) (x : sim_context) : bool := String.eqb (id x) c.

Definition get_device_by_uuid (sim : t) (u : string) : option sim_device :=
  find (has_uuid u) sim.

(** [next((c for c in device['contexts'] if c['id'] == context_id), None)]. *)
Definition find_context (d : sim_device) (context_id : string)
  : option sim_context :=
  find (has_id context_id) (contexts d).

(** [d[k] = v] on a dictionary of points. *)
Fixpoint assoc_set {A} (k : string) (v : A) (d : list (string * A))
  : list (string * A) :=
  match d with
  | [] => [(k, v)]
  | (k', v') :: d' =>
      if String.eqb k k' then (k, v) :: d' else (k', v') :: assoc_set k v d'
  end.

Definition device_not_found (device_uuid : string) : string :=
  "Device with UUID " ++ device_uuid ++ " not found".

Definition context_not_found (context_id device_uuid : string) : string :=
  "Context with ID " ++ context_id ++ " not found in device " ++ device_uuid.

(** The loop over [point_ids]. *)
Fixpoint read_points (pts : list (string * dict)) (point_ids : list string)
    (points_data : dict) : raised dict :=
  match point_ids with
  | [] => Returns points_data
  | point_id :: rest =>
      match SunSpecModels.lookup point_id pts with
      | Some point =>
          match dict_get "value" point with
          | Some v => read_points pts rest (dict_set point_id v points_data)
          | None => KeyError "value"
          end
      | None => read_points pts rest points_data
      end
  end.

(** The loop over [context['points'].items()]. *)
Fixpoint read_all (pts : list (string * dict)) (points_data : dict)
  : raised dict :=
  match pts with
  | [] => Returns points_data
  | (point_id, point_info) :: rest =>
      match dict_get "value" point_info with
      | Some v => read_all rest (dict_set point_id v points_data)
      | None => KeyError "value"
      end
  end.

Definition handle_read_request (sim : t) (device_uuid context_id : string)
    (point_ids : option (list string)) : raised (result dict) :=
  match get_device_by_uuid sim device_uuid with
  | None => Returns (Failure (device_not_found device_uuid))
  | Some device =>
      match find_context device context_id with
      | None => Returns (Failure (context_not_found context_id device_uuid))
      | Some context =>
          match
            match point_ids with
            | Some (p :: ps) => read_points (points context) (p :: ps) []
            | _ => read_all (points context) []
            end
          with
          | Returns points_data => Returns (Success points_data)
          | KeyError k => KeyError k
          end
      end
  end.

(** [point.get('access') in ['W', 'RW']]. *)
Definition writable (point : dict) : bool :=
  match dict_get "access" point with
  | Some (PyStr a) => String.eqb a "W" || String.eqb a "RW"
  | _ => false
  end.

Definition not_writable (point_id : string) (point : dict) : string :=
  "Point " ++ point_id ++ " is not writable (access: "
    ++ str (DeviceDiscovery.or_default (dict_get "access" point) PyNone) ++ ")".

Definition point_not_found (point_id context_id : string) : string :=
  "Point " ++ point_id ++ " not found in context " ++ context_id.

(** The loop of [handle_write_request]: the points of the context are
    written as the loop goes, and a point that is missing or not writable
    ends it with what has been written so far in place. *)
Fixpoint write_points (context_id : string) (pts : list (string * dict))
    (points_data : dict) (updated_points : dict)
  : result dict * list (string * dict) :=
  match points_data with
  | [] => (Success updated_points, pts)
  | (point_id, value) :: rest =>
      match SunSpecModels.lookup point_id pts with
      | Some point =>
          if writable point then
            write_points context_id
              (assoc_set point_id (dict_set "value" value point) pts) rest
              (dict_set point_id value updated_points)
          else (Failure (not_writable point_id point), pts)
      | None => (Failure (point_not_found point_id context_id), pts)
      end
  end.

Definition set_points (pts : list (string * dict)) (c : sim_context)
  : sim_context :=
  mk_context (id c) (type c) (description c) (modelId c) (modelName c) pts.

Definition set_contexts (cs : list sim_context) (d : sim_device) : sim_device :=
  mk_device (uuid d) (name d) (model d) (manufacturer d) (firmware_version d)
    (protocol_version d) cs.

(** The points of the context found are those of the first context with
    that id of the first device with that uuid. *)
Definition store (sim : t) (device_uuid context_id : string)
    (pts : list (string * dict)) : t :=
  World.update_first (has_uuid device_uuid)
    (fun d => set_contexts
                (World.update_first (has_id context_id) (set_points pts)
                   (contexts d)) d)
    sim.

Definition handle_write_request (sim : t) (device_uuid context_id : string)
    (points_data : dict) : result dict * t :=
  match get_device_by_uuid sim device_uuid with
  | None => (Failure (device_not_found device_uuid), sim)
  | Some device =>
      match find_context device context_id with
      | None => (Failure (context_not_found context_id device_uuid), sim)
      | Some context =>
          let (outcome, pts) :=
            write_points context_id (points context) points_data [] in
          (outcome, store sim device_uuid context_id pts)
      end
  end.

(** ** The simulation branch of [send_message]

    It is taken for the address 127.0.0.1 when a simulator exists; the
    address and the port are not read again. *)

(** The answer to a [contexts] message: the contexts of the first
    device, without their points. *)
Definition describe (c : sim_context) : context_info :=
  mk_context_info (Some (id c)) (Some (PyStr (type c))) (modelId c) (modelName c)
    (Some (DeviceDiscovery.or_default (description c) "")) None.

Definition contexts_answer (sim : t) : option response :=
  match sim with
  | device :: _ =>
      Some (mk_response
              (Some (mk_mcp (Some (map describe (contexts device))) None None None)))
  | [] => None
  end.

(** The (device, context) pairs visited by the loops over
    [simulator.get_devices()] for a context path: the uuid of the device,
    once for each of its contexts with that id. *)
Definition candidates (sim : t) (context_path : string) : list string :=
  flat_map (fun d => map (fun _ => uuid d)
                       (filter (has_id context_path) (contexts d))) sim.

Definition points_answer (points_data : dict) : response :=
  mk_response (Some (mk_mcp None (Some points_data) (Some (PyBool true)) None)).

Fixpoint try_read (sim : t) (uuids : list string) (context_path : string)
  : raised (option response) :=
  match uuids with
  | [] => Returns None
  | u :: rest =>
      match handle_read_request sim u context_path None with
      | KeyError k => KeyError k
      | Returns (Success data) => Returns (Some (points_answer data))
      | Returns (Failure _) => try_read sim rest context_path
      end
  end.

Fixpoint try_write (sim : t) (uuids : list string) (context_path : string)
    (pts : dict) : option response * t :=
  match uuids with
  | [] => (None, sim)
  | u :: rest =>
      match handle_write_request sim u context_path pts with
      | (Success updated_points, sim') => (Some (points_answer updated_points), sim')
      | (Failure _, sim') => try_write sim' rest context_path pts
      end
  end.

Definition send_message (sim : t) (message : request)
  : raised (option response) * t :=
  match message with
  | contexts_request _ _ => (Returns (contexts_answer sim), sim)
  | read_request _ _ context_path =>
      (try_read sim (candidates sim context_path) context_path, sim)
  | write_request _ _ context_path pts =>
      let (response, sim') :=
        try_write sim (candidates sim context_path) context_path pts in
      (Returns response, sim')
  end.

(** ** The simulation branch of [broadcast_discovery]

    One response for each of [simulated_devices], the list read after the
    devices have been created if there were none; every one carries the
    same sender. *)
Definition device_info_of (d : sim_device) : device_info :=
  mk_device_info (Some (uuid d)) (Some (name d)) (Some (model d))
    (Some (DeviceDiscovery.or_default (manufacturer d) "MCPHub Simulator"))
    (Some (DeviceDiscovery.or_default (firmware_version d) "1.0.0"))
    (Some (DeviceDiscovery.or_default (protocol_version d) "1.0"))
    None.

Definition discovery_answer (d : sim_device) : discovery_response :=
  mk_discovery_response (Some (device_info_of d)) (Some "127.0.0.1") (Some 47808).

Definition broadcast_discovery (simulated_devices : t)
  : list discovery_response :=
  map discovery_answer simulated_devices.

(** The environments in which the devices at 127.0.0.1 are the simulated
    ones: a [contexts] message sent there is answered as the simulator
    answers it. *)
Definition simulated (sim : t) (E : World.env) : Prop :=
  forall n port,
    World.net E n (contexts_request "127.0.0.1" port) = contexts_answer sim.

End Simulator.

(* ================================================================== *)
(** * protocol.py: the length-prefixed exchange of [send_message] *)
(* ================================================================== *)

Module Framing.

Definition bytes := list Byte.byte.

Definition byte_of_N (n : N) : Byte.byte :=
  match Byte.of_N n with
  | Some b => b
  | None => Byte.x00
  end.

(** [n.to_bytes(4, byteorder='big')]; [None] is [OverflowError]. *)
Definition to_bytes4 (n : N) : option bytes :=
  if (n <? 2 ^ 32)%N then
    Some [byte_of_N (n / 2 ^ 24); byte_of_N ((n / 2 ^ 16) mod 256);
          byte_of_N ((n / 2 ^ 8) mod 256); byte_of_N (n mod 256)]
  else None.

(** [int.from_bytes(b, byteorder='big')]. *)
Definition from_bytes (b : bytes) : N :=
  fold_left (fun acc x => (acc * 256 + Byte.to_N x)%N) b 0%N.

(** [message_length + message_bytes], what [sendall] is given. *)
Definition frame (message_bytes : bytes) : option bytes :=
  match to_bytes4 (N.of_nat (List.length message_bytes)) with
  | Some message_length => Some (message_length ++ message_bytes)%list
  | None => None
  end.

(** The receiving side of a connection: the data in the pieces in which
    successive calls of [recv] can get it, and what happens once it is
    used up (the peer has closed, or nothing comes and the call times
    out). *)
Inductive ending := Closed | Silent.

Record socket := mk_socket {
  pending : list bytes;
  at_end : ending
}.

(** [sock.recv(bufsize)] returns, or raises [socket.timeout]. *)
Inductive received :=
| Chunk (data : bytes) (s : socket)
| Timeout.

(** At most [bufsize] bytes of the first piece that is not empty. *)
Fixpoint recv_pending (bufsize : nat) (pieces : list bytes)
  : option (bytes * list bytes) :=
  match pieces with
  | [] => None
  | [] :: rest => recv_pending bufsize rest
  | piece :: rest =>
      if (List.length piece <=? bufsize)%nat then Some (piece, rest)
      else Some (firstn bufsize piece, skipn bufsize piece :: rest)
  end.

Definition recv (bufsize : nat) (s : socket) : received :=
  match recv_pending bufsize (pending s) with
  | Some (data, rest) => Chunk data (mk_socket rest (at_end s))
  | None =>
      match at_end s with
      | Closed => Chunk [] (mk_socket [] Closed)
      | Silent => Timeout
      end
  end.

(** The loop [while bytes_received < response_length]. *)
Inductive loop_result :=
| Done (response_data : bytes) (s : socket)
| TimedOut
| OutOfFuel.

Fixpoint receive_body (fuel : nat) (response_length : nat)
    (response_data : bytes) (bytes_received : nat) (s : socket) : loop_result :=
  if (bytes_received <? response_length)%nat then
    match fuel with
    | O => OutOfFuel
    | S fuel' =>
        match recv (Nat.min 4096 (response_length - bytes_received)) s with
        | Timeout => TimedOut
        | Chunk [] s' => Done response_data s'
        | Chunk chunk s' =>
            receive_body fuel' response_length (response_data ++ chunk)%list
              (bytes_received + List.length chunk) s'
        end
    end
  else Done response_data s.

(** The receiving half of [send_message]: the bytes handed to
    [json.loads], or [None] when the function returns [None] before. *)
Definition receive_response (s : socket) : option bytes :=
  match recv 4 s with
  | Timeout => None
  | Chunk response_length_bytes s1 =>
      if (List.length response_length_bytes <? 4)%nat then None
      else
        let response_length := N.to_nat (from_bytes response_length_bytes) in
        match receive_body response_length response_length [] 0 s1 with
        | Done [] _ => None
        | Done response_data _ => Some response_data
        | TimedOut => None
        | OutOfFuel => None
        end
  end.

End Framing.

(* ================================================================== *)
(** * The resolved set of a write request, as the specification words it *)
(* ================================================================== *)

Module WriteResolution.
Import Py Protocol.

(** A requested point resolves when the context has a row for it and the
    row (the first, if there are several) has an access mode including
    W. *)
Definition resolves (pts : list DataPoint.t) (cid : Z) (point_id : string)
  : bool :=
  match find (DeviceManager.in_context cid point_id) pts with
  | Some point => DeviceManager.writable point
  | None => false
  end.

(** The requested points that resolve, each with the value requested for
    it, in the order of the request. *)
Definition resolved_set (pts : list DataPoint.t) (cid : Z) (points_data : dict)
  : dict :=
  filter (fun item => resolves pts cid (fst item)) points_data.

End WriteResolution.

(* ================================================================== *)
(** * Predicates on worlds used by the properties *)
(* ================================================================== *)

Module Invariant.
Import World DeviceDiscovery.

(** What survives of a row: its place, its context and point id, its value
    and the time of its last update. *)
Definition kept (i : nat) (p : DataPoint.t) (w : World.t) : Prop :=
  exists p', nth_error (points w) i = Some p'
             /\ DataPoint.context_id p' = DataPoint.context_id p
             /\ DataPoint.point_id p' = DataPoint.point_id p
             /\ DataPoint.value p' = DataPoint.value p
             /\ DataPoint.last_updated p' = DataPoint.last_updated p.

(** The devices and the events of a world. *)
Definition same_registry (w0 w : World.t) : Prop :=
  devices w = devices w0 /\ events w = events w0.

(** How the list of discovered devices and the world move while responses
    are processed: the list grows; the ids stay distinct; only discovery
    events are appended; the row of a device whose uuid is not discovered
    stays as it is. *)
Definition round_step (acc acc' : list device_data) (w w' : World.t) : Prop :=
  incl (discovered_uuids acc) (discovered_uuids acc')
  /\ (NoDup (map Device.id (devices w)) -> NoDup (map Device.id (devices w')))
  /\ (exists evs, events w' = (events w ++ evs)%list
                  /\ Forall (fun e => DeviceEvent.event_type e = "discovery") evs)
  /\ (forall i d, nth_error (devices w) i = Some d ->
                  ~ In (Device.uuid d) (discovered_uuids acc') ->
                  nth_error (devices w') i = Some d).

End Invariant.

(* ================================================================== *)
(** * A small installation, used to run the services *)
(* ================================================================== *)

Module Demo.
Import Py Protocol.

Definition inverter : Device.t :=
  Device.mk 1 "uuid-inverter" "Inverter" (Some "SIM-INV") None None (Some "1.0")
    "10.0.0.1" 47808 true 100.

Definition battery : Device.t :=
  Device.mk 2 "uuid-battery" "Battery" (Some "SIM-BAT") None None (Some "1.0")
    "10.0.0.2" 47808 true 100.

Definition storage : Context.t :=
  Context.mk 1 2 "storage1" "storage" (Some 124) (Some "Storage") "Storage context".

Definition max_charge : DataPoint.t :=
  DataPoint.mk 1 "WChaMax" (PyStr "Max Charge Rate") (PyStr "float") (PyStr "W")
    (PyStr "RW") PyNone (Some "100") (Some 5).

Definition power : DataPoint.t :=
  DataPoint.mk 1 "W" (PyStr "Power") (PyStr "float") (PyStr "W")
    (PyStr "R") PyNone (Some "7") (Some 5).

Definition world : World.t :=
  World.mk [inverter; battery] [storage] [max_charge; power] [] 0 [].

(** A device that accepts every write and acknowledges no point, and
    answers nothing else; the clock reads 500, 501, ... *)
Definition acknowledges_nothing : response :=
  mk_response (Some (mk_mcp None (Some []) (Some (PyBool true)) None)).

Definition env : World.env :=
  World.mk_env
    (fun n => 500 + Z.of_nat n)
    (fun _ r =>
       match r with
       | write_request _ _ _ _ => Some acknowledges_nothing
       | _ => None
       end).

(** The discovery response of the inverter. *)
Definition inverter_response : discovery_response :=
  mk_discovery_response
    (Some (mk_device_info (Some "uuid-inverter") (Some "Inverter")
             (Some "SIM-INV") None None (Some "1.0") None))
    (Some "10.0.0.1") (Some 47808).

End Demo.

(* ================================================================== *)
(** * A device that answers reads *)
(* ================================================================== *)

Module ReadingDemo.
Import Py Protocol.

(** The battery reports its power as the integer 7, which is what is
    stored, a new charge limit, and no value for a point it does not
    measure. *)
Definition reading : dict :=
  [("W", PyInt 7); ("WChaMax", PyInt 250); ("SoC", PyNone)].

Definition env : World.env :=
  World.mk_env
    (fun n => 500 + Z.of_nat n)
    (fun _ r =>
       match r with
       | read_request _ _ _ =>
           Some (mk_response (Some (mk_mcp None (Some reading) None None)))
       | _ => None
       end).

End ReadingDemo.

(* ================================================================== *)
(** * Two simulated devices *)
(* ================================================================== *)

Module SimulatorDemo.
Import Py Protocol Simulator.

Definition pac (v : pyval) : dict :=
  [("name", PyStr "AC Power"); ("type", PyStr "float"); ("unit", PyStr "W");
   ("access", PyStr "R"); ("value", v)].

Definition setting (label : string) (v : pyval) : dict :=
  [("name", PyStr label); ("type", PyStr "float"); ("access", PyStr "RW");
   ("value", v)].

Definition device_context (v : pyval) : sim_context :=
  mk_context "device" "component" (Some "Device-level parameters") (Some 1)
    (Some "Common Model") [("Pac", pac v)].

Definition control (v : pyval) : sim_context :=
  mk_context "control" "control" (Some "Control parameters") None None
    [("PowerLimit", setting "Power Limit" v);
     ("Mode", setting "Operating Mode" (PyInt 0));
     ("Pac", pac (PyInt 0))].

Definition huawei : sim_device :=
  mk_device "1" "Huawei SUN2000" "SUN2000-40KTL-M3" (Some "Huawei")
    (Some "V100R001D02") (Some "1.0")
    [device_context (PyInt 20000); control (PyInt 100)].

Definition second : sim_device :=
  mk_device "sim-2" "Simulated-DER-1" "SIM-INV-1K" None None None
    [device_context (PyInt 5); control (PyInt 50)].

Definition devices : Simulator.t := [huawei; second].

(** The network of the simulation: the clock reads 500, 501, ... *)
Definition env : World.env :=
  World.mk_env
    (fun n => 500 + Z.of_nat n)
    (fun _ r =>
       match r with
       | contexts_request _ _ => contexts_answer devices
       | _ => None
       end).

End SimulatorDemo.

(* ================================================================== *)
(** * Facts about strings and the built-ins *)
(* ================================================================== *)

Section StringFacts.
Import Py.

Lemma append_nil_r (s : string) : s ++ "" = s.
Proof. induction s as [|c s IH]; simpl; [reflexivity | now rewrite IH]. Qed.

Lemma append_assoc (a b c : string) : (a ++ b) ++ c = a ++ b ++ c.
Proof. induction a as [|x a IH]; simpl; [reflexivity | now rewrite IH]. Qed.

Lemma str_exists_cons p c s :
  str_exists p (String c s) = p c || str_exists p s.
Proof.
  unfold str_exists; simpl. now rewrite negb_andb, negb_involutive.
Qed.

Lemma str_exists_false_filter p s :
  str_exists p s = false -> str_filter p s = "".
Proof.
  induction s as [|c s IH]; intros H; [reflexivity|].
  rewrite str_exists_cons in H. apply orb_false_iff in H as [Hc Hs].
  simpl. rewrite Hc. now apply IH.
Qed.

Lemma str_forall_filter p s : str_forall p (str_filter p s) = true.
Proof.
  induction s as [|c s IH]; [reflexivity|]. simpl.
  destruct (p c) eqn:Hc; simpl; [now rewrite Hc|assumption].
Qed.

Lemma str_forall_impl (p q : ascii -> bool) s :
  (forall c, p c = true -> q c = true) ->
  str_forall p s = true -> str_forall q s = true.
Proof.
  intros Hpq. induction s as [|c s IH]; simpl; [reflexivity|].
  intros H. apply andb_true_iff in H as [Hc Hs].
  now rewrite (Hpq _ Hc), IH.
Qed.

Lemma str_rev_onto_twice s : forall a b,
  str_rev_onto (str_rev_onto s a) b = str_rev_onto a (s ++ b).
Proof.
  induction s as [|c s IH]; intros a b; simpl; [reflexivity|].
  now rewrite IH.
Qed.

Lemma str_rev_involutive s : str_rev (str_rev s) = s.
Proof.
  unfold str_rev. rewrite str_rev_onto_twice. simpl. apply append_nil_r.
Qed.

Lemma str_forall_rev_onto p s : forall a,
  str_forall p (str_rev_onto s a) = str_forall p s && str_forall p a.
Proof.
  induction s as [|c s IH]; intros a; simpl; [reflexivity|].
  rewrite IH. simpl. now rewrite andb_assoc, (andb_comm (str_forall p s)).
Qed.

Lemma str_forall_rev p s : str_forall p (str_rev s) = str_forall p s.
Proof.
  unfold str_rev. rewrite str_forall_rev_onto. simpl. apply andb_true_r.
Qed.

Lemma lstrip_none p s :
  str_forall (fun c => negb (p c)) s = true -> lstrip p s = s.
Proof.
  destruct s as [|c s]; simpl; [reflexivity|].
  intros H. apply andb_true_iff in H as [Hc _].
  apply negb_true_iff in Hc. now rewrite Hc.
Qed.

Lemma strip_none p s :
  str_forall (fun c => negb (p c)) s = true -> strip p s = s.
Proof.
  intros H. unfold strip. rewrite (lstrip_none p s H).
  rewrite lstrip_none by now rewrite str_forall_rev.
  apply str_rev_involutive.
Qed.

(** ** Digits and [int] *)

Lemma isdecimal_isdigit c : isdecimal c = true -> isdigit c = true.
Proof. unfold isdigit. now intros ->. Qed.

Lemma isdigit_not_space c : isdigit c = true -> negb (isnumspace c) = true.
Proof.
  destruct c as [[] [] [] [] [] [] [] []]; intros H; vm_compute in H |- *;
    congruence.
Qed.

Lemma isdigit_not_sign c s :
  isdigit c = true -> split_sign (String c s) = (false, String c s).
Proof.
  destruct c as [[] [] [] [] [] [] [] []]; intros H; vm_compute in H;
    try discriminate H; reflexivity.
Qed.

Lemma isdigit_not_underscore c :
  isdigit c = true -> Ascii.eqb c "_" = false.
Proof.
  destruct c as [[] [] [] [] [] [] [] []]; intros H; vm_compute in H |- *;
    congruence.
Qed.

Lemma strip_digits s : str_forall isdigit s = true -> strip isnumspace s = s.
Proof.
  intros H. apply strip_none.
  revert H. apply str_forall_impl, isdigit_not_space.
Qed.

Lemma digits_go_decimal s : forall acc n,
  str_forall isdecimal s = true ->
  exists k, digits_go acc n s = Some (ContextPathParser.dec_value_from acc s, k).
Proof.
  induction s as [|c s IH]; intros acc n H; simpl.
  - now exists n.
  - simpl in H. apply andb_true_iff in H as [Hc Hs]. rewrite Hc.
    now apply IH.
Qed.

Lemma digits_go_superscript s : forall acc n,
  str_forall isdigit s = true -> str_forall isdecimal s = false ->
  digits_go acc n s = None.
Proof.
  induction s as [|c s IH]; intros acc n Hd Hn; simpl in *; [discriminate|].
  apply andb_true_iff in Hd as [Hc Hs].
  destruct (isdecimal c) eqn:Hdec.
  - apply IH; assumption.
  - now rewrite (isdigit_not_underscore c Hc).
Qed.

(** [int] on a non-empty string of digits: its decimal value, or
    [ValueError] when one of the digits is a superscript. *)
Lemma int_of_digits s :
  s <> "" -> str_forall isdigit s = true ->
  int (PyStr s) =
    match ContextPathParser.decimal_int s with
    | Some n => Ret n
    | None => Raise ValueError
    end.
Proof.
  intros Hne Hd. simpl. unfold int_of_str. rewrite (strip_digits s Hd).
  destruct s as [|c s]; [congruence|].
  pose proof Hd as Hd'. simpl in Hd'. apply andb_true_iff in Hd' as [Hc Hs].
  rewrite (isdigit_not_sign c s Hc).
  unfold ContextPathParser.decimal_int, digits_of. simpl str_forall.
  destruct (isdecimal c) eqn:Hdec; simpl.
  - destruct (str_forall isdecimal s) eqn:Hall.
    + destruct (digits_go_decimal s (digit_val c) 1%nat Hall) as [k ->].
      reflexivity.
    + now rewrite (digits_go_superscript s _ _ Hs Hall).
  - reflexivity.
Qed.

(** ** [split] and [join] *)

Lemma split_at_no_dot s :
  ContextPathParser.no_dot s = true -> split_at "." s = (s, []).
Proof.
  induction s as [|c s IH]; simpl; [reflexivity|].
  unfold ContextPathParser.no_dot in *. simpl. intros H.
  apply andb_true_iff in H as [Hc Hs]. apply negb_true_iff in Hc.
  now rewrite (IH Hs), Hc.
Qed.

Lemma split_at_app x s :
  ContextPathParser.no_dot x = true ->
  split_at "." (x ++ String "." s) =
    (x, fst (split_at "." s) :: snd (split_at "." s)).
Proof.
  induction x as [|c x IH]; simpl.
  - intros _. now destruct (split_at "." s).
  - unfold ContextPathParser.no_dot in *. simpl. intros H.
    apply andb_true_iff in H as [Hc Hx]. apply negb_true_iff in Hc.
    now rewrite (IH Hx), Hc.
Qed.

Lemma split_join x xs :
  ContextPathParser.no_dot x = true ->
  Forall (fun y => ContextPathParser.no_dot y = true) xs ->
  split "." (join "." (x :: xs)) = x :: xs.
Proof.
  revert x. induction xs as [|y ys IH]; intros x Hx Hxs.
  - unfold split, join. simpl. now rewrite split_at_no_dot.
  - inversion Hxs as [|? ? Hy Hys]; subst.
    specialize (IH y Hy Hys). unfold split, join in *.
    change (concat "." (x :: y :: ys)) with (x ++ String "." (concat "." (y :: ys))).
    rewrite (split_at_app x _ Hx).
    destruct (split_at "." (concat "." (y :: ys))) as [h t]. simpl.
    now rewrite IH.
Qed.

Lemma join_split p : join "." (split "." p) = p.
Proof.
  unfold split, join. induction p as [|c p IH]; [reflexivity|].
  simpl. destruct (split_at "." p) as [h t].
  destruct (Ascii.eqb c ".") eqn:Hc.
  - apply Ascii.eqb_eq in Hc. subst c.
    change (concat "." ("" :: h :: t)) with (String "." (concat "." (h :: t))).
    now rewrite IH.
  - destruct t as [|y t]; simpl in *; now rewrite <- IH.
Qed.

Lemma split_cons s :
  split "." s =
    ContextPathParser.first_segment s :: snd (split_at "." s).
Proof.
  unfold split, ContextPathParser.first_segment.
  now destruct (split_at "." s).
Qed.

(** ** Runs *)

Lemma filter_all_leading p s :
  ContextPathParser.all_leading p s = true ->
  str_filter p s = ContextPathParser.take_while p s.
Proof.
  unfold ContextPathParser.all_leading.
  induction s as [|c s IH]; simpl; [reflexivity|].
  destruct (p c) eqn:Hc.
  - intros H. now rewrite IH.
  - rewrite str_exists_cons, Hc. simpl. intros H.
    apply negb_true_iff in H. now apply str_exists_false_filter.
Qed.

Lemma filter_one_run p s :
  ContextPathParser.one_run p s = true ->
  str_filter p s = ContextPathParser.first_run p s.
Proof.
  unfold ContextPathParser.one_run, ContextPathParser.first_run.
  induction s as [|c s IH]; [reflexivity|].
  simpl ContextPathParser.drop_while.
  destruct (p c) eqn:Hc; simpl negb; cbv iota.
  - intros H. now apply filter_all_leading.
  - intros H. simpl. rewrite Hc. now apply IH.
Qed.

Lemma plain_digits_filter s :
  ContextPathParser.plain_digits s = true ->
  str_forall isdecimal (str_filter isdigit s) = true.
Proof.
  unfold ContextPathParser.plain_digits.
  induction s as [|c s IH]; simpl; [reflexivity|].
  intros H. apply andb_true_iff in H as [Hc Hs].
  destruct (isdigit c) eqn:Hd; simpl in *; [|now apply IH].
  now rewrite Hc, IH.
Qed.

Lemma plain_digits_all s :
  ContextPathParser.plain_digits s = true ->
  str_forall isdigit s = true -> str_forall isdecimal s = true.
Proof.
  unfold ContextPathParser.plain_digits.
  induction s as [|c s IH]; simpl; [reflexivity|].
  intros H Hd. apply andb_true_iff in H as [Hc Hs].
  apply andb_true_iff in Hd as [Hdc Hds]. rewrite Hdc in Hc. simpl in Hc.
  now rewrite Hc, IH.
Qed.

End StringFacts.

(* ================================================================== *)
(** * Context path addressing *)
(* ================================================================== *)

Section ContextPathFacts.
Import Py ContextPathParser.

Lemma rejected_nonempty c s : rejected (PyStr (String c s)) = false.
Proof. reflexivity. Qed.

Lemma rejected_str s : s <> "" -> rejected (PyStr s) = false.
Proof. destruct s; [congruence | reflexivity]. Qed.

Lemma parse_single_segment s :
  no_dot s = true -> parse_context_path (PyStr s) = (s, None).
Proof.
  intros H. destruct s as [|c s]; [reflexivity|].
  unfold parse_context_path. rewrite rejected_nonempty. cbn [text].
  unfold split. now rewrite (split_at_no_dot _ H).
Qed.

(** C10. For the empty string and for any input that is not a string,
    [parse_context_path] returns the pair of the empty string and [None]
    instead of failing; for a string without a dot it returns the whole
    string paired with [None]. *)
Theorem parse_context_path_degenerate :
  (forall v, v = PyStr "" \/ isinstance_str v = false ->
             parse_context_path v = ("", None))
  /\ (forall s, no_dot s = true -> parse_context_path (PyStr s) = (s, None)).
Proof.
  split.
  - intros v [-> | H]; [reflexivity|].
    unfold parse_context_path, rejected. rewrite H.
    now rewrite orb_true_r.
  - exact parse_single_segment.
Qed.

Lemma parse_context_path_degenerate_witness :
  parse_context_path (PyInt 7) = ("", None)
  /\ parse_context_path (PyStr "inverter1") = ("inverter1", None).
Proof.
  split.
  - apply (proj1 parse_context_path_degenerate). right. reflexivity.
  - apply (proj2 parse_context_path_degenerate). reflexivity.
Defined.

(** C5, as stated, fails: built from an empty list of parts the path parses
    back to [None], not to the empty list; and a part holding a dot comes
    back as two parts. *)
Lemma parse_build_not_inverse :
  parse_context_path (PyStr (build_context_path "mppt" (Some [])))
    <> ("mppt", Some [])
  /\ parse_context_path (PyStr (build_context_path "mppt" (Some ["3.1"])))
       <> ("mppt", Some ["3.1"]).
Proof. split; vm_compute; discriminate. Qed.

Lemma build_is_join context_id y ys :
  build_context_path context_id (Some (y :: ys)) = join "." (context_id :: y :: ys).
Proof. reflexivity. Qed.

(** C5, amended. For a context id and a non-empty list of parts, none of
    them holding a dot, parsing the built path gives back the id and the
    parts; with no parts ([None]) it gives back the id and [None]; and
    building from the parse of any path gives the path back, in particular
    for a path of a single non-empty segment. *)
Theorem parse_build_roundtrip :
  (forall context_id parts,
      no_dot context_id = true ->
      Forall (fun y => no_dot y = true) parts ->
      parts <> [] ->
      parse_context_path (PyStr (build_context_path context_id (Some parts)))
        = (context_id, Some parts))
  /\ (forall context_id,
         no_dot context_id = true ->
         parse_context_path (PyStr (build_context_path context_id None))
           = (context_id, None))
  /\ (forall p,
         build_context_path (fst (parse_context_path (PyStr p)))
           (snd (parse_context_path (PyStr p))) = p).
Proof.
  split; [|split].
  - intros context_id parts Hid Hparts Hne.
    destruct parts as [|y ys]; [congruence|].
    rewrite build_is_join. unfold parse_context_path.
    rewrite rejected_str.
    + cbn [text]. rewrite (split_join context_id (y :: ys) Hid Hparts).
      reflexivity.
    + unfold join. simpl.
      destruct context_id; simpl; discriminate.
  - intros context_id Hid. simpl. now apply parse_single_segment.
  - intros p. destruct p as [|c p]; [reflexivity|].
    unfold parse_context_path. rewrite rejected_nonempty. cbn [text].
    pose proof (join_split (String c p)) as J.
    destruct (split "." (String c p)) as [|h [|y t]] eqn:Hs.
    + unfold split in Hs. destruct (split_at "." (String c p)); discriminate.
    + reflexivity.
    + simpl. exact J.
Qed.

Lemma parse_build_roundtrip_witness :
  parse_context_path (PyStr (build_context_path "mppt" (Some ["3"; "dc"])))
    = ("mppt", Some ["3"; "dc"])
  /\ parse_context_path (PyStr (build_context_path "mppt" None)) = ("mppt", None).
Proof.
  split.
  - apply (proj1 parse_build_roundtrip).
    + reflexivity.
    + repeat constructor.
    + discriminate.
  - apply (proj1 (proj2 parse_build_roundtrip)). reflexivity.
Defined.

(** C6, as stated, fails: the type is made of every alphabetic character
    of the first segment, not of the run at its start, and the index of
    every digit of the segment, not of its first run. *)
Lemma context_type_index_not_first_run :
  get_context_type (PyStr "ac1b") = "acb"
  /\ get_context_type (PyStr "ac1b") <> spec_get_type (PyStr "ac1b")
  /\ get_context_type (PyStr "1abc") = "abc"
  /\ get_context_type (PyStr "1abc") <> spec_get_type (PyStr "1abc")
  /\ get_context_index (PyStr "a1b2") = Ret (Some 12)
  /\ get_context_index (PyStr "a1b2") <> Ret (spec_get_index (PyStr "a1b2")).
Proof. repeat split; try reflexivity; vm_compute; discriminate. Qed.

Lemma get_context_index_str s :
  s <> "" ->
  get_context_index (PyStr s) =
    Ret (let d := str_filter isdigit (first_segment s) in
         if str_nonempty d then decimal_int d
         else match second_segment s with
              | Some part1 => if str_isdigit part1 then decimal_int part1 else None
              | None => None
              end).
Proof.
  intros Hne. unfold get_context_index. rewrite (rejected_str s Hne).
  cbn [text]. rewrite split_cons. unfold second_segment.
  set (d := str_filter isdigit (first_segment s)). cbv zeta.
  destruct (str_nonempty d) eqn:Hd.
  - rewrite int_of_digits.
    + now destruct (decimal_int d).
    + destruct d; [discriminate | congruence].
    + apply str_forall_filter.
  - destruct (snd (split_at "." s)) as [|part1 rest]; [reflexivity|].
    destruct (str_isdigit part1) eqn:Hp; [|reflexivity].
    rewrite int_of_digits.
    + now destruct (decimal_int part1).
    + destruct part1; [discriminate | congruence].
    + destruct part1; [discriminate | exact Hp].
Qed.

Lemma get_context_type_str s :
  s <> "" ->
  get_context_type (PyStr s) =
    (let a := str_filter isalpha (first_segment s) in
     if str_nonempty a then str_lower a else "unknown").
Proof.
  intros Hne. unfold get_context_type. rewrite (rejected_str s Hne).
  cbn [text]. now rewrite split_cons.
Qed.

(** C6, amended.  On invalid or empty input the type is "unknown" and the
    index none.  Otherwise the type is made of all the alphabetic characters
    of the first segment, lower-cased, "unknown" when there is none; it is
    the run at the start of the segment when every alphabetic character
    stands there.  The index is the number written by all the digits of the
    first segment; without any, by the second segment when that one is
    purely numeric; none otherwise, and none when a digit is not a decimal
    digit.  It is the first run of digits when the digits of the first
    segment form one run and no digit is a superscript.  The four examples
    of the specification hold. *)
Theorem context_type_index :
  (forall v, rejected v = true ->
             get_context_type v = "unknown" /\ get_context_index v = Ret None)
  /\ (forall s, s <> "" ->
        get_context_type (PyStr s) =
          (let a := str_filter isalpha (first_segment s) in
           if str_nonempty a then str_lower a else "unknown"))
  /\ (forall s, s <> "" -> all_leading isalpha (first_segment s) = true ->
        get_context_type (PyStr s) = spec_get_type (PyStr s))
  /\ (forall s, s <> "" ->
        get_context_index (PyStr s) =
          Ret (let d := str_filter isdigit (first_segment s) in
               if str_nonempty d then decimal_int d
               else match second_segment s with
                    | Some part1 =>
                        if str_isdigit part1 then decimal_int part1 else None
                    | None => None
                    end))
  /\ (forall s, s <> "" -> one_run isdigit (first_segment s) = true ->
        plain_digits s = true ->
        get_context_index (PyStr s) = Ret (spec_get_index (PyStr s)))
  /\ (get_context_type (PyStr "mppt.3") = "mppt"
      /\ get_context_index (PyStr "mppt.3") = Ret (Some 3)
      /\ get_context_type (PyStr "") = "unknown"
      /\ get_context_index (PyStr "") = Ret None).
Proof.
  split; [|split; [|split; [|split; [|split]]]].
  - intros v H. unfold get_context_type, get_context_index. now rewrite H.
  - exact get_context_type_str.
  - intros s Hne Hlead. rewrite (get_context_type_str s Hne).
    unfold spec_get_type. rewrite (rejected_str s Hne). cbn [text].
    cbv zeta. now rewrite (filter_all_leading _ _ Hlead).
  - exact get_context_index_str.
  - intros s Hne Hrun Hplain. rewrite (get_context_index_str s Hne).
    unfold spec_get_index. rewrite (rejected_str s Hne). cbn [text].
    rewrite split_cons. unfold second_segment. cbv zeta.
    assert (Hseg : plain_digits (first_segment s) = true
                   /\ forall part1 rest, snd (split_at "." s) = part1 :: rest ->
                                         plain_digits part1 = true).
    { clear Hne Hrun. unfold first_segment. revert Hplain.
      unfold plain_digits.
      induction s as [|c s IH]; simpl.
      - intros _. split; [reflexivity | discriminate].
      - intros H. apply andb_true_iff in H as [Hc Hs].
        specialize (IH Hs). destruct (split_at "." s) as [h t].
        destruct IH as [IH1 IH2]. simpl in IH1.
        destruct (Ascii.eqb c "."); simpl.
        + split; [reflexivity|]. intros part1 rest [= <- <-]. exact IH1.
        + split; [now rewrite Hc, IH1 | exact IH2]. }
    destruct Hseg as [Hp0 Hp1].
    rewrite <- (filter_one_run _ _ Hrun).
    unfold decimal_int. rewrite (plain_digits_filter _ Hp0).
    destruct (str_nonempty (str_filter isdigit (first_segment s))); [reflexivity|].
    destruct (snd (split_at "." s)) as [|part1 rest] eqn:Hsnd; [reflexivity|].
    destruct (str_isdigit part1) eqn:Hd; [|reflexivity].
    rewrite (plain_digits_all part1); [reflexivity | now apply (Hp1 part1 rest) |].
    destruct part1; [discriminate | exact Hd].
  - repeat split; reflexivity.
Qed.

Lemma context_type_index_witness :
  get_context_type (PyInt 3) = "unknown"
  /\ get_context_type (PyStr "phase2.b") = spec_get_type (PyStr "phase2.b")
  /\ get_context_index (PyStr "mppt12.4") = Ret (spec_get_index (PyStr "mppt12.4")).
Proof.
  split; [|split].
  - apply (proj1 context_type_index (PyInt 3)). reflexivity.
  - apply (proj1 (proj2 (proj2 context_type_index))); [discriminate | reflexivity].
  - apply (proj1 (proj2 (proj2 (proj2 (proj2 context_type_index)))));
      [discriminate | reflexivity | reflexivity].
Defined.

End ContextPathFacts.

(* ================================================================== *)
(** * Model registry *)
(* ================================================================== *)

Section ModelRegistryFacts.
Import Py SunSpecModels.

Lemma str_rev_onto_app a : forall b acc,
  str_rev_onto (a ++ b) acc = str_rev_onto b (str_rev_onto a acc).
Proof.
  induction a as [|c a IH]; intros b acc; simpl; [reflexivity | apply IH].
Qed.

Lemma digit_char_decimal d : 0 <= d < 10 -> isdecimal (digit_char d) = true.
Proof.
  intros H.
  assert (C : d = 0 \/ d = 1 \/ d = 2 \/ d = 3 \/ d = 4 \/ d = 5 \/ d = 6
              \/ d = 7 \/ d = 8 \/ d = 9) by lia.
  repeat (destruct C as [-> | C]; [reflexivity|]). now subst.
Qed.

Lemma ends_with_2f_intro pre a b :
  isdecimal a = true -> isdecimal b = true ->
  ends_with_2f (pre ++ "." ++ String a (String b "")) = true.
Proof.
  intros Ha Hb. unfold ends_with_2f, str_rev.
  rewrite str_rev_onto_app. simpl. now rewrite Ha, Hb.
Qed.

(** [f"{x:.2f}"] of a finite float ends with two fraction digits. *)
Lemma format_2f_two_digits f :
  is_finite f = true -> ends_with_2f (format_2f f) = true.
Proof.
  destruct f as [s | s | | s m e]; try discriminate; intros _.
  - destruct s; reflexivity.
  - unfold format_2f.
    set (n := round_half_even _ _).
    rewrite <- append_assoc.
    apply ends_with_2f_intro; apply digit_char_decimal.
    + pose proof (Z.mod_pos_bound n 100 ltac:(lia)) as B.
      split; [apply Z.div_pos; lia | apply Z.div_lt_upper_bound; lia].
    + apply Z.mod_pos_bound. lia.
Qed.

(** C9: the code lets an exception through.  [float] of an integer beyond
    the largest float raises [OverflowError], which the handler for
    [ValueError] and [TypeError] does not catch. *)
Theorem parse_value_overflow_escapes :
  parse_value 101 "W" (PyInt (10 ^ 400)) = Raise OverflowError
  /\ parse_value 160 "ID" (PyFloat (S754_infinity false)) = Raise OverflowError.
Proof. split; vm_compute; reflexivity. Qed.

(** What [parse_value] does guarantee: an unknown model or point
    gives the raw value back, and neither [ValueError] nor [TypeError]
    reaches the caller. *)
Lemma parse_value_handled model_id point_id value :
  (get_point_info model_id point_id = None ->
   parse_value model_id point_id value = Ret value)
  /\ parse_value model_id point_id value <> Raise ValueError
  /\ parse_value model_id point_id value <> Raise TypeError.
Proof.
  unfold parse_value.
  destruct (get_point_info model_id point_id) as [info|]; [|repeat split; congruence].
  split; [discriminate|].
  unfold try_except_value_type.
  split;
    match goal with
    | |- context [match ?b with _ => _ end] =>
        destruct b as [a | []]; discriminate
    end.
Qed.

(** C8, as stated, fails: on a float-typed point with a unit, a value that
    [float] rejects is rendered by its default string form, without
    fraction digits and without the unit; and an infinite value has no
    fraction digits. *)
Lemma format_value_not_always_2f :
  get_point_info 101 "W" = Some (pt "AC Power" "float" (Some "W") "AC Power" (Some "R"))
  /\ format_value 101 "W" (PyStr "abc") = Ret "abc"
  /\ renders_2f_with_unit "W" "abc" = false
  /\ format_value 101 "W" (PyFloat (S754_infinity false)) = Ret "inf W"
  /\ renders_2f_with_unit "W" "inf W" = false.
Proof. repeat split; vm_compute; reflexivity. Qed.

(** C8, amended.  [format_value] returns "N/A" for [None]; the default
    string form, without unit, for an unknown point; for a known
    float-typed point whose value [float] accepts, the [.2f] rendering,
    which has exactly two fraction digits when the float is finite,
    followed by the unit; the default string form without unit when [float]
    raises [ValueError] or [TypeError]; for a known point of another type
    the default string form followed by the unit.  The unit follows a
    single space, and only when the point declares one that is not empty.
    A float-typed point with value 0 and unit W gives 0.00 W. *)
Theorem format_value_cases :
  (forall model_id point_id, format_value model_id point_id PyNone = Ret "N/A")
  /\ (forall model_id point_id value,
         value <> PyNone -> get_point_info model_id point_id = None ->
         format_value model_id point_id value = Ret (str value))
  /\ (forall model_id point_id value info f,
         value <> PyNone -> get_point_info model_id point_id = Some info ->
         ptype info = "float" -> float value = Ret f ->
         format_value model_id point_id value
           = Ret (add_unit (format_2f f) (unit info))
         /\ (is_finite f = true -> ends_with_2f (format_2f f) = true))
  /\ (forall model_id point_id value info,
         value <> PyNone -> get_point_info model_id point_id = Some info ->
         ptype info = "float" ->
         float value = Raise ValueError \/ float value = Raise TypeError ->
         format_value model_id point_id value = Ret (str value))
  /\ (forall model_id point_id value info,
         value <> PyNone -> get_point_info model_id point_id = Some info ->
         ptype info <> "float" ->
         format_value model_id point_id value
           = Ret (add_unit (str value) (unit info)))
  /\ (forall formatted u, u <> "" -> add_unit formatted (Some u) = formatted ++ " " ++ u)
  /\ (forall formatted, add_unit formatted None = formatted
                        /\ add_unit formatted (Some "") = formatted)
  /\ format_value 101 "W" (PyInt 0) = Ret "0.00 W".
Proof.
  assert (Hnn : forall v, v <> PyNone -> is_none v = false)
    by (intros [] H; congruence || reflexivity).
  repeat match goal with |- _ /\ _ => split end.
  - reflexivity.
  - intros model_id point_id value Hv Hi. unfold format_value.
    now rewrite (Hnn _ Hv), Hi.
  - intros model_id point_id value info f Hv Hi Ht Hf. split.
    + unfold format_value. rewrite (Hnn _ Hv), Hi, Ht, Hf. reflexivity.
    + apply format_2f_two_digits.
  - intros model_id point_id value info Hv Hi Ht Hf. unfold format_value.
    rewrite (Hnn _ Hv), Hi, Ht. destruct Hf as [-> | ->]; reflexivity.
  - intros model_id point_id value info Hv Hi Ht. unfold format_value.
    rewrite (Hnn _ Hv), Hi.
    destruct (String.eqb (ptype info) "float") eqn:He;
      [apply String.eqb_eq in He; contradiction | reflexivity].
  - intros formatted [|c u] Hu; [congruence | reflexivity].
  - intros formatted. split; reflexivity.
  - vm_compute. reflexivity.
Qed.

Lemma format_value_cases_witness :
  format_value 7 "W" (PyInt 3) = Ret "3"
  /\ format_value 101 "Hz" (PyStr "49.985") = Ret "49.98 Hz"
  /\ format_value 124 "W" (PyList []) = Ret "[]"
  /\ format_value 160 "ID" (PyInt 2) = Ret "2".
Proof.
  destruct format_value_cases as (_ & Hunk & Hfloat & Hexc & Hother & _).
  split; [|split; [|split]].
  - apply (Hunk 7 "W" (PyInt 3)); [discriminate | reflexivity].
  - refine (proj1 (Hfloat 101 "Hz" (PyStr "49.985")
                     (pt "Frequency" "float" (Some "Hz") "AC Frequency" (Some "R"))
                     (S754_finite false 7034763355441070 (-47)) _ _ _ _));
      [discriminate | reflexivity | reflexivity | vm_compute; reflexivity].
  - apply (Hexc 124 "W" (PyList [])
             (pt "Power" "float" (Some "W") "Battery power" (Some "R")));
      [discriminate | reflexivity | reflexivity | right; reflexivity].
  - apply (Hother 160 "ID" (PyInt 2)
             (pt "ID" "uint16" None "MPPT ID" (Some "R")));
      [discriminate | reflexivity | discriminate].
Defined.

End ModelRegistryFacts.

(* ================================================================== *)
(** * Facts about rows and loops *)
(* ================================================================== *)

Section RowFacts.
Import World.
Context {A : Type}.
Implicit Types (p q : A -> bool) (f : A -> A) (l : list A).

Lemma nth_error_update_first p f l : forall i x,
  nth_error l i = Some x ->
  exists y, nth_error (update_first p f l) i = Some y /\ (y = x \/ y = f x).
Proof.
  induction l as [|a l IH]; intros [|i] x H; simpl in *; try discriminate.
  - injection H as ->. destruct (p x); simpl; eauto.
  - destruct (p a); simpl; eauto.
Qed.

Lemma nth_error_update_first_other p f l : forall i x,
  nth_error l i = Some x -> p x = false ->
  nth_error (update_first p f l) i = Some x.
Proof.
  induction l as [|a l IH]; intros [|i] x H Hp; simpl in *; try discriminate.
  - injection H as ->. now rewrite Hp.
  - destruct (p a); simpl; auto.
Qed.

Lemma nth_error_update_last_other p f l : forall i x,
  nth_error l i = Some x -> p x = false ->
  nth_error (update_last p f l) i = Some x.
Proof.
  induction l as [|a l IH]; intros [|i] x H Hp; simpl in *; try discriminate.
  - injection H as ->. rewrite Hp. now destruct (existsb p l).
  - destruct (existsb p l); simpl; [auto|]. now destruct (p a).
Qed.

Lemma find_update_first_same p f l :
  (forall x, p (f x) = p x) ->
  find p (update_first p f l) = option_map f (find p l).
Proof.
  intros Hf. induction l as [|a l IH]; simpl; [reflexivity|].
  destruct (p a) eqn:Ha; simpl.
  - now rewrite Hf, Ha.
  - now rewrite Ha.
Qed.

Lemma find_update_first_disjoint p q f l :
  (forall x, q (f x) = q x) -> (forall x, p x = true -> q x = false) ->
  find q (update_first p f l) = find q l.
Proof.
  intros Hf Hd. induction l as [|a l IH]; simpl; [reflexivity|].
  destruct (p a) eqn:Ha; simpl.
  - now rewrite Hf, (Hd a Ha).
  - now rewrite IH.
Qed.

Lemma map_update_first {B} (g : A -> B) p f l :
  (forall x, g (f x) = g x) -> map g (update_first p f l) = map g l.
Proof.
  intros Hg. induction l as [|a l IH]; simpl; [reflexivity|].
  destruct (p a); simpl; [now rewrite Hg | now rewrite IH].
Qed.

End RowFacts.

Section LoopFacts.
Import World.

(** An invariant kept by the body of a loop is kept by the loop. *)
Lemma for_each_invariant {A} (I : World.t -> Prop) (body : A -> M unit) l :
  (forall x w, In x l -> I w -> I (snd (body x w))) ->
  forall w, I w -> I (snd (for_each l body w)).
Proof.
  induction l as [|x l IH]; intros Hbody w Hw; simpl; [exact Hw|].
  unfold bind. destruct (body x w) as [u w1] eqn:Hb.
  apply IH.
  - intros y w' Hy. apply Hbody. now right.
  - replace w1 with (snd (body x w)) by now rewrite Hb.
    apply Hbody; [now left | exact Hw].
Qed.

Lemma for_each_try_cons {A} (body : A -> M bool) x l w :
  for_each_try (x :: l) body w
  = if fst (body x w) then for_each_try l body (snd (body x w))
    else (false, snd (body x w)).
Proof. simpl. unfold bind, ret. now destruct (body x w) as [[|] w1]. Qed.

(** An invariant kept by the body is kept by the loop, completed or not. *)
Lemma for_each_try_invariant {A} (I : World.t -> Prop) (body : A -> M bool) l :
  (forall x w, In x l -> I w -> I (snd (body x w))) ->
  forall w, I w -> I (snd (for_each_try l body w)).
Proof.
  induction l as [|x l IH]; intros Hbody w Hw; [exact Hw|].
  rewrite for_each_try_cons.
  assert (H1 : I (snd (body x w))) by (apply Hbody; [now left | exact Hw]).
  destruct (fst (body x w)); [|exact H1].
  apply IH; [|exact H1]. intros y w' Hy. apply Hbody. now right.
Qed.

Lemma snd_bind_ret {A B} (m : M A) (b : B) w :
  snd (bind m (fun _ => ret b) w) = snd (m w).
Proof. unfold bind, ret. now destruct (m w). Qed.

Lemma fst_bind_ret {A B} (m : M A) (b : B) w :
  fst (bind m (fun _ => ret b) w) = b.
Proof. unfold bind, ret. now destruct (m w). Qed.

Lemma bind_get {B} (k : World.t -> M B) w : bind get k w = k w w.
Proof. reflexivity. Qed.

Lemma bind_modify {B} (f : World.t -> World.t) (k : unit -> M B) w :
  bind (modify f) k w = k tt (f w).
Proof. reflexivity. Qed.

Lemma bind_ret {A B} (a : A) (k : A -> M B) w : bind (ret a) k w = k a w.
Proof. reflexivity. Qed.

Lemma bind_bind {A B C} (m : M A) (f : A -> M B) (k : B -> M C) w :
  bind (bind m f) k w = bind m (fun x => bind (f x) k) w.
Proof. unfold bind. now destruct (m w). Qed.

End LoopFacts.

(* ================================================================== *)
(** * A value known locally is kept *)
(* ================================================================== *)

Section KnownValueFacts.
Import Py Protocol World.
Import Invariant.

Variable E : env.

Lemma kept_refl i p w : nth_error (points w) i = Some p -> kept i p w.
Proof. intros H. exists p. auto. Qed.

Lemma in_context_true cid pid (p : DataPoint.t) :
  DeviceDiscovery.in_context cid pid p = true ->
  DataPoint.context_id p = cid /\ DataPoint.point_id p = pid.
Proof.
  unfold DeviceDiscovery.in_context. intros H.
  apply andb_true_iff in H as [Hc Hp].
  apply Z.eqb_eq in Hc. apply String.eqb_eq in Hp. now split.
Qed.

(** The row is not the one an item of the payload addresses, unless the
    item is for its context and point id. *)
Lemma not_addressed cid pid (p p' : DataPoint.t) :
  DataPoint.context_id p' = DataPoint.context_id p ->
  DataPoint.point_id p' = DataPoint.point_id p ->
  ~ (pid = DataPoint.point_id p /\ DataPoint.context_id p = cid) ->
  DeviceDiscovery.in_context cid pid p' = false.
Proof.
  intros Hc Hp Hnot.
  destruct (DeviceDiscovery.in_context cid pid p') eqn:H; [|reflexivity].
  apply in_context_true in H as [H1 H2]. exfalso. apply Hnot.
  split; congruence.
Qed.

Lemma process_point_keeps cid ids item i p w :
  (fst item = DataPoint.point_id p -> DataPoint.context_id p = cid ->
   DeviceDiscovery.supplies_value (snd item) = false) ->
  kept i p w -> kept i p (snd (DeviceDiscovery.process_point E cid ids item w)).
Proof.
  intros Hnull (p' & Hn & Hc & Hid & Hv & Ht).
  destruct item as [point_id point_info]. simpl in Hnull.
  unfold DeviceDiscovery.process_point.
  destruct point_info as [| | | | |l|info]; try (exists p'; now auto).
  destruct (existsb (String.eqb point_id) ids).
  - unfold bind, modify, utcnow, ret, kept. simpl.
    destruct (is_none (DeviceDiscovery.get_or_none "value" info)) eqn:Hval; simpl.
    + destruct (nth_error_update_first
                  (DeviceDiscovery.in_context cid point_id)
                  (DataPoint.set_metadata
                     (DeviceDiscovery.or_default (dict_get "name" info) (PyStr point_id))
                     (DeviceDiscovery.get_or_none "type" info)
                     (DeviceDiscovery.get_or_none "unit" info)
                     (DeviceDiscovery.get_or_none "access" info)
                     (DeviceDiscovery.get_or_none "description" info))
                  (points w) i p' Hn) as (y & Hy & Hcase).
      exists y. split; [exact Hy|].
      destruct Hcase as [-> | ->]; simpl; auto.
    + assert (Hother : DeviceDiscovery.in_context cid point_id p' = false).
      { apply (not_addressed cid point_id p p' Hc Hid).
        intros [H1 H2]. specialize (Hnull H1 H2). simpl in Hnull.
        now rewrite Hval in Hnull. }
      exists p'. split; [|auto].
      apply nth_error_update_first_other; [|exact Hother].
      apply nth_error_update_first_other; [exact Hn | exact Hother].
  - unfold modify, set_points. exists p'. split; [|auto]. simpl.
    rewrite nth_error_app1; [exact Hn|].
    apply nth_error_Some. congruence.
Qed.

Lemma update_point_keeps cid item i p w :
  (fst item = DataPoint.point_id p -> DataPoint.context_id p = cid ->
   is_none (snd item) = true) ->
  kept i p w -> kept i p (snd (DeviceManager.update_point E cid item w)).
Proof.
  intros Hnull (p' & Hn & Hc & Hid & Hv & Ht).
  destruct item as [point_id value]. simpl in Hnull.
  unfold DeviceManager.update_point, bind, get.
  destruct (find_last (DeviceManager.in_context cid point_id) (points w))
    as [point|]; [|exists p'; now auto].
  destruct (is_none value) eqn:Hval; simpl; [exists p'; now auto|].
  destruct (negb (DeviceManager.opt_str_eqb (DataPoint.value point) (str value)));
    [|exists p'; now auto].
  exists p'. split; [|auto]. simpl.
  apply nth_error_update_last_other; [exact Hn|].
  apply (not_addressed cid point_id p p' Hc Hid).
  intros [H1 H2]. specialize (Hnull H1 H2). congruence.
Qed.

Lemma for_each_keeps {B} (body : B -> M unit) (ok : B -> Prop) i p l :
  (forall x w, ok x -> kept i p w -> kept i p (snd (body x w))) ->
  (forall x, In x l -> ok x) ->
  forall w, kept i p w -> kept i p (snd (for_each l body w)).
Proof.
  intros Hbody Hok. apply for_each_invariant.
  intros x w Hx. apply Hbody. now apply Hok.
Qed.

(** C3. On both paths that change a point, the reconciliation of a
    context's points during discovery and the refresh of a context by the
    synchronizer, a row whose stored value is not null keeps that value
    and the time of its last update when the incoming payload of its
    context has no value for its point id, or a null one. *)
Theorem known_value_not_overwritten :
  forall context payload w i p v,
    nth_error (points w) i = Some p ->
    DataPoint.value p = Some v ->
    ((forall point_info,
         DataPoint.context_id p = Context.id context ->
         In (DataPoint.point_id p, point_info) payload ->
         DeviceDiscovery.supplies_value point_info = false) ->
     exists p',
       nth_error
         (points (snd (DeviceDiscovery._process_context_points E context payload w)))
         i = Some p'
       /\ DataPoint.value p' = Some v
       /\ DataPoint.last_updated p' = DataPoint.last_updated p)
    /\ ((forall value,
            DataPoint.context_id p = Context.id context ->
            In (DataPoint.point_id p, value) payload ->
            is_none value = true) ->
        exists p',
          nth_error
            (points (snd (DeviceManager._update_context_points E context payload w)))
            i = Some p'
          /\ DataPoint.value p' = Some v
          /\ DataPoint.last_updated p' = DataPoint.last_updated p).
Proof.
  intros context payload w i p v Hn Hv. split; intros Hnull.
  - unfold DeviceDiscovery._process_context_points, bind, get.
    destruct (for_each_keeps
                (DeviceDiscovery.process_point E (Context.id context)
                   (map DataPoint.point_id
                      (filter (fun q => DataPoint.context_id q =? Context.id context)
                         (points w))))
                (fun item => fst item = DataPoint.point_id p ->
                             DataPoint.context_id p = Context.id context ->
                             DeviceDiscovery.supplies_value (snd item) = false)
                i p payload) with (w := w) as (p' & Hp' & _ & _ & Hv' & Ht').
    + intros x w'. apply process_point_keeps.
    + intros [k info] Hin Hk Hc. simpl in *. subst k. now apply Hnull.
    + now apply kept_refl.
    + exists p'. rewrite Hv' in *. auto.
  - unfold DeviceManager._update_context_points.
    destruct (for_each_keeps
                (DeviceManager.update_point E (Context.id context))
                (fun item => fst item = DataPoint.point_id p ->
                             DataPoint.context_id p = Context.id context ->
                             is_none (snd item) = true)
                i p payload) with (w := w) as (p' & Hp' & _ & _ & Hv' & Ht').
    + intros x w'. apply update_point_keeps.
    + intros [k value] Hin Hk Hc. simpl in *. subst k. now apply Hnull.
    + now apply kept_refl.
    + exists p'. rewrite Hv' in *. auto.
Qed.

End KnownValueFacts.

Lemma known_value_not_overwritten_witness :
  (exists p',
      nth_error
        (World.points
           (snd (DeviceDiscovery._process_context_points Demo.env Demo.storage
                   [("WChaMax", Py.PyDict [("name", Py.PyStr "Max charge");
                                           ("value", Py.PyNone)]);
                    ("W", Py.PyDict [("value", Py.PyInt 9)])]
                   Demo.world)))
        0 = Some p'
      /\ DataPoint.value p' = Some "100"
      /\ DataPoint.last_updated p' = Some 5)
  /\ (exists p',
         nth_error
           (World.points
              (snd (DeviceManager._update_context_points Demo.env Demo.storage
                      [("WChaMax", Py.PyNone); ("W", Py.PyInt 9)]
                      Demo.world)))
           0 = Some p'
         /\ DataPoint.value p' = Some "100"
         /\ DataPoint.last_updated p' = Some 5).
Proof.
  split.
  - apply (proj1 (known_value_not_overwritten Demo.env Demo.storage _
                    Demo.world 0%nat Demo.max_charge "100" eq_refl eq_refl)).
    intros point_info _ [H | [H | []]]; inversion H; reflexivity.
  - apply (proj2 (known_value_not_overwritten Demo.env Demo.storage _
                    Demo.world 0%nat Demo.max_charge "100" eq_refl eq_refl)).
    intros value _ [H | [H | []]]; inversion H; reflexivity.
Defined.

(* ================================================================== *)
(** * The write path of the synchronizer *)
(* ================================================================== *)

Section DictFacts.
Import Py Protocol.

Lemma dict_set_in k v d a b :
  In (a, b) (dict_set k v d) -> (a, b) = (k, v) \/ In (a, b) d.
Proof.
  induction d as [|[k' v'] d IH]; simpl.
  - intros [H | []]. now left.
  - destruct (String.eqb k k'); simpl.
    + intros [H | H]; [now left | right; now right].
    + intros [H | H]; [right; now left|].
      destruct (IH H) as [? | ?]; [now left | right; now right].
Qed.

Lemma dict_set_keys_in k v d a :
  In a (keys (dict_set k v d)) <-> a = k \/ In a (keys d).
Proof.
  unfold keys. induction d as [|[k' v'] d IH]; simpl.
  - intuition congruence.
  - destruct (String.eqb_spec k k'); simpl.
    + subst. intuition congruence.
    + rewrite IH. intuition congruence.
Qed.

Lemma dict_set_nodup k v d : NoDup (keys d) -> NoDup (keys (dict_set k v d)).
Proof.
  unfold keys. induction d as [|[k' v'] d IH]; simpl; intros H.
  - constructor; [intros [] | constructor].
  - inversion H as [|? ? Hnin Hnd]; subst.
    destruct (String.eqb_spec k k'); simpl.
    + subst. now constructor.
    + constructor; [|now apply IH].
      intros Hin. apply (dict_set_keys_in k v d k') in Hin.
      destruct Hin as [-> | Hin]; [congruence | now apply Hnin].
Qed.

Lemma dict_set_fresh k v (d : dict) :
  ~ In k (keys d) -> dict_set k v d = (d ++ [(k, v)])%list.
Proof.
  unfold keys. induction d as [|[k0 v0] d IH]; simpl; intros H; [reflexivity|].
  destruct (String.eqb_spec k k0) as [-> | ?]; [tauto|].
  rewrite IH; [reflexivity | tauto].
Qed.

End DictFacts.

Section WriteFacts.
Import Py Protocol World DeviceManager.

Variable E : env.

Lemma validate_in pts cid points_data : forall acc point_id value,
  In (point_id, value) (validate pts cid points_data acc) ->
  In (point_id, value) acc
  \/ (In (point_id, value) points_data
      /\ exists point, find (in_context cid point_id) pts = Some point
                       /\ writable point = true).
Proof.
  induction points_data as [|[k x] rest IH]; intros acc point_id value; simpl.
  - now left.
  - destruct (find (in_context cid k) pts) as [point|] eqn:Hf.
    + destruct (writable point) eqn:Hw; simpl.
      * intros H. destruct (IH _ _ _ H) as [Hacc | (Hin & Hp)].
        -- destruct (dict_set_in _ _ _ _ _ Hacc) as [Heq | Hin]; [|now left].
           injection Heq as -> ->. right. split; [now left | eauto].
        -- right. split; [now right | exact Hp].
      * intros H. destruct (IH _ _ _ H) as [Hacc | (Hin & Hp)];
          [now left | right; split; [now right | exact Hp]].
    + intros H. destruct (IH _ _ _ H) as [Hacc | (Hin & Hp)];
        [now left | right; split; [now right | exact Hp]].
Qed.

Lemma validate_keys_acc pts cid points_data : forall acc k,
  In k (keys acc) -> In k (keys (validate pts cid points_data acc)).
Proof.
  induction points_data as [|[k' x] rest IH]; intros acc k H; simpl; [exact H|].
  destruct (find (in_context cid k') pts) as [point|]; [|now apply IH].
  destruct (writable point); simpl; [|now apply IH].
  apply IH. apply dict_set_keys_in. now right.
Qed.

Lemma validate_complete pts cid points_data : forall acc point_id point,
  In point_id (keys points_data) ->
  find (in_context cid point_id) pts = Some point -> writable point = true ->
  In point_id (keys (validate pts cid points_data acc)).
Proof.
  induction points_data as [|[k x] rest IH]; intros acc point_id point; simpl;
    [intros []|].
  intros [-> | Hin] Hf Hw.
  - rewrite Hf, Hw. simpl. apply validate_keys_acc, dict_set_keys_in. now left.
  - destruct (find (in_context cid k) pts) as [q|]; [|now apply (IH _ _ point)].
    destruct (writable q); simpl; now apply (IH _ _ point).
Qed.

Lemma validate_nodup pts cid points_data : forall acc,
  NoDup (keys acc) -> NoDup (keys (validate pts cid points_data acc)).
Proof.
  induction points_data as [|[k x] rest IH]; intros acc H; simpl; [exact H|].
  destruct (find (in_context cid k) pts) as [point|]; [|now apply IH].
  destruct (writable point); simpl; [|now apply IH].
  now apply IH, dict_set_nodup.
Qed.

Lemma validate_none pts cid points_data :
  (forall point_id point,
      In point_id (keys points_data) ->
      find (in_context cid point_id) pts = Some point -> writable point = false) ->
  validate pts cid points_data [] = [].
Proof.
  intros H. destruct (validate pts cid points_data []) as [|[k v] rest] eqn:Hv;
    [reflexivity|].
  assert (Hin : In (k, v) (validate pts cid points_data [])) by (rewrite Hv; now left).
  destruct (validate_in _ _ _ _ _ _ Hin) as [[] | (Hpd & point & Hf & Hw)].
  rewrite (H k point) in Hw; [discriminate | | exact Hf].
  unfold keys. now apply (in_map fst) in Hpd.
Qed.

(** C4, amended.  A call of [write_device_context] none of whose
    requested points both exists in the context and has an access mode
    including W fails without anything being sent or changed, with the
    error of the guard that stops it first: [Device not found or offline]
    when the device is missing or offline, else [Context not found] when
    the context is missing, else [No valid writable points]. *)
Theorem write_without_writable_points :
  forall w device_id context_id points_data,
    (forall context point_id point,
        find (fun c => Context.id c =? context_id) (contexts w) = Some context ->
        In point_id (keys points_data) ->
        find (in_context (Context.id context) point_id) (points w) = Some point ->
        writable point = false) ->
    exists msg,
      write_device_context E device_id context_id points_data w = (failure msg, w)
      /\ (find (has_id device_id) (devices w) = None ->
          msg = "Device not found or offline")
      /\ (forall device,
             find (has_id device_id) (devices w) = Some device ->
             Device.is_online device = false ->
             msg = "Device not found or offline")
      /\ (forall device,
             find (has_id device_id) (devices w) = Some device ->
             Device.is_online device = true ->
             find (fun c => Context.id c =? context_id) (contexts w) = None ->
             msg = "Context not found")
      /\ (forall device context,
             find (has_id device_id) (devices w) = Some device ->
             Device.is_online device = true ->
             find (fun c => Context.id c =? context_id) (contexts w)
             = Some context ->
             msg = "No valid writable points").
Proof.
  intros w device_id context_id points_data Hnone.
  unfold write_device_context, bind, get.
  destruct (find (has_id device_id) (devices w)) as [device|] eqn:Hd.
  2:{ eexists. split; [reflexivity|]. repeat split; intros; congruence. }
  destruct (Device.is_online device) eqn:Hon; simpl.
  2:{ eexists. split; [reflexivity|]. repeat split; intros; congruence. }
  destruct (find (fun c => Context.id c =? context_id) (contexts w))
    as [context|] eqn:Hc.
  2:{ eexists. split; [reflexivity|]. repeat split; intros; congruence. }
  rewrite (validate_none _ _ _ (fun pid pt => Hnone context pid pt eq_refl)).
  eexists. split; [reflexivity|]. repeat split; intros; congruence.
Qed.

End WriteFacts.

Lemma write_without_writable_points_witness :
  exists msg,
    DeviceManager.write_device_context Demo.env 2 1
      [("W", Py.PyInt 3); ("Unknown", Py.PyInt 1)] Demo.world
    = (DeviceManager.failure msg, Demo.world)
    /\ msg = "No valid writable points".
Proof.
  destruct (write_without_writable_points Demo.env Demo.world 2 1
              [("W", Py.PyInt 3); ("Unknown", Py.PyInt 1)])
    as (msg & Hrun & _ & _ & _ & Hmsg).
  - intros context point_id point Hc. injection Hc as <-.
    intros [<- | [<- | []]] H; simpl in H; inversion H; reflexivity.
  - exists msg. split; [exact Hrun|].
    apply (Hmsg Demo.battery Demo.storage); reflexivity.
Defined.

(** C4, as stated, fails: with the device offline, a call whose requested
    points resolve to the empty set fails with the error of the device
    guard. *)
Lemma write_offline_reports_device :
  let w := World.set_devices
             [Demo.inverter; Device.set_is_online false Demo.battery]
             Demo.world in
  DeviceManager.validate (World.points w) 1 [("Unknown", Py.PyInt 1)] [] = []
  /\ DeviceManager.write_device_context Demo.env 2 1
       [("Unknown", Py.PyInt 1)] w
     = (DeviceManager.failure "Device not found or offline", w)
  /\ DeviceManager.failure "Device not found or offline"
     <> DeviceManager.failure "No valid writable points".
Proof. cbv zeta. repeat split. discriminate. Qed.

Section WritePersistFacts.
Import Py Protocol World DeviceManager.

Variable E : env.
Variable cid : Z.

Lemma for_each_cons_snd {A} (body : A -> M unit) x l w :
  snd (for_each (x :: l) body w) = snd (for_each l body (snd (body x w))).
Proof. simpl. unfold bind. now destruct (body x w). Qed.

Lemma in_context_set_value pid v ts p :
  in_context cid pid (DataPoint.set_value v ts p) = in_context cid pid p.
Proof. reflexivity. Qed.

Lemma in_context_disjoint k pid p :
  pid <> k -> in_context cid k p = true -> in_context cid pid p = false.
Proof.
  unfold in_context. intros Hne H. apply andb_true_iff in H as [_ H].
  apply String.eqb_eq in H. rewrite H.
  destruct (String.eqb_spec k pid); [congruence | apply andb_false_r].
Qed.

Lemma store_point_points k x w :
  points (snd (store_point E cid (k, x) w)) =
    match find (in_context cid k) (points w) with
    | Some _ =>
        update_first (in_context cid k)
          (DataPoint.set_value (Some (str x)) (Some (clock E (tick w))))
          (points w)
    | None => points w
    end.
Proof.
  unfold store_point, bind, get.
  now destruct (find (in_context cid k) (points w)).
Qed.

Lemma store_point_find_same k x w p :
  find (in_context cid k) (points w) = Some p ->
  exists p', find (in_context cid k) (points (snd (store_point E cid (k, x) w)))
             = Some p'
             /\ DataPoint.value p' = Some (str x).
Proof.
  intros H. rewrite store_point_points, H.
  rewrite find_update_first_same by (intros; apply in_context_set_value).
  rewrite H. simpl. eauto.
Qed.

Lemma store_point_find_other k x w pid :
  pid <> k ->
  find (in_context cid pid) (points (snd (store_point E cid (k, x) w)))
  = find (in_context cid pid) (points w).
Proof.
  intros Hne. rewrite store_point_points.
  destruct (find (in_context cid k) (points w)); [|reflexivity].
  apply find_update_first_disjoint.
  - intros; apply in_context_set_value.
  - intros y. now apply in_context_disjoint.
Qed.

Lemma store_points_find_other l : forall w pid,
  ~ In pid (keys l) ->
  find (in_context cid pid) (points (snd (for_each l (store_point E cid) w)))
  = find (in_context cid pid) (points w).
Proof.
  induction l as [|[k x] l IH]; intros w pid Hnin; [reflexivity|].
  rewrite for_each_cons_snd, IH.
  - apply store_point_find_other. intros ->. apply Hnin. now left.
  - intros H. apply Hnin. now right.
Qed.

Lemma store_points_persist l :
  NoDup (keys l) ->
  forall w pid v,
    In (pid, v) l ->
    (exists p, find (in_context cid pid) (points w) = Some p) ->
    exists p',
      find (in_context cid pid) (points (snd (for_each l (store_point E cid) w)))
      = Some p'
      /\ DataPoint.value p' = Some (str v).
Proof.
  induction l as [|[k x] l IH]; intros Hnd w pid v Hin [p Hp]; [destruct Hin|].
  inversion Hnd as [|? ? Hk Hnd']; subst.
  rewrite for_each_cons_snd.
  destruct Hin as [Heq | Hin].
  - injection Heq as -> ->.
    destruct (store_point_find_same pid v w p Hp) as (p' & Hf & Hv).
    exists p'. split; [|exact Hv].
    now rewrite store_points_find_other.
  - apply IH; [exact Hnd' | exact Hin |].
    exists p. rewrite store_point_find_other; [exact Hp|].
    intros ->. apply Hk. unfold keys. now apply (in_map fst) in Hin.
Qed.

Lemma store_points_frame l i p :
  ~ In (DataPoint.point_id p) (keys l) ->
  forall w, nth_error (points w) i = Some p ->
            nth_error (points (snd (for_each l (store_point E cid) w))) i = Some p.
Proof.
  intros Hnin w0 Hn0.
  apply (for_each_invariant (fun w => nth_error (points w) i = Some p));
    [|exact Hn0].
  intros [k x] w Hin Hn. rewrite store_point_points.
  destruct (find (in_context cid k) (points w)); [|exact Hn].
  apply nth_error_update_first_other; [exact Hn|].
  unfold in_context.
  destruct (String.eqb_spec (DataPoint.point_id p) k) as [Heq|];
    [|apply andb_false_r].
  exfalso. apply Hnin. rewrite Heq. unfold keys.
  now apply (in_map fst) in Hin.
Qed.

Lemma store_point_row k x w p :
  find (in_context cid k) (points w) = Some p ->
  find (in_context cid k) (points (snd (store_point E cid (k, x) w)))
  = Some (DataPoint.set_value (Some (str x)) (Some (clock E (tick w))) p).
Proof.
  intros H. rewrite store_point_points, H.
  rewrite find_update_first_same by (intros; apply in_context_set_value).
  now rewrite H.
Qed.

Lemma store_points_row l :
  NoDup (keys l) ->
  forall w pid v p,
    In (pid, v) l ->
    find (in_context cid pid) (points w) = Some p ->
    exists now,
      find (in_context cid pid) (points (snd (for_each l (store_point E cid) w)))
      = Some (DataPoint.set_value (Some (str v)) (Some now) p).
Proof.
  induction l as [|[k x] l IH]; intros Hnd w pid v p Hin Hp; [destruct Hin|].
  inversion Hnd as [|? ? Hk Hnd']; subst.
  rewrite for_each_cons_snd.
  destruct Hin as [Heq | Hin].
  - injection Heq as -> ->. exists (clock E (tick w)).
    rewrite store_points_find_other by exact Hk.
    now apply store_point_row.
  - apply IH; [exact Hnd' | exact Hin |].
    rewrite store_point_find_other; [exact Hp|].
    intros ->. apply Hk. unfold keys. now apply (in_map fst) in Hin.
Qed.

(** A row that is not a row of the context with a stored point id is not
    touched. *)
Lemma store_points_frame_context l i p :
  ~ (DataPoint.context_id p = cid /\ In (DataPoint.point_id p) (keys l)) ->
  forall w, nth_error (points w) i = Some p ->
            nth_error (points (snd (for_each l (store_point E cid) w))) i = Some p.
Proof.
  intros Hout w0 Hn0.
  apply (for_each_invariant (fun w => nth_error (points w) i = Some p));
    [|exact Hn0].
  intros [k x] w Hin Hn. rewrite store_point_points.
  destruct (find (in_context cid k) (points w)); [|exact Hn].
  apply nth_error_update_first_other; [exact Hn|].
  unfold in_context.
  destruct (Z.eqb_spec (DataPoint.context_id p) cid) as [Hc|]; [|reflexivity].
  destruct (String.eqb_spec (DataPoint.point_id p) k) as [Heq|];
    [|reflexivity].
  exfalso. apply Hout. split; [exact Hc|]. rewrite Heq. unfold keys.
  now apply (in_map fst) in Hin.
Qed.

(** The loop that stores the written values touches the data points
    only. *)
Lemma store_points_rest l : forall w,
  let w' := snd (for_each l (store_point E cid) w) in
  devices w' = devices w /\ contexts w' = contexts w
  /\ events w' = events w /\ sent w' = sent w.
Proof.
  intros w0. cbv zeta.
  apply (for_each_invariant
           (fun w => devices w = devices w0 /\ contexts w = contexts w0
                     /\ events w = events w0 /\ sent w = sent w0));
    [|repeat split].
  intros [k x] w _ H. unfold store_point, bind, get.
  destruct (find (in_context cid k) (points w)); exact H.
Qed.

End WritePersistFacts.

Section WriteAmended.
Import Py Protocol World DeviceManager WriteResolution.

Variable E : env.

(** The validation loop computes the resolved set of the request. *)
Lemma validate_resolved pts cid points_data : forall acc,
  NoDup (keys points_data) ->
  (forall k, In k (keys points_data) -> ~ In k (keys acc)) ->
  validate pts cid points_data acc
  = (acc ++ resolved_set pts cid points_data)%list.
Proof.
  unfold resolved_set, resolves.
  induction points_data as [|[k x] rest IH]; intros acc Hnd Hdis; simpl.
  - now rewrite app_nil_r.
  - inversion Hnd as [|? ? Hk Hnd']; subst.
    assert (Hrest : forall k0, In k0 (keys rest) -> ~ In k0 (keys acc))
      by (intros k0 H; apply Hdis; now right).
    destruct (find (in_context cid k) pts) as [point|]; [|now apply IH].
    destruct (writable point); simpl; [|now apply IH].
    rewrite dict_set_fresh by (apply Hdis; now left).
    rewrite IH; [now rewrite <- app_assoc | exact Hnd' |].
    intros k0 Hk0 Hin. unfold keys in Hin. rewrite map_app in Hin.
    apply in_app_or in Hin as [Hin | [<- | []]].
    + now apply (Hrest k0).
    + now apply Hk.
Qed.

(** C1, amended.  Take a request (a dictionary, so with distinct keys) to
    an online device and a context, whose resolved set (the requested
    points that exist in the context with an access mode including W) is
    not empty, and let the device answer the write message that carries
    the resolved set with a successful response, whatever points that
    response echoes.  Then [write_device_context] succeeds, has sent that
    one message, and every requested point that resolves is stored with
    the string form of the value requested for it, its row being
    otherwise as before; no row whose (context, point id) is not in the
    resolved set is changed, nor any device or context; one [write] event
    is logged. *)
Theorem write_persists_resolved_points :
  forall w device_id context_id points_data device context body,
    NoDup (keys points_data) ->
    find (has_id device_id) (devices w) = Some device ->
    Device.is_online device = true ->
    find (fun c => Context.id c =? context_id) (contexts w) = Some context ->
    let cid := Context.id context in
    let resolved := resolved_set (points w) cid points_data in
    let message :=
      write_request (Device.ip_address device) (Device.port device)
        (Context.context_id context) resolved in
    resolved <> [] ->
    net E (List.length (sent w)) message = Some (mk_response (Some body)) ->
    truthy (DeviceDiscovery.or_default (success body) (PyBool false)) = true ->
    exists w',
      write_device_context E device_id context_id points_data w = (ok, w')
      /\ sent w' = (sent w ++ [message])%list
      /\ (forall point_id value point,
             In (point_id, value) points_data ->
             find (in_context cid point_id) (points w) = Some point ->
             writable point = true ->
             exists now,
               find (in_context cid point_id) (points w')
               = Some (DataPoint.set_value (Some (str value)) (Some now) point))
      /\ (forall i p,
             nth_error (points w) i = Some p ->
             ~ (DataPoint.context_id p = cid
                /\ In (DataPoint.point_id p) (keys resolved)) ->
             nth_error (points w') i = Some p)
      /\ devices w' = devices w
      /\ contexts w' = contexts w
      /\ exists e, events w' = (events w ++ [e])%list
                   /\ DeviceEvent.event_type e = "write".
Proof.
  intros w device_id context_id points_data device context body
         Hnd Hd Hon Hc cid resolved message Hne Hnet Hok.
  assert (Hval : validate (points w) cid points_data [] = resolved)
    by (rewrite validate_resolved; [reflexivity | exact Hnd | intros k _ []]).
  assert (Hndr : NoDup (keys resolved)).
  { rewrite <- Hval. apply validate_nodup. constructor. }
  assert (Hmem : forall point_id value point,
             In (point_id, value) points_data ->
             find (in_context cid point_id) (points w) = Some point ->
             writable point = true ->
             In (point_id, value) resolved).
  { intros point_id value point Hin Hf Hw. apply filter_In.
    split; [exact Hin|]. unfold resolves. simpl. now rewrite Hf. }
  clearbody resolved. subst message cid.
  unfold write_device_context, bind, get. rewrite Hd, Hon, Hc. cbn [negb].
  rewrite Hval.
  destruct resolved as [|item rest]; [congruence|].
  set (resolved := item :: rest) in *.
  unfold send_message. cbv beta iota. rewrite Hnet, Hok.
  match goal with
  | |- context [for_each resolved _ ?w1] => set (w0 := w1)
  end.
  pose proof (store_points_rest E (Context.id context) resolved w0)
    as (Hdev & Hctx & Hev & Hsent).
  pose proof (store_points_row E (Context.id context) resolved Hndr w0) as Hrow.
  pose proof (fun i p H =>
                store_points_frame_context E (Context.id context) resolved i p H w0)
    as Hframe.
  destruct (for_each resolved (store_point E (Context.id context)) w0)
    as [u w1].
  simpl in Hdev, Hctx, Hev, Hsent, Hrow, Hframe.
  unfold add_event, modify, ret. cbv beta iota.
  eexists. split; [reflexivity|]. simpl.
  split; [exact Hsent|]. split; [|split; [|split; [|split]]].
  - intros point_id value point Hin Hf Hw.
    apply (Hrow point_id value point); [|exact Hf].
    now apply (Hmem point_id value point).
  - intros i p Hn Hout. now apply Hframe.
  - exact Hdev.
  - exact Hctx.
  - eexists. rewrite Hev. split; reflexivity.
Qed.

End WriteAmended.

(** C1, as stated, fails: the device acknowledges no point, and the
    requested point is stored all the same. *)
Lemma write_persists_unacknowledged_point :
  exists acknowledged w',
    World.net Demo.env 0
      (Protocol.write_request "10.0.0.2" 47808 "storage1"
         [("WChaMax", Py.PyInt 200)])
    = Some (Protocol.mk_response
              (Some (Protocol.mk_mcp None (Some acknowledged)
                       (Some (Py.PyBool true)) None)))
    /\ ~ In "WChaMax" (Protocol.keys acknowledged)
    /\ DeviceManager.write_device_context Demo.env 2 1
         [("WChaMax", Py.PyInt 200)] Demo.world
       = (DeviceManager.ok, w')
    /\ option_map DataPoint.value (nth_error (World.points Demo.world) 0)
       = Some (Some "100")
    /\ option_map DataPoint.value (nth_error (World.points w') 0)
       = Some (Some "200").
Proof.
  exists [].
  exists (snd (DeviceManager.write_device_context Demo.env 2 1
                 [("WChaMax", Py.PyInt 200)] Demo.world)).
  split; [reflexivity|]. split; [intros []|].
  split; [reflexivity|]. split; reflexivity.
Qed.

Lemma write_persists_resolved_points_witness :
  exists w',
    DeviceManager.write_device_context Demo.env 2 1
      [("WChaMax", Py.PyInt 200); ("W", Py.PyInt 3)] Demo.world
    = (DeviceManager.ok, w')
    /\ World.sent w'
       = [Protocol.write_request "10.0.0.2" 47808 "storage1"
            [("WChaMax", Py.PyInt 200)]]
    /\ (exists now,
          find (DeviceManager.in_context 1 "WChaMax") (World.points w')
          = Some (DataPoint.set_value (Some "200") (Some now) Demo.max_charge))
    /\ nth_error (World.points w') 1 = Some Demo.power.
Proof.
  destruct (write_persists_resolved_points Demo.env Demo.world 2 1
              [("WChaMax", Py.PyInt 200); ("W", Py.PyInt 3)]
              Demo.battery Demo.storage
              (Protocol.mk_mcp None (Some []) (Some (Py.PyBool true)) None))
    as (w' & Hrun & Hsent & Hstored & Hframe & _).
  - repeat constructor; simpl; intuition discriminate.
  - reflexivity.
  - reflexivity.
  - reflexivity.
  - discriminate.
  - reflexivity.
  - reflexivity.
  - exists w'. split; [exact Hrun|]. split; [exact Hsent|]. split.
    + apply (Hstored "WChaMax" (Py.PyInt 200) Demo.max_charge);
        [left; reflexivity | reflexivity | reflexivity].
    + apply (Hframe 1%nat Demo.power); [reflexivity|].
      intros [_ [H | []]]. discriminate H.
Defined.

(* ================================================================== *)
(** * Discovery rounds *)
(* ================================================================== *)

Section DiscoveryFacts.
Import Py Protocol World DeviceDiscovery.
Import Invariant.

Variable E : env.

(** ** The upsert of one device *)

Lemma has_uuid_assign u data d : has_uuid u (assign data d) = has_uuid u d.
Proof. reflexivity. Qed.

Lemma fresh_id_above ids : forall i, In i ids -> i < fresh_id ids.
Proof.
  unfold fresh_id. induction ids as [|a ids IH]; intros i; cbn [In fold_right];
    [intros []|].
  intros [-> | H]; [lia|]. specialize (IH i H). lia.
Qed.

Lemma fresh_id_new ids : ~ In (fresh_id ids) ids.
Proof. intros H. apply fresh_id_above in H. lia. Qed.

(** What [_process_device_info] does to the world: nothing without a uuid;
    otherwise the row with that uuid is overwritten, or a row is added. *)
Lemma process_device_info_cases info ip port w :
  let r := fst (_process_device_info E info ip port w) in
  let w' := snd (_process_device_info E info ip port w) in
  match r with
  | None => w' = w
  | Some data =>
      Protocol.uuid info = Some (uuid data)
      /\ last_seen data = clock E (tick w)
      /\ ((exists existing,
              find (has_uuid (uuid data)) (devices w) = Some existing
              /\ devices w' =
                   update_first (has_uuid (uuid data)) (assign data) (devices w)
              /\ events w' = events w)
          \/ (exists e,
                 devices w' =
                   (devices w ++
                      [new_device (fresh_id (map Device.id (devices w))) data])%list
                 /\ events w' = (events w ++ [e])%list
                 /\ DeviceEvent.event_type e = "discovery"))
  end.
Proof.
  unfold _process_device_info.
  destruct (Protocol.uuid info) as [[|c u]|]; try reflexivity.
  unfold bind, utcnow, get. simpl.
  destruct (find (has_uuid (String c u)) (devices w)) as [existing|] eqn:Hf; simpl.
  - split; [reflexivity|]. split; [reflexivity|]. left.
    exists existing. rewrite Hf. repeat split.
  - split; [reflexivity|]. split; [reflexivity|]. right.
    eexists. repeat split.
Qed.

(** C7, amended.  The upsert of a device already in the registry
    overwrites its last-seen timestamp with the time read when its response
    is processed; its id and uuid stay. *)
Theorem upsert_overwrites_last_seen :
  forall info ip port w u existing,
    Protocol.uuid info = Some u ->
    u <> "" ->
    find (has_uuid u) (devices w) = Some existing ->
    exists d',
      find (has_uuid u) (devices (snd (_process_device_info E info ip port w)))
      = Some d'
      /\ Device.last_seen d' = clock E (tick w)
      /\ Device.id d' = Device.id existing
      /\ Device.uuid d' = Device.uuid existing.
Proof.
  intros info ip port w u existing Hu Hne Hf.
  unfold _process_device_info. rewrite Hu.
  destruct u as [|c u]; [congruence|].
  unfold bind, utcnow, get. simpl. rewrite Hf. simpl.
  rewrite find_update_first_same by (intros; apply has_uuid_assign).
  rewrite Hf. simpl. eexists. repeat split.
Qed.

(** ** What the context queries leave alone *)

Lemma same_registry_refl w : same_registry w w.
Proof. split; reflexivity. Qed.

Lemma process_point_registry cid ids item w0 w :
  same_registry w0 w -> same_registry w0 (snd (process_point E cid ids item w)).
Proof.
  intros H. destruct item as [point_id point_info].
  unfold process_point.
  destruct point_info; try exact H.
  destruct (existsb (String.eqb point_id) ids); [|exact H].
  unfold bind, modify, utcnow, ret. simpl.
  destruct (is_none (get_or_none "value" d)); exact H.
Qed.

Lemma process_context_points_registry context points_data w0 w :
  same_registry w0 w ->
  same_registry w0 (snd (_process_context_points E context points_data w)).
Proof.
  intros H. unfold _process_context_points, bind, get.
  apply (for_each_invariant (same_registry w0)); [|exact H].
  intros x w1 _. apply process_point_registry.
Qed.

Lemma process_context_registry device_id ids info w0 w :
  same_registry w0 w ->
  same_registry w0 (snd (process_context E device_id ids info w)).
Proof.
  intros H. unfold process_context.
  destruct (Protocol.id info) as [[|c cid]|]; try exact H.
  destruct (or_default (type info) (PyStr "unknown")); try exact H.
  rewrite bind_get.
  destruct (existsb (String.eqb (String c cid)) ids);
    rewrite bind_bind, bind_modify, bind_ret;
    (destruct (cpoints info) as [[| | | | | |pd]|]; try exact H;
     rewrite snd_bind_ret; apply process_context_points_registry; exact H).
Qed.

Lemma get_device_details_registry data w :
  same_registry w (snd (_get_device_details E data w)).
Proof.
  unfold _get_device_details.
  destruct (id data) as [device_id|]; [|apply same_registry_refl].
  destruct ((device_id =? 0) || negb (str_nonempty (ip_address data))
            || (port data =? 0)); [apply same_registry_refl|].
  unfold bind, send_message. simpl.
  match goal with
  | |- context [net E ?n ?r] => destruct (net E n r) as [[[body|]]|]
  end; try (split; reflexivity).
  destruct (Protocol.contexts body) as [contexts|]; [|split; reflexivity].
  unfold _process_device_contexts, bind, get.
  match goal with
  | |- context [for_each_try ?l ?b ?w1] =>
      pose proof (for_each_try_invariant (same_registry w) b l
                    (fun x w2 _ => process_context_registry _ _ x w w2)
                    w1 (conj eq_refl eq_refl)) as Hloop;
      destruct (for_each_try l b w1) as [[|] w2]
  end; exact Hloop.
Qed.

End DiscoveryFacts.

(** C7, as stated, fails: a known device that responds in a discovery
    round has its last-seen timestamp overwritten by the round. *)
Lemma discovery_round_changes_last_seen :
  let round :=
    DeviceDiscovery.discover_devices Demo.env [Demo.inverter_response]
      Demo.world in
  In "uuid-inverter" (DeviceDiscovery.discovered_uuids (fst round))
  /\ option_map (fun d => (Device.uuid d, Device.last_seen d))
       (nth_error (World.devices Demo.world) 0)
     = Some ("uuid-inverter", 100)
  /\ option_map (fun d => (Device.uuid d, Device.last_seen d))
       (nth_error (World.devices (snd round)) 0)
     = Some ("uuid-inverter", 500).
Proof. cbv zeta. split; [left; reflexivity | split; reflexivity]. Qed.

Lemma upsert_overwrites_last_seen_witness :
  exists d',
    find (DeviceDiscovery.has_uuid "uuid-inverter")
      (World.devices
         (snd (DeviceDiscovery._process_device_info Demo.env
                 (Protocol.mk_device_info (Some "uuid-inverter") (Some "Inverter")
                    (Some "SIM-INV") None None (Some "1.0") None)
                 "10.0.0.1" (Some 47808) Demo.world)))
    = Some d'
    /\ Device.last_seen d' = 500
    /\ Device.id d' = 1
    /\ Device.uuid d' = "uuid-inverter".
Proof.
  apply (upsert_overwrites_last_seen Demo.env _ "10.0.0.1" (Some 47808)
           Demo.world "uuid-inverter" Demo.inverter);
    [reflexivity | discriminate | reflexivity].
Defined.

Section RoundFacts.
Import Py Protocol World DeviceDiscovery.
Import Invariant.

Variable E : env.

Lemma NoDup_snoc {A} (l : list A) (a : A) :
  NoDup l -> ~ In a l -> NoDup (l ++ [a]).
Proof.
  induction l as [|x l IH]; simpl; intros Hnd Hnin.
  - constructor; [intros [] | constructor].
  - inversion Hnd as [|? ? Hx Hl]; subst. constructor.
    + intros H. apply in_app_or in H as [H | [H | []]]; [now apply Hx|].
      apply Hnin. now left.
    + apply IH; [exact Hl | intros H; apply Hnin; now right].
Qed.

Lemma in_uuids_spec u l : in_uuids u l = true <-> In u l.
Proof.
  unfold in_uuids. rewrite existsb_exists. split.
  - intros (x & Hin & Heq). apply String.eqb_eq in Heq. now subst.
  - intros H. exists u. split; [exact H | apply String.eqb_refl].
Qed.

(** ** One response, then all of them *)

Lemma round_step_same acc w w' :
  devices w' = devices w -> events w' = events w -> round_step acc acc w w'.
Proof.
  intros Hd He. unfold round_step. rewrite Hd, He.
  split; [apply incl_refl|]. split; [auto|]. split; [|auto].
  exists []. split; [now rewrite app_nil_r | constructor].
Qed.

Lemma round_step_trans acc acc' acc'' w w' w'' :
  round_step acc acc' w w' -> round_step acc' acc'' w' w'' ->
  round_step acc acc'' w w''.
Proof.
  intros (Hi & Hn & (evs & He & Hf) & Hr) (Hi' & Hn' & (evs' & He' & Hf') & Hr').
  split; [eapply incl_tran; eassumption|]. split; [auto|]. split.
  - exists (evs ++ evs')%list. split.
    + now rewrite He', He, app_assoc.
    + apply Forall_app. now split.
  - intros i d Hd Hnin. apply Hr'; [|exact Hnin].
    apply Hr; [exact Hd|]. intros H. apply Hnin. now apply Hi'.
Qed.

Lemma process_response_step acc r w :
  round_step acc (fst (process_response E acc r w)) w
    (snd (process_response E acc r w)).
Proof.
  unfold process_response.
  destruct (device r) as [info|]; [|now apply round_step_same].
  destruct (Protocol.uuid info) as [[|c u]|] eqn:Hu;
    try now apply round_step_same.
  destruct (source_ip r) as [[|c' ip]|]; try now apply round_step_same.
  unfold bind.
  pose proof (process_device_info_cases E info (String c' ip) (source_port r) w)
    as Hcases.
  destruct (_process_device_info E info (String c' ip) (source_port r) w)
    as [[data|] w1]; simpl in Hcases.
  2:{ subst w1. now apply round_step_same. }
  pose proof (get_device_details_registry E data w1) as [Hdev Hev].
  destruct (_get_device_details E data w1) as [u0 w2]. simpl in Hdev, Hev |- *.
  unfold ret. simpl.
  destruct Hcases as (_ & _ & Hcase).
  assert (Hincl : incl (discovered_uuids acc) (discovered_uuids (acc ++ [data]))).
  { unfold discovered_uuids. rewrite map_app. now apply incl_appl, incl_refl. }
  assert (Hfresh : forall d, ~ In (Device.uuid d) (discovered_uuids (acc ++ [data])) ->
                             has_uuid (uuid data) d = false).
  { intros d Hnin. unfold has_uuid.
    destruct (String.eqb_spec (Device.uuid d) (uuid data)) as [Heq|]; [|reflexivity].
    exfalso. apply Hnin. unfold discovered_uuids. rewrite map_app.
    apply in_or_app. right. left. now symmetry. }
  split; [exact Hincl|].
  destruct Hcase as [(existing & Hf & Hd1 & He1) | (e & Hd1 & He1 & Hty)].
  - split; [|split].
    + rewrite Hdev, Hd1. now rewrite map_update_first.
    + exists []. split; [now rewrite Hev, He1, app_nil_r | constructor].
    + intros i d Hn Hnin. rewrite Hdev, Hd1.
      apply nth_error_update_first_other; [exact Hn | now apply Hfresh].
  - split; [|split].
    + intros Hnd. rewrite Hdev, Hd1, map_app. simpl.
      apply NoDup_snoc; [exact Hnd | apply fresh_id_new].
    + exists [e]. split; [now rewrite Hev, He1 | now constructor].
    + intros i d Hn Hnin. rewrite Hdev, Hd1.
      rewrite nth_error_app1; [exact Hn|]. apply nth_error_Some. congruence.
Qed.

Lemma process_responses_step responses : forall acc w,
  round_step acc (fst (process_responses E acc responses w)) w
    (snd (process_responses E acc responses w)).
Proof.
  induction responses as [|r rs IH]; intros acc w; simpl.
  - now apply round_step_same.
  - unfold bind.
    pose proof (process_response_step acc r w) as Hstep.
    destruct (process_response E acc r w) as [acc1 w1]. simpl in Hstep.
    eapply round_step_trans; [exact Hstep | apply IH].
Qed.

(** ** The liveness pass *)

Lemma add_events_loop {A} (f : A -> DeviceEvent.t) l : forall w,
  snd (for_each l (fun d => add_event (f d)) w)
  = set_events (events w ++ map f l) w.
Proof.
  induction l as [|x l IH]; intros w.
  - destruct w. unfold set_events. simpl. now rewrite app_nil_r.
  - rewrite for_each_cons_snd, IH. destruct w. unfold set_events. simpl.
    now rewrite <- app_assoc.
Qed.

Lemma update_device_status_result discovered w :
  let uuids := discovered_uuids discovered in
  let w' := snd (_update_device_status discovered w) in
  devices w' =
    map (fun d => if goes_offline uuids d then Device.set_is_online false d else d)
      (devices w)
  /\ events w' =
       (events w ++ map went_offline (filter (goes_offline uuids) (devices w)))%list.
Proof.
  unfold _update_device_status, bind, get, modify. simpl.
  rewrite add_events_loop. split; reflexivity.
Qed.

Lemma no_status_change_in_discovery device_id evs :
  Forall (fun e => DeviceEvent.event_type e = "discovery") evs ->
  filter (status_change_of device_id) evs = [].
Proof.
  induction 1 as [|e evs He _ IH]; [reflexivity|]. simpl.
  unfold status_change_of at 1. rewrite He. simpl.
  now rewrite andb_false_r.
Qed.

Lemma one_went_offline (p : Device.t -> bool) l d :
  NoDup (map Device.id l) -> In d l -> p d = true ->
  List.length
    (filter (status_change_of (Device.id d)) (map went_offline (filter p l)))
  = 1%nat.
Proof.
  assert (Hnone : forall l,
             ~ In (Device.id d) (map Device.id l) ->
             filter (status_change_of (Device.id d)) (map went_offline (filter p l))
             = []).
  { clear l. induction l as [|a l IH]; [reflexivity|]. simpl. intros Hnin.
    assert (Hl : ~ In (Device.id d) (map Device.id l)) by tauto.
    destruct (p a); simpl; [|now apply IH].
    unfold status_change_of at 1. simpl.
    destruct (Z.eqb_spec (Device.id a) (Device.id d)) as [Heq|]; [tauto|].
    simpl. now apply IH. }
  induction l as [|a l IH]; intros Hnd Hin Hp; [destruct Hin|].
  simpl in Hnd. inversion Hnd as [|? ? Ha Hl]; subst.
  destruct Hin as [-> | Hin].
  - simpl. rewrite Hp. simpl. unfold status_change_of at 1. simpl.
    rewrite Z.eqb_refl. simpl. now rewrite (Hnone l Ha).
  - simpl. destruct (p a); simpl; [|now apply IH].
    unfold status_change_of at 1. simpl.
    destruct (Z.eqb_spec (Device.id a) (Device.id d)) as [Heq|].
    + exfalso. apply Ha. rewrite Heq. now apply in_map.
    + simpl. now apply IH.
Qed.

(** C2. After a discovery round, every device that was online before the
    round and whose uuid is not among the uuids discovered in the round is
    offline, and exactly one [status_change] event was appended for it; a
    round without any response discovers nothing and leaves every device
    offline.  The ids of the devices are distinct, as primary keys are. *)
Theorem offline_after_round :
  forall responses w discovered w',
    NoDup (map Device.id (devices w)) ->
    discover_devices E responses w = (discovered, w') ->
    (forall i d,
        nth_error (devices w) i = Some d ->
        Device.is_online d = true ->
        ~ In (Device.uuid d) (discovered_uuids discovered) ->
        nth_error (devices w') i = Some (Device.set_is_online false d)
        /\ exists appended,
             events w' = (events w ++ appended)%list
             /\ List.length (filter (status_change_of (Device.id d)) appended)
                = 1%nat)
    /\ (responses = [] ->
        discovered = []
        /\ forall d, In d (devices w') -> Device.is_online d = false).
Proof.
  intros responses w discovered w' Hnd Hrun.
  unfold discover_devices, bind in Hrun.
  pose proof (process_responses_step responses [] w) as Hstep.
  destruct (process_responses E [] responses w) as [disc w1] eqn:Hloop.
  simpl in Hstep.
  pose proof (update_device_status_result disc w1) as [Hdev Hev].
  destruct (_update_device_status disc w1) as [u w2]. simpl in Hdev, Hev.
  unfold ret in Hrun. injection Hrun as <- <-.
  destruct Hstep as (_ & Hids & (evs & He1 & Hdisc) & Hrows).
  split.
  - intros i d Hn Hon Hnin.
    assert (Hgo : goes_offline (discovered_uuids disc) d = true).
    { unfold goes_offline. rewrite Hon. simpl. apply negb_true_iff.
      destruct (in_uuids (Device.uuid d) (discovered_uuids disc)) eqn:Hin;
        [|reflexivity].
      apply in_uuids_spec in Hin. contradiction. }
    specialize (Hrows i d Hn Hnin).
    split.
    + rewrite Hdev.
      rewrite (map_nth_error _ _ _ Hrows). now rewrite Hgo.
    + eexists. split.
      * rewrite Hev, He1, <- app_assoc. reflexivity.
      * rewrite filter_app, length_app.
        rewrite (no_status_change_in_discovery _ _ Hdisc). simpl.
        apply one_went_offline; [auto | | exact Hgo].
        now apply nth_error_In in Hrows.
  - intros ->. simpl in Hloop. unfold ret in Hloop. injection Hloop as <- <-.
    split; [reflexivity|].
    intros d Hin. rewrite Hdev in Hin. apply in_map_iff in Hin as (x & <- & _).
    unfold goes_offline. simpl. rewrite andb_true_r.
    destruct (Device.is_online x) eqn:Hx; [reflexivity | exact Hx].
Qed.

End RoundFacts.

Lemma offline_after_round_witness :
  let round :=
    DeviceDiscovery.discover_devices Demo.env [Demo.inverter_response]
      Demo.world in
  nth_error (World.devices (snd round)) 1
  = Some (Device.set_is_online false Demo.battery)
  /\ exists appended,
       World.events (snd round) = (World.events Demo.world ++ appended)%list
       /\ List.length
            (filter (DeviceDiscovery.status_change_of 2) appended) = 1%nat.
Proof.
  cbv zeta.
  refine (proj1 (offline_after_round Demo.env [Demo.inverter_response]
                   Demo.world _ _ _ _) 1%nat Demo.battery _ _ _).
  - repeat constructor; simpl; intuition discriminate.
  - apply surjective_pairing.
  - reflexivity.
  - reflexivity.
  - simpl. intros [H | []]. discriminate H.
Defined.

(* ================================================================== *)
(** * Further properties: context paths and point dictionaries *)
(* ================================================================== *)

Section ValidPathFacts.
Import Py ContextPathParser.

Lemma split_app a b :
  split "." (a ++ String "." b) = (split "." a ++ split "." b)%list.
Proof.
  unfold split. induction a as [|c a IH]; simpl.
  - now destruct (split_at "." b).
  - destruct (split_at "." (a ++ String "." b)) as [h t].
    destruct (split_at "." a) as [ha ta]. destruct (split_at "." b) as [hb tb].
    simpl in IH. injection IH as -> ->.
    now destruct (Ascii.eqb c ".").
Qed.

Lemma is_valid_str s :
  is_valid_context_path (PyStr s) = forallb str_nonempty (split "." s).
Proof.
  destruct s as [|c s]; [reflexivity|].
  unfold is_valid_context_path. rewrite rejected_nonempty. cbn [text].
  rewrite split_cons. simpl.
  now destruct (str_nonempty (first_segment (String c s))).
Qed.

(** [is_valid_context_path] refuses what is not a string; a string made of
    two strings joined by a dot is valid exactly when both are, so that a
    path is valid exactly when it is made of non-empty segments joined by
    single dots. *)
Theorem valid_path_composes :
  (forall v, isinstance_str v = false -> is_valid_context_path v = false)
  /\ (forall a b,
         is_valid_context_path (PyStr (a ++ "." ++ b))
         = is_valid_context_path (PyStr a) && is_valid_context_path (PyStr b))
  /\ (forall s, no_dot s = true ->
                is_valid_context_path (PyStr s) = str_nonempty s).
Proof.
  split; [|split].
  - intros v H. unfold is_valid_context_path, rejected. rewrite H.
    now rewrite orb_true_r.
  - intros a b. rewrite !is_valid_str.
    change (a ++ "." ++ b) with (a ++ String "." b).
    now rewrite split_app, forallb_app.
  - intros s H. rewrite is_valid_str. unfold split.
    rewrite (split_at_no_dot s H). simpl. apply andb_true_r.
Qed.

Lemma valid_path_composes_witness :
  is_valid_context_path (PyInt 3) = false
  /\ is_valid_context_path (PyStr "mppt") = true.
Proof.
  split.
  - apply (proj1 valid_path_composes). reflexivity.
  - apply (proj2 (proj2 valid_path_composes) "mppt"). reflexivity.
Defined.

Lemma forallb_split_no_dot s :
  Forall (fun y => no_dot y = true) (split "." s).
Proof.
  unfold split. induction s as [|c s IH]; simpl.
  - repeat constructor.
  - destruct (split_at "." s) as [h t]. inversion IH as [|? ? Hh Ht]; subst.
    destruct (Ascii.eqb c ".") eqn:Hc.
    + constructor; [reflexivity | now constructor].
    + constructor; [|exact Ht]. unfold no_dot in *. simpl.
      now rewrite Hc, Hh.
Qed.

(** A valid path parses into a non-empty context id and non-empty parts,
    none of them holding a dot, and it is the path built from them. *)
Theorem valid_path_parses :
  forall s,
    is_valid_context_path (PyStr s) = true ->
    let (context_id, parts) := parse_context_path (PyStr s) in
    str_nonempty context_id = true
    /\ no_dot context_id = true
    /\ (forall l, parts = Some l ->
                  l <> [] /\ Forall (fun y => str_nonempty y = true
                                              /\ no_dot y = true) l)
    /\ build_context_path context_id parts = s.
Proof.
  intros s Hv. rewrite is_valid_str in Hv.
  pose proof (forallb_split_no_dot s) as Hnd.
  pose proof (join_split s) as J.
  destruct s as [|c s]; [discriminate|].
  unfold parse_context_path. rewrite rejected_nonempty. cbn [text].
  rewrite split_cons in *.
  set (h := first_segment (String c s)) in *.
  destruct (snd (split_at "." (String c s))) as [|y t].
  - cbn [List.length Nat.leb]. unfold join in J. cbn [concat] in J.
    cbn [forallb] in Hv. apply andb_true_iff in Hv as [Hh _].
    inversion Hnd as [|? ? Hnh _]; subst.
    split; [reflexivity|]. split; [rewrite <- J; exact Hnh|].
    split; [intros l Hl; discriminate Hl | reflexivity].
  - cbn [List.length Nat.leb Nat.ltb hd tl].
    cbn [forallb] in Hv. apply andb_true_iff in Hv as [Hh Hrest].
    inversion Hnd as [|? ? Hnh Hnt]; subst.
    split; [exact Hh|]. split; [exact Hnh|]. split.
    + intros l [= <-]. split; [discriminate|].
      apply Forall_forall. intros x Hx. split.
      * change (forallb str_nonempty (y :: t) = true) in Hrest.
        rewrite forallb_forall in Hrest. now apply Hrest.
      * rewrite Forall_forall in Hnt. now apply Hnt.
    + rewrite build_is_join. exact J.
Qed.

Lemma valid_path_parses_witness :
  let (context_id, parts) := parse_context_path (PyStr "mppt.3") in
  str_nonempty context_id = true
  /\ no_dot context_id = true
  /\ (forall l, parts = Some l ->
                l <> [] /\ Forall (fun y => str_nonempty y = true
                                            /\ no_dot y = true) l)
  /\ build_context_path context_id parts = "mppt.3".
Proof. apply (valid_path_parses "mppt.3"). reflexivity. Defined.

End ValidPathFacts.

Section PointDictionaryFacts.
Import Py Protocol ContextDataHandler.

Lemma dict_get_set k k' v (d : dict) :
  dict_get k (dict_set k' v d) = if String.eqb k k' then Some v else dict_get k d.
Proof.
  unfold dict_get. induction d as [|[k0 v0] d IH]; simpl.
  - now destruct (String.eqb k k').
  - destruct (String.eqb_spec k' k0) as [-> | Hne]; simpl.
    + now destruct (String.eqb k k0).
    + rewrite IH. destruct (String.eqb_spec k k0) as [-> | ?]; [|reflexivity].
      destruct (String.eqb_spec k0 k'); [congruence | reflexivity].
Qed.

Lemma dict_get_cons k k0 v0 (d : dict) :
  dict_get k ((k0, v0) :: d) = if String.eqb k k0 then Some v0 else dict_get k d.
Proof. reflexivity. Qed.

Lemma dict_get_absent {A} k (d : list (string * A)) :
  ~ In k (map fst d) -> SunSpecModels.lookup k d = None.
Proof.
  induction d as [|[k0 v0] d IH]; simpl; [reflexivity|]. intros H.
  destruct (String.eqb_spec k k0) as [-> | ?]; [tauto|]. apply IH. tauto.
Qed.

(** [filter_points_by_ids] without a list of ids gives the dictionary
    back; with one, a point is in the result exactly when it is in the
    dictionary and its id in the list, with the value it had. *)
Theorem filter_points_lookup :
  forall points_data,
    filter_points_by_ids points_data None = points_data
    /\ forall ids k,
         dict_get k (filter_points_by_ids points_data (Some ids))
         = if existsb (String.eqb k) ids then dict_get k points_data else None.
Proof.
  intros points_data. split; [reflexivity|]. intros ids k.
  unfold dict_get. simpl.
  induction points_data as [|[k0 v0] d IH]; simpl.
  - now destruct (existsb (String.eqb k) ids).
  - destruct (existsb (String.eqb k0) ids) eqn:H0; simpl.
    + destruct (String.eqb_spec k k0) as [-> | ?]; [now rewrite H0 | exact IH].
    + destruct (String.eqb_spec k k0) as [-> | ?]; [now rewrite IH, H0 | exact IH].
Qed.

Lemma merge_overwrite_lookup new_data : forall base_data k,
  NoDup (keys new_data) ->
  dict_get k (merge_points_data base_data new_data true)
  = match dict_get k new_data with
    | Some v => Some v
    | None => dict_get k base_data
    end.
Proof.
  unfold merge_points_data.
  induction new_data as [|[k0 v0] rest IH]; intros base_data k Hnd; [reflexivity|].
  inversion Hnd as [|? ? Hk Hrest]; subst. cbn [fold_left fst snd orb].
  rewrite (IH _ _ Hrest), dict_get_set, dict_get_cons.
  destruct (String.eqb_spec k k0) as [-> | ?]; [|reflexivity].
  unfold dict_get. now rewrite (dict_get_absent k0 rest Hk).
Qed.

Lemma merge_keep_lookup new_data : forall base_data k,
  dict_get k (merge_points_data base_data new_data false)
  = match dict_get k base_data with
    | Some v => Some v
    | None => dict_get k new_data
    end.
Proof.
  unfold merge_points_data.
  induction new_data as [|[k0 v0] rest IH]; intros base_data k.
  - simpl. now destruct (dict_get k base_data).
  - cbn [fold_left fst snd orb]. rewrite IH, dict_get_cons. unfold has_key.
    destruct (dict_get k0 base_data) as [x|] eqn:H0; cbn [negb].
    + destruct (String.eqb_spec k k0) as [-> | ?]; [now rewrite H0 | reflexivity].
    + rewrite dict_get_set.
      destruct (String.eqb_spec k k0) as [-> | ?]; [now rewrite H0 | reflexivity].
Qed.

(** [merge_points_data]: with [overwrite] a point of the result has the
    value of the new data when they hold it and of the base otherwise;
    without it the base wins and the new data only fill what is missing. *)
Theorem merge_points_lookup :
  forall base_data new_data k,
    (NoDup (keys new_data) ->
     dict_get k (merge_points_data base_data new_data true)
     = match dict_get k new_data with
       | Some v => Some v
       | None => dict_get k base_data
       end)
    /\ dict_get k (merge_points_data base_data new_data false)
       = match dict_get k base_data with
         | Some v => Some v
         | None => dict_get k new_data
         end.
Proof.
  intros base_data new_data k. split.
  - apply merge_overwrite_lookup.
  - apply merge_keep_lookup.
Qed.

Lemma merge_points_lookup_witness :
  dict_get "W" (merge_points_data [("W", PyInt 1); ("Hz", PyInt 50)]
                  [("W", PyInt 2); ("A", PyInt 3)] true)
  = Some (PyInt 2).
Proof.
  apply (proj1 (merge_points_lookup [("W", PyInt 1); ("Hz", PyInt 50)]
                  [("W", PyInt 2); ("A", PyInt 3)] "W")).
  repeat constructor; simpl; intuition discriminate.
Defined.

Lemma extract_writable_fold points_data : forall acc k,
  NoDup (map fst points_data) ->
  dict_get k
    (fold_left
       (fun writable_points item =>
          let access := access_of (snd item) in
          if is_write_access access
          then dict_set (fst item) access writable_points
          else writable_points)
       points_data acc)
  = match SunSpecModels.lookup k points_data with
    | Some details =>
        if is_write_access (access_of details) then Some (access_of details)
        else dict_get k acc
    | None => dict_get k acc
    end.
Proof.
  induction points_data as [|[k0 d0] rest IH]; intros acc k Hnd; [reflexivity|].
  inversion Hnd as [|? ? Hk Hrest]; subst. cbn [fold_left fst snd].
  rewrite (IH _ _ Hrest). simpl.
  destruct (String.eqb_spec k k0) as [-> | Hne].
  - rewrite (dict_get_absent k0 rest Hk).
    destruct (is_write_access (access_of d0)); [|reflexivity].
    now rewrite dict_get_set, String.eqb_refl.
  - destruct (is_write_access (access_of d0)); [|reflexivity].
    rewrite dict_get_set.
    destruct (String.eqb_spec k k0); [contradiction | reflexivity].
Qed.

(** [extract_writable_points] keeps exactly the points whose details give
    the access W or RW, each with that access; a point without an
    [access] key counts as read-only and is left out. *)
Theorem extract_writable_lookup :
  forall points_data k,
    NoDup (map fst points_data) ->
    dict_get k (extract_writable_points points_data)
    = match SunSpecModels.lookup k points_data with
      | Some details =>
          match dict_get "access" details with
          | Some (PyStr a) =>
              if String.eqb a "W" || String.eqb a "RW" then Some (PyStr a)
              else None
          | _ => None
          end
      | None => None
      end.
Proof.
  intros points_data k Hnd. unfold extract_writable_points.
  rewrite (extract_writable_fold _ _ _ Hnd).
  destruct (SunSpecModels.lookup k points_data) as [details|]; [|reflexivity].
  unfold access_of.
  destruct (dict_get "access" details) as [[| | | |a| |]|]; reflexivity.
Qed.

Lemma extract_writable_lookup_witness :
  dict_get "WChaMax"
    (extract_writable_points
       [("W", [("access", PyStr "R")]);
        ("WChaMax", [("name", PyStr "Max"); ("access", PyStr "RW")]);
        ("Mn", [("name", PyStr "Manufacturer")])])
  = Some (PyStr "RW").
Proof.
  rewrite extract_writable_lookup; [reflexivity|].
  repeat constructor; simpl; intuition discriminate.
Defined.

End PointDictionaryFacts.

(* ================================================================== *)
(** * Further properties: coercion, validation and formatting *)
(* ================================================================== *)

Section CoercionFacts.
Import Py SunSpecModels.

Lemma float_of_float f : float (PyFloat f) = Ret f.
Proof. reflexivity. Qed.

Lemma int_of_int n : int (PyInt n) = Ret n.
Proof. reflexivity. Qed.

Lemma str_of_str s : str (PyStr s) = s.
Proof. reflexivity. Qed.

Lemma float_of_none : float PyNone = Raise TypeError.
Proof. reflexivity. Qed.

Lemma is_none_true v : is_none v = true -> v = PyNone.
Proof. now destruct v. Qed.

Opaque float int str.

(** Split on every test of the declared type in the goal. *)
Ltac by_type :=
  repeat match goal with
         | |- context [String.eqb (ptype ?i) ?b] =>
             destruct (String.eqb (ptype i) b)
         | |- context [in_strs (ptype ?i) ?l] =>
             destruct (in_strs (ptype i) l)
         end.

(** [parse_value] is idempotent: a value it returns is returned unchanged
    when parsed again for the same point. *)
Theorem parse_value_idempotent :
  forall model_id point_id value parsed,
    parse_value model_id point_id value = Ret parsed ->
    parse_value model_id point_id parsed = Ret parsed.
Proof.
  intros model_id point_id value parsed H. unfold parse_value in *.
  destruct (get_point_info model_id point_id) as [info|]; [|exact eq_refl].
  revert H.
  by_type;
    try (destruct (float value) as [f|[]] eqn:Hf);
    try (destruct (int value) as [n|[]] eqn:Hn);
    cbn [try_except_value_type bind]; intros H; try discriminate H;
    injection H as <-;
    rewrite ?float_of_float, ?int_of_int, ?str_of_str, ?Hf, ?Hn;
    reflexivity.
Qed.

Lemma parse_value_idempotent_witness :
  parse_value 101 "W" (PyFloat (S754_finite false 6755399441055744 (-52)))
  = Ret (PyFloat (S754_finite false 6755399441055744 (-52))).
Proof.
  apply (parse_value_idempotent 101 "W" (PyStr "1.5")). vm_compute. reflexivity.
Defined.

(** Validation and coercion agree.  A value that [validate_value] accepts
    is coerced by [parse_value]: to a float for a float point, to an
    integer that is not negative for an unsigned point.  A value it
    rejects for a point that is not unsigned comes back from [parse_value]
    as it was.  And one raises exactly when the other does. *)
Theorem validate_then_parse :
  forall model_id point_id value info,
    get_point_info model_id point_id = Some info ->
    (validate_value model_id point_id value = Ret true ->
     (ptype info = "float" ->
      exists f, float value = Ret f
                /\ parse_value model_id point_id value = Ret (PyFloat f))
     /\ (ptype info <> "float" ->
         in_strs (ptype info) ["uint16"; "uint32"; "uint64"] = true ->
         exists n, int value = Ret n /\ 0 <= n
                   /\ parse_value model_id point_id value = Ret (PyInt n)))
    /\ (validate_value model_id point_id value = Ret false ->
        in_strs (ptype info) ["uint16"; "uint32"; "uint64"] = false ->
        parse_value model_id point_id value = Ret value)
    /\ (forall e, validate_value model_id point_id value = Raise e <->
                  parse_value model_id point_id value = Raise e).
Proof.
  intros model_id point_id value info Hinfo.
  unfold validate_value, parse_value. rewrite Hinfo.
  split; [|split].
  - intros Hv. split.
    + intros Ht. rewrite Ht in *. cbn [String.eqb Ascii.eqb Bool.eqb] in *.
      destruct (float value) as [f|[]];
        cbn [try_except_value_type bind] in *; try discriminate.
      now exists f.
    + intros Hnf Hu.
      destruct (String.eqb_spec (ptype info) "float") as [Heq | Hneq];
        [contradiction|].
      rewrite Hu in *.
      destruct (int value) as [n|[]];
        cbn [try_except_value_type bind] in *; try discriminate.
      exists n. injection Hv as Hv. apply negb_true_iff, Z.ltb_ge in Hv.
      repeat split; assumption.
  - intros Hv Hu. rewrite Hu in *. revert Hv.
    by_type;
      try (destruct (float value) as [f|[]]);
      try (destruct (int value) as [n|[]]);
      cbn [try_except_value_type bind]; intros Hv; try discriminate Hv;
      reflexivity.
  - intros e.
    by_type;
      try (destruct (float value) as [f|[]]);
      try (destruct (int value) as [n|[]]);
      cbn [try_except_value_type bind]; split; intros H;
      try discriminate H; try exact H; injection H as <-; reflexivity.
Qed.

Lemma validate_then_parse_witness :
  exists n, int (PyStr "12") = Ret n /\ 0 <= n
            /\ parse_value 160 "ID" (PyStr "12") = Ret (PyInt n).
Proof.
  apply (proj1 (validate_then_parse 160 "ID" (PyStr "12")
                  (pt "ID" "uint16" None "MPPT ID" (Some "R")) eq_refl));
    [vm_compute; reflexivity | discriminate | reflexivity].
Defined.

(** For a float point, formatting does not depend on whether the value was
    parsed first: what [parse_value] returns formats like the raw value. *)
Theorem format_after_parse :
  forall model_id point_id value parsed info,
    get_point_info model_id point_id = Some info ->
    ptype info = "float" ->
    parse_value model_id point_id value = Ret parsed ->
    format_value model_id point_id parsed = format_value model_id point_id value.
Proof.
  intros model_id point_id value parsed info Hinfo Ht H.
  unfold parse_value, format_value in *. rewrite Hinfo, Ht in *.
  cbn [String.eqb Ascii.eqb Bool.eqb] in *.
  destruct (float value) as [f|[]] eqn:Hf;
    cbn [try_except_value_type bind] in H;
    try discriminate H; injection H as <-; rewrite ?Hf; try reflexivity.
  destruct (is_none value) eqn:Hn.
  - apply is_none_true in Hn. subst value. rewrite float_of_none in Hf.
    discriminate.
  - cbn [is_none]. now rewrite float_of_float.
Qed.

Lemma format_after_parse_witness :
  format_value 101 "W" (PyFloat (S754_finite false 6755399441055744 (-52)))
  = format_value 101 "W" (PyStr "1.5").
Proof.
  apply (format_after_parse 101 "W" (PyStr "1.5") _
           (pt "AC Power" "float" (Some "W") "AC Power" (Some "R")));
    [reflexivity | reflexivity | vm_compute; reflexivity].
Defined.

Transparent float int str.

End CoercionFacts.

(* ================================================================== *)
(** * Further properties: the device table through a discovery round *)
(* ================================================================== *)

Section DeviceTableFacts.
Import Py Protocol World DeviceDiscovery Invariant RoundInvariant.

Variable E : env.

(** The upsert of a device already in the registry brings it online and
    appends no event, whether it was online or offline before: the test
    for a status change reads the flag after it has been overwritten. *)
Theorem upsert_known_device :
  forall info ip port w u existing,
    Protocol.uuid info = Some u ->
    u <> "" ->
    find (has_uuid u) (devices w) = Some existing ->
    let w' := snd (_process_device_info E info ip port w) in
    events w' = events w
    /\ map identity (devices w') = map identity (devices w)
    /\ exists d', find (has_uuid u) (devices w') = Some d'
                  /\ Device.is_online d' = true
                  /\ Device.ip_address d' = ip.
Proof.
  intros info ip port w u existing Hu Hne Hf.
  unfold _process_device_info. rewrite Hu.
  destruct u as [|c u]; [congruence|].
  unfold bind, utcnow, get. simpl. rewrite Hf. simpl.
  split; [reflexivity|]. split.
  - now apply map_update_first.
  - rewrite find_update_first_same by (intros; apply has_uuid_assign).
    rewrite Hf. simpl. eexists. repeat split.
Qed.

(** A device whose uuid is not in the registry is registered: one row is
    added at the end, online, with the uuid, a new id and the time of the
    response, and one discovery event bearing that id is appended. *)
Theorem register_new_device :
  forall info ip port w u,
    Protocol.uuid info = Some u ->
    u <> "" ->
    find (has_uuid u) (devices w) = None ->
    let w' := snd (_process_device_info E info ip port w) in
    exists d e,
      devices w' = (devices w ++ [d])%list
      /\ events w' = (events w ++ [e])%list
      /\ Device.uuid d = u
      /\ ~ In (Device.id d) (map Device.id (devices w))
      /\ Device.is_online d = true
      /\ Device.last_seen d = clock E (tick w)
      /\ DeviceEvent.device_id e = Device.id d
      /\ DeviceEvent.event_type e = "discovery".
Proof.
  intros info ip port w u Hu Hne Hf.
  unfold _process_device_info. rewrite Hu.
  destruct u as [|c u]; [congruence|].
  unfold bind, utcnow, get. simpl. rewrite Hf. simpl.
  eexists. eexists. repeat split. simpl. apply fresh_id_new.
Qed.

(** ** Through the responses *)

Lemma process_device_info_online info ip port w data :
  fst (_process_device_info E info ip port w) = Some data ->
  is_online data = true.
Proof.
  unfold _process_device_info.
  destruct (Protocol.uuid info) as [[|c u]|]; try discriminate.
  unfold bind, utcnow, get. simpl.
  destruct (find (has_uuid (String c u)) (devices w)); simpl;
    intros [= <-]; reflexivity.
Qed.

Lemma in_update_first_unique u (f : Device.t -> Device.t) l x :
  NoDup (map Device.uuid l) ->
  In x (update_first (has_uuid u) f l) ->
  (In x l /\ has_uuid u x = false)
  \/ (exists y, In y l /\ has_uuid u y = true /\ x = f y).
Proof.
  induction l as [|a l IH]; simpl; intros Hnd Hin; [destruct Hin|].
  inversion Hnd as [|? ? Ha Hl]; subst.
  destruct (has_uuid u a) eqn:Hua.
  - destruct Hin as [<- | Hin].
    + right. exists a. auto.
    + left. split; [now right|].
      unfold has_uuid in *. apply String.eqb_eq in Hua.
      destruct (String.eqb_spec (Device.uuid x) u) as [Heq|]; [|reflexivity].
      exfalso. apply Ha. rewrite Hua, <- Heq. now apply in_map.
  - destruct Hin as [<- | Hin].
    + left. split; [now left | exact Hua].
    + destruct (IH Hl Hin) as [[H1 H2] | (y & H1 & H2 & H3)].
      * left. split; [now right | exact H2].
      * right. exists y. split; [now right | auto].
Qed.

Lemma round_keeps_same acc w w' :
  devices w' = devices w -> round_keeps acc acc w w'.
Proof.
  intros Hd. unfold round_keeps, discovered_online. rewrite Hd. split.
  - exists []. now rewrite app_nil_r.
  - auto.
Qed.

Lemma round_keeps_trans acc acc' acc'' w w' w'' :
  round_keeps acc acc' w w' -> round_keeps acc' acc'' w' w'' ->
  round_keeps acc acc'' w w''.
Proof.
  intros [[m1 H1] K1] [[m2 H2] K2]. split.
  - exists (m1 ++ m2)%list. now rewrite H2, H1, app_assoc.
  - intros Hnd. destruct (K1 Hnd) as [Hnd' D1]. destruct (K2 Hnd') as [Hnd'' D2].
    split; [exact Hnd'' | auto].
Qed.

Lemma process_device_info_devices info ip port w data :
  fst (_process_device_info E info ip port w) = Some data ->
  devices (snd (_process_device_info E info ip port w))
  = match find (has_uuid (uuid data)) (devices w) with
    | Some _ => update_first (has_uuid (uuid data)) (assign data) (devices w)
    | None =>
        (devices w ++ [new_device (fresh_id (map Device.id (devices w))) data])%list
    end.
Proof.
  unfold _process_device_info.
  destruct (Protocol.uuid info) as [[|c u]|]; try discriminate.
  unfold bind, utcnow, get. simpl.
  destruct (find (has_uuid (String c u)) (devices w)) eqn:Hf; simpl;
    intros [= <-]; simpl; rewrite Hf; reflexivity.
Qed.

Lemma process_response_keeps acc r w :
  round_keeps acc (fst (process_response E acc r w)) w
    (snd (process_response E acc r w)).
Proof.
  unfold process_response.
  destruct (device r) as [info|]; [|now apply round_keeps_same].
  destruct (Protocol.uuid info) as [[|c u]|] eqn:Hu;
    try now apply round_keeps_same.
  destruct (source_ip r) as [[|c' ip]|]; try now apply round_keeps_same.
  unfold bind.
  pose proof (process_device_info_cases E info (String c' ip) (source_port r) w)
    as Hcases.
  pose proof (process_device_info_online info (String c' ip) (source_port r) w)
    as Honline.
  pose proof (process_device_info_devices info (String c' ip) (source_port r) w)
    as Hdevices.
  destruct (_process_device_info E info (String c' ip) (source_port r) w)
    as [[data|] w1]; simpl in Hcases, Honline, Hdevices.
  2:{ subst w1. now apply round_keeps_same. }
  specialize (Honline data eq_refl). specialize (Hdevices data eq_refl).
  clear Hcases.
  pose proof (get_device_details_registry E data w1) as [Hdev _].
  destruct (_get_device_details E data w1) as [u0 w2]. simpl in Hdev |- *.
  unfold ret. simpl.
  assert (Hsplit : forall x, In x (discovered_uuids (acc ++ [data])) ->
                             In x (discovered_uuids acc) \/ x = uuid data).
  { intros x Hx. unfold discovered_uuids in *. rewrite map_app in Hx.
    apply in_app_or in Hx as [Hx | [Hx | []]]; auto. }
  unfold round_keeps, discovered_online. rewrite Hdev, Hdevices.
  destruct (find (has_uuid (uuid data)) (devices w)) as [existing|] eqn:Hf.
  - split.
    + exists []. rewrite app_nil_r. now apply map_update_first.
    + intros Hnd. split; [now rewrite map_update_first|].
      intros Hacc d Hin Hu'.
      destruct (in_update_first_unique _ _ _ _ Hnd Hin)
        as [[Hold Hnot] | (y & _ & _ & ->)]; [|exact Honline].
      apply Hacc; [exact Hold|].
      destruct (Hsplit _ Hu') as [? | Heq]; [assumption|].
      unfold has_uuid in Hnot. rewrite Heq, String.eqb_refl in Hnot.
      discriminate.
  - assert (Hfresh : forall d, In d (devices w) -> Device.uuid d <> uuid data).
    { intros d Hin Heq.
      pose proof (find_none _ _ Hf d Hin) as Hn. unfold has_uuid in Hn.
      rewrite Heq, String.eqb_refl in Hn. discriminate. }
    split.
    + eexists. rewrite map_app. reflexivity.
    + intros Hnd. split.
      * rewrite map_app. simpl. apply NoDup_snoc; [exact Hnd|].
        intros Hin. apply in_map_iff in Hin as (d & Heq & Hin).
        now apply (Hfresh d Hin).
      * intros Hacc d Hin Hu'. apply in_app_or in Hin as [Hin | [<- | []]];
          [|exact Honline].
        apply Hacc; [exact Hin|].
        destruct (Hsplit _ Hu') as [? | Heq]; [assumption|].
        now apply Hfresh in Hin.
Qed.

Lemma process_responses_keeps responses : forall acc w,
  round_keeps acc (fst (process_responses E acc responses w)) w
    (snd (process_responses E acc responses w)).
Proof.
  induction responses as [|r rs IH]; intros acc w; simpl.
  - now apply round_keeps_same.
  - unfold bind.
    pose proof (process_response_keeps acc r w) as Hstep.
    destruct (process_response E acc r w) as [acc1 w1]. simpl in Hstep.
    eapply round_keeps_trans; [exact Hstep | apply IH].
Qed.

(** A discovery round never reassigns an identity: the rows keep their id
    and uuid and their place, rows are only added, and ids and uuids that
    were distinct before the round are distinct after it. *)
Theorem round_keeps_identities :
  forall responses w discovered w',
    discover_devices E responses w = (discovered, w') ->
    (exists more,
        map identity (devices w') = (map identity (devices w) ++ more)%list)
    /\ (NoDup (map Device.uuid (devices w)) -> NoDup (map Device.uuid (devices w')))
    /\ (NoDup (map Device.id (devices w)) -> NoDup (map Device.id (devices w'))).
Proof.
  intros responses w discovered w' Hrun.
  unfold discover_devices, bind in Hrun.
  pose proof (process_responses_keeps responses [] w) as [Hmore Hkeep].
  pose proof (process_responses_step E responses [] w) as (_ & Hids & _).
  destruct (process_responses E [] responses w) as [disc w1].
  simpl in Hmore, Hkeep, Hids.
  pose proof (update_device_status_result disc w1) as [Hdev _].
  destruct (_update_device_status disc w1) as [u w2]. simpl in Hdev.
  unfold ret in Hrun. injection Hrun as <- <-.
  assert (Hid : forall {B} (g : Device.t -> B),
             (forall d, g (Device.set_is_online false d) = g d) ->
             map g (devices w2) = map g (devices w1)).
  { intros B g Hg. rewrite Hdev, map_map. apply map_ext.
    intros d. now destruct (goes_offline (discovered_uuids disc) d). }
  split; [|split].
  - rewrite (Hid _ identity) by reflexivity. exact Hmore.
  - intros Hnd. rewrite (Hid _ Device.uuid) by reflexivity. now apply Hkeep.
  - intros Hnd. rewrite (Hid _ Device.id) by reflexivity. now apply Hids.
Qed.

(** After a discovery round whose registry had distinct uuids, the online
    devices are exactly the discovered ones. *)
Theorem online_iff_discovered :
  forall responses w discovered w',
    NoDup (map Device.uuid (devices w)) ->
    discover_devices E responses w = (discovered, w') ->
    forall d, In d (devices w') ->
              (Device.is_online d = true
               <-> In (Device.uuid d) (discovered_uuids discovered)).
Proof.
  intros responses w discovered w' Hnd Hrun d Hin.
  unfold discover_devices, bind in Hrun.
  pose proof (process_responses_keeps responses [] w) as [_ Hkeep].
  destruct (process_responses E [] responses w) as [disc w1]. simpl in Hkeep.
  destruct (Hkeep Hnd) as [_ Honline].
  assert (Hacc : discovered_online disc w1).
  { apply Honline. intros x _ []. }
  pose proof (update_device_status_result disc w1) as [Hdev _].
  destruct (_update_device_status disc w1) as [u w2]. simpl in Hdev.
  unfold ret in Hrun. injection Hrun as <- <-.
  rewrite Hdev in Hin. apply in_map_iff in Hin as (x & <- & Hx).
  unfold goes_offline.
  destruct (in_uuids (Device.uuid x) (discovered_uuids disc)) eqn:Hu.
  - rewrite andb_false_r. apply in_uuids_spec in Hu.
    split; [auto | intros _; now apply Hacc].
  - rewrite andb_true_r.
    assert (Hnot : ~ In (Device.uuid x) (discovered_uuids disc)).
    { intros H. apply in_uuids_spec in H. congruence. }
    destruct (Device.is_online x) eqn:Hon; simpl; split; intros H;
      try discriminate; try contradiction; congruence.
Qed.

End DeviceTableFacts.

Lemma upsert_known_device_witness :
  let w := World.set_devices
             [Device.set_is_online false Demo.inverter; Demo.battery]
             Demo.world in
  let w' := snd (DeviceDiscovery._process_device_info Demo.env
                   (Protocol.mk_device_info (Some "uuid-inverter") None None None None
                      None None)
                   "10.0.0.9" None w) in
  World.events w' = World.events w
  /\ map RoundInvariant.identity (World.devices w') = map RoundInvariant.identity (World.devices w)
  /\ exists d', find (DeviceDiscovery.has_uuid "uuid-inverter") (World.devices w') = Some d'
                /\ Device.is_online d' = true
                /\ Device.ip_address d' = "10.0.0.9".
Proof.
  cbv zeta.
  apply (upsert_known_device Demo.env _ "10.0.0.9" None _ "uuid-inverter"
           (Device.set_is_online false Demo.inverter));
    [reflexivity | discriminate | reflexivity].
Defined.

Lemma register_new_device_witness :
  let w' := snd (DeviceDiscovery._process_device_info Demo.env
                   (Protocol.mk_device_info (Some "uuid-meter") None None None None
                      None None)
                   "10.0.0.3" None Demo.world) in
  exists d e,
    World.devices w' = (World.devices Demo.world ++ [d])%list
    /\ World.events w' = (World.events Demo.world ++ [e])%list
    /\ Device.uuid d = "uuid-meter"
    /\ ~ In (Device.id d) (map Device.id (World.devices Demo.world))
    /\ Device.is_online d = true
    /\ Device.last_seen d = 500
    /\ DeviceEvent.device_id e = Device.id d
    /\ DeviceEvent.event_type e = "discovery".
Proof.
  cbv zeta.
  apply (register_new_device Demo.env _ "10.0.0.3" None Demo.world "uuid-meter");
    [reflexivity | discriminate | reflexivity].
Defined.

Lemma online_iff_discovered_witness :
  Forall (fun d => Device.is_online d = true
                   <-> In (Device.uuid d)
                         (DeviceDiscovery.discovered_uuids
                            (fst (DeviceDiscovery.discover_devices Demo.env
                                    [Demo.inverter_response] Demo.world))))
    (World.devices
       (snd (DeviceDiscovery.discover_devices Demo.env
               [Demo.inverter_response] Demo.world))).
Proof.
  apply Forall_forall. intros d Hin.
  apply (online_iff_discovered Demo.env [Demo.inverter_response] Demo.world
           _ _ ltac:(repeat constructor; simpl; intuition discriminate)
           (surjective_pairing _) d Hin).
Defined.

Lemma round_keeps_identities_witness :
  NoDup (map Device.uuid
           (World.devices
              (snd (DeviceDiscovery.discover_devices Demo.env
                      [Demo.inverter_response] Demo.world)))).
Proof.
  apply (proj1 (proj2 (round_keeps_identities Demo.env [Demo.inverter_response]
                         Demo.world _ _ (surjective_pairing _)))).
  repeat constructor; simpl; intuition discriminate.
Defined.

(* ================================================================== *)
(** * Further properties: writes that fail, and the two write entry points *)
(* ================================================================== *)

Section WriteFailureFacts.
Import Py Protocol World DeviceManager DeviceReads.

Variable E : env.

Lemma store_unchanged_refl w : store_unchanged w w.
Proof. repeat split. Qed.

(** A write that does not succeed changes nothing in the store and reads
    no clock: whatever the reason (guard, no response, response without
    an [mcp] object, unsuccessful response), devices, contexts, points and
    events are as before.  This holds for both write entry points. *)
Theorem failed_write_changes_nothing :
  (forall w device_id context_id points_data r w',
      write_device_context E device_id context_id points_data w = (r, w') ->
      rsuccess r = false ->
      store_unchanged w w' /\ tick w' = tick w)
  /\ (forall w device_id context_id point_id value w',
         write_point_value E device_id context_id point_id value w = (false, w') ->
         store_unchanged w w' /\ tick w' = tick w).
Proof.
  split.
  - intros w device_id context_id points_data r w' Hrun Hr.
    unfold write_device_context, bind, get in Hrun.
    destruct (find (has_id device_id) (devices w)) as [device|];
      [|injection Hrun as <- <-; split; [apply store_unchanged_refl | reflexivity]].
    destruct (negb (Device.is_online device));
      [injection Hrun as <- <-; split; [apply store_unchanged_refl | reflexivity]|].
    destruct (find (fun c => Context.id c =? context_id) (contexts w)) as [context|];
      [|injection Hrun as <- <-; split; [apply store_unchanged_refl | reflexivity]].
    destruct (validate (points w) (Context.id context) points_data [])
      as [|item rest];
      [injection Hrun as <- <-; split; [apply store_unchanged_refl | reflexivity]|].
    unfold send_message in Hrun. simpl in Hrun.
    destruct (net E (List.length (sent w)) _) as [[[body|]]|];
      try (injection Hrun as <- <-; split; [repeat split | reflexivity]).
    destruct (truthy (DeviceDiscovery.or_default (success body) (PyBool false))).
    + exfalso. revert Hrun Hr.
      destruct (bind _ _ _) as [u w1].
      unfold ret. intros [= <- _]. discriminate.
    + injection Hrun as <- <-. split; [repeat split | reflexivity].
  - intros w device_id context_id point_id value w' Hrun.
    unfold write_point_value, bind, get in Hrun.
    destruct (find (has_id device_id) (devices w)) as [device|];
      [|injection Hrun as <-; split; [apply store_unchanged_refl | reflexivity]].
    destruct (negb (Device.is_online device));
      [injection Hrun as <-; split; [apply store_unchanged_refl | reflexivity]|].
    destruct (find (DeviceDiscovery.is_context device_id context_id) (contexts w))
      as [context|];
      [|injection Hrun as <-; split; [apply store_unchanged_refl | reflexivity]].
    destruct (find (in_context (Context.id context) point_id) (points w))
      as [point|];
      [|injection Hrun as <-; split; [apply store_unchanged_refl | reflexivity]].
    destruct (negb (writable point));
      [injection Hrun as <-; split; [apply store_unchanged_refl | reflexivity]|].
    unfold send_message in Hrun. simpl in Hrun.
    destruct (net E (List.length (sent w)) _) as [[[body|]]|];
      try (injection Hrun as <-; split; [repeat split | reflexivity]).
    destruct (truthy (DeviceDiscovery.or_default (success body) (PyBool false)));
      [discriminate Hrun|].
    injection Hrun as <-. split; [repeat split | reflexivity].
Qed.

(** The two write entry points agree.  When the path given to
    [write_point_value] and the key given to [write_device_context] name
    the same context, writing one point through either has the same
    outcome, sends the same message and leaves the same devices, contexts
    and points, with the same clock readings. *)
Theorem write_entry_points_agree :
  forall w device_id context point_id value,
    find (DeviceDiscovery.is_context device_id (Context.context_id context))
      (contexts w) = Some context ->
    find (fun c => Context.id c =? Context.id context) (contexts w)
    = Some context ->
    let one :=
      write_point_value E device_id (Context.context_id context) point_id value w in
    let many :=
      write_device_context E device_id (Context.id context)
        [(point_id, value)] w in
    rsuccess (fst many) = fst one
    /\ devices (snd one) = devices (snd many)
    /\ contexts (snd one) = contexts (snd many)
    /\ points (snd one) = points (snd many)
    /\ sent (snd one) = sent (snd many)
    /\ tick (snd one) = tick (snd many).
Proof.
  intros w device_id context point_id value Hpath Hkey. cbv zeta.
  unfold write_point_value, write_device_context, bind, get.
  rewrite Hpath, Hkey.
  destruct (find (has_id device_id) (devices w)) as [device|];
    [|repeat split].
  destruct (negb (Device.is_online device)); [repeat split|].
  cbn [validate].
  destruct (find (in_context (Context.id context) point_id) (points w))
    as [point|] eqn:Hpoint; [|repeat split].
  destruct (negb (writable point)); [repeat split|].
  cbn [dict_set]. unfold send_message. simpl.
  destruct (net E (List.length (sent w)) _) as [[[body|]]|]; try (repeat split).
  destruct (truthy (DeviceDiscovery.or_default (success body) (PyBool false)));
    [|repeat split].
  unfold store_point, bind, get, utcnow, modify, add_event, ret. simpl.
  rewrite Hpoint. simpl. repeat split.
  all: destruct (truthy _); try reflexivity;
    unfold bind, get, utcnow, modify, ret; simpl; rewrite Hpoint; reflexivity.
Qed.

End WriteFailureFacts.

Lemma failed_write_changes_nothing_witness :
  let w := World.set_devices
             [Demo.inverter; Device.set_is_online false Demo.battery]
             Demo.world in
  DeviceReads.store_unchanged w
    (snd (DeviceManager.write_device_context Demo.env 2 1
            [("WChaMax", Py.PyInt 200)] w))
  /\ DeviceReads.store_unchanged Demo.world
       (snd (DeviceManager.write_point_value Demo.env 2 "storage1" "W"
               (Py.PyInt 3) Demo.world)).
Proof.
  cbv zeta. split.
  - eapply (proj1 (failed_write_changes_nothing Demo.env));
      [apply surjective_pairing | reflexivity].
  - apply (proj2 (failed_write_changes_nothing Demo.env) Demo.world 2
             "storage1" "W" (Py.PyInt 3)).
    vm_compute. reflexivity.
Defined.

Lemma write_entry_points_agree_witness :
  World.points
    (snd (DeviceManager.write_point_value Demo.env 2 "storage1" "WChaMax"
            (Py.PyInt 200) Demo.world))
  = World.points
      (snd (DeviceManager.write_device_context Demo.env 2 1
              [("WChaMax", Py.PyInt 200)] Demo.world)).
Proof.
  apply (write_entry_points_agree Demo.env Demo.world 2 Demo.storage "WChaMax"
           (Py.PyInt 200)); reflexivity.
Defined.

(* ================================================================== *)
(** * Further properties: refreshing and reading *)
(* ================================================================== *)

Section LastRowFacts.
Import World.
Context {A : Type}.
Implicit Types (p q : A -> bool) (f : A -> A) (l : list A).

Lemma find_last_none p l : find_last p l = None <-> existsb p l = false.
Proof.
  induction l as [|a l IH]; simpl; [tauto|].
  destruct (find_last p l) as [y|].
  - assert (existsb p l <> false) as Hex
        by (intros H; apply IH in H; discriminate).
    destruct (existsb p l); [|congruence].
    rewrite orb_true_r. split; discriminate.
  - rewrite (proj1 IH eq_refl), orb_false_r.
    destruct (p a); split; congruence.
Qed.

Lemma find_last_true p l x : find_last p l = Some x -> p x = true.
Proof.
  induction l as [|a l IH]; simpl; [discriminate|].
  destruct (find_last p l) as [y|].
  - intros [= ->]. now apply IH.
  - destruct (p a) eqn:Ha; [|discriminate]. now intros [= <-].
Qed.

(** A row either stays, or it is the last row selected and is replaced by
    its image. *)
Lemma nth_error_update_last p f l : forall i x,
  nth_error l i = Some x ->
  nth_error (update_last p f l) i = Some x
  \/ (find_last p l = Some x /\ nth_error (update_last p f l) i = Some (f x)).
Proof.
  induction l as [|a l IH]; intros [|i] x H; simpl in *; try discriminate.
  - injection H as ->.
    destruct (existsb p l) eqn:Hex; [now left|].
    apply find_last_none in Hex. rewrite Hex.
    destruct (p x); [right; split; reflexivity | now left].
  - destruct (existsb p l) eqn:Hex; simpl.
    + destruct (IH i x H) as [Hs | [Hl Hs]]; [now left|].
      right. now rewrite Hl.
    + left. now destruct (p a).
Qed.

Lemma find_last_update_last_same p f l :
  (forall x, p (f x) = p x) ->
  find_last p (update_last p f l) = option_map f (find_last p l).
Proof.
  intros Hf. induction l as [|a l IH]; simpl; [reflexivity|].
  destruct (existsb p l) eqn:Hex; simpl.
  - rewrite IH. destruct (find_last p l) as [y|] eqn:Hl; [reflexivity|].
    apply find_last_none in Hl. congruence.
  - apply find_last_none in Hex. rewrite Hex.
    destruct (p a) eqn:Ha; simpl; rewrite Hex.
    + now rewrite Hf, Ha.
    + now rewrite Ha.
Qed.

Lemma find_last_update_last_disjoint p q f l :
  (forall x, q (f x) = q x) ->
  (forall x, p x = true -> q x = false) ->
  find_last q (update_last p f l) = find_last q l.
Proof.
  intros Hf Hd. induction l as [|a l IH]; simpl; [reflexivity|].
  destruct (existsb p l); simpl.
  - now rewrite IH.
  - destruct (p a) eqn:Ha; simpl; [|reflexivity].
    destruct (find_last q l); [reflexivity|].
    now rewrite Hf, (Hd a Ha).
Qed.

Lemma Forall2_update_first {B} (R : B -> A -> Prop) p f :
  (forall x y, R x y -> R x (f y)) ->
  forall (old : list B) l, Forall2 R old l -> Forall2 R old (update_first p f l).
Proof.
  intros Hf old l H. induction H as [|x y old l Hxy H IH]; simpl; [constructor|].
  destruct (p y); constructor; auto.
Qed.

Lemma Forall2_update_last {B} (R : B -> A -> Prop) p f :
  (forall x y, R x y -> R x (f y)) ->
  forall (old : list B) l, Forall2 R old l -> Forall2 R old (update_last p f l).
Proof.
  intros Hf old l H. induction H as [|x y old l Hxy H IH]; simpl; [constructor|].
  destruct (existsb p l); [constructor; auto|].
  destruct (p y); constructor; auto.
Qed.

Lemma Forall2_refl_on (R : A -> A -> Prop) l :
  (forall x, R x x) -> Forall2 R l l.
Proof. intros H. induction l; constructor; auto. Qed.

End LastRowFacts.

Section RefreshFacts.
Import Py Protocol World DeviceManager DeviceReads.

Variable E : env.

Lemma opt_str_eqb_eq o s : opt_str_eqb o s = true <-> o = Some s.
Proof.
  destruct o as [x|]; simpl; [|split; discriminate].
  rewrite String.eqb_eq. split; congruence.
Qed.

Lemma update_point_points cid k x w :
  points (snd (update_point E cid (k, x) w)) =
    match find_last (in_context cid k) (points w) with
    | Some point =>
        if negb (is_none x) && negb (opt_str_eqb (DataPoint.value point) (str x))
        then update_last (in_context cid k)
               (DataPoint.set_value (Some (str x)) (Some (clock E (tick w))))
               (points w)
        else points w
    | None => points w
    end.
Proof.
  unfold update_point, bind, get.
  destruct (find_last (in_context cid k) (points w)) as [point|]; [|reflexivity].
  destruct (negb (is_none x)); [|reflexivity].
  now destruct (negb (opt_str_eqb (DataPoint.value point) (str x))).
Qed.

(** "Only update if value changed": a row whose stored value is already
    the text of every value reported for it (values of [None] apart) is
    left as it is by the update of its context, time of last update
    included. *)
Theorem refresh_same_value_untouched :
  forall context points_data w i p,
    nth_error (points w) i = Some p ->
    (forall x, DataPoint.context_id p = Context.id context ->
               In (DataPoint.point_id p, x) points_data ->
               is_none x = true \/ DataPoint.value p = Some (str x)) ->
    nth_error (points (snd (_update_context_points E context points_data w))) i
    = Some p.
Proof.
  intros context points_data w0 i p Hn0 Hsame.
  unfold _update_context_points.
  apply (for_each_invariant (fun w => nth_error (points w) i = Some p));
    [|exact Hn0].
  intros [k x] w Hin Hn. rewrite update_point_points.
  destruct (find_last (in_context (Context.id context) k) (points w))
    as [point|] eqn:Hlast; [|exact Hn].
  destruct (negb (is_none x)) eqn:Hnone; [|exact Hn].
  destruct (negb (opt_str_eqb (DataPoint.value point) (str x))) eqn:Hne;
    [|exact Hn].
  simpl.
  destruct (nth_error_update_last (in_context (Context.id context) k)
              (DataPoint.set_value (Some (str x)) (Some (clock E (tick w))))
              (points w) i p Hn) as [Hs | [Hl _]]; [exact Hs|].
  exfalso. rewrite Hlast in Hl. injection Hl as ->.
  apply find_last_true in Hlast.
  unfold in_context in Hlast. apply andb_true_iff in Hlast as [Hc Hk].
  apply Z.eqb_eq in Hc. apply String.eqb_eq in Hk. subst k.
  destruct (Hsame x Hc Hin) as [H | H].
  - rewrite H in Hnone. discriminate.
  - apply opt_str_eqb_eq in H. rewrite H in Hne. discriminate.
Qed.

Lemma update_point_find_same cid k x w p :
  is_none x = false ->
  find_last (in_context cid k) (points w) = Some p ->
  exists p',
    find_last (in_context cid k) (points (snd (update_point E cid (k, x) w)))
    = Some p'
    /\ DataPoint.value p' = Some (str x) /\ same_but_value p p'.
Proof.
  intros Hx H. rewrite update_point_points, H, Hx. simpl.
  destruct (opt_str_eqb (DataPoint.value p) (str x)) eqn:Heq; simpl.
  - exists p. split; [exact H|]. split; [now apply opt_str_eqb_eq|].
    unfold same_but_value. now destruct p.
  - rewrite find_last_update_last_same by reflexivity. rewrite H. simpl.
    eexists. split; [reflexivity|]. split; reflexivity.
Qed.

Lemma update_point_find_other cid k x w pid :
  pid <> k ->
  find_last (in_context cid pid) (points (snd (update_point E cid (k, x) w)))
  = find_last (in_context cid pid) (points w).
Proof.
  intros Hne. rewrite update_point_points.
  destruct (find_last (in_context cid k) (points w)) as [point|]; [|reflexivity].
  destruct (negb (is_none x) && _); [|reflexivity].
  apply find_last_update_last_disjoint; [reflexivity|].
  intros y. now apply in_context_disjoint.
Qed.

Lemma update_points_find_other cid l : forall w pid,
  ~ In pid (keys l) ->
  find_last (in_context cid pid) (points (snd (for_each l (update_point E cid) w)))
  = find_last (in_context cid pid) (points w).
Proof.
  induction l as [|[k x] l IH]; intros w pid Hnin; [reflexivity|].
  rewrite for_each_cons_snd, IH.
  - apply update_point_find_other. intros ->. apply Hnin. now left.
  - intros H. apply Hnin. now right.
Qed.

(** A refresh stores what the device reports.  For a payload with
    distinct keys, the row that [existing_points] holds for a reported
    point carries, after the update, the text [str(value)] of the value
    reported (unless that is [None]), and is otherwise the row it was. *)
Theorem refresh_stores_reported_value :
  forall context points_data w point_id value p,
    NoDup (keys points_data) ->
    In (point_id, value) points_data ->
    is_none value = false ->
    find_last (in_context (Context.id context) point_id) (points w) = Some p ->
    exists p',
      find_last (in_context (Context.id context) point_id)
        (points (snd (_update_context_points E context points_data w)))
      = Some p'
      /\ DataPoint.value p' = Some (str value)
      /\ same_but_value p p'.
Proof.
  intros context points_data w point_id value p Hnd Hin Hval.
  unfold _update_context_points. revert w Hnd Hin.
  induction points_data as [|[k x] l IH]; intros w Hnd Hin Hp; [destruct Hin|].
  inversion Hnd as [|? ? Hk Hnd']; subst.
  rewrite for_each_cons_snd.
  destruct Hin as [Heq | Hin].
  - injection Heq as -> ->.
    destruct (update_point_find_same (Context.id context) point_id value w p
                Hval Hp) as (p' & Hf & Hv & Hs).
    exists p'. split; [|now split].
    now rewrite update_points_find_other.
  - apply IH; [exact Hnd' | exact Hin |].
    rewrite update_point_find_other; [exact Hp|].
    intros ->. apply Hk. unfold keys. now apply (in_map fst) in Hin.
Qed.

Lemma refreshed_refl w : refreshed w w.
Proof.
  repeat split.
  - apply Forall2_refl_on. intros d. unfold same_but_last_seen. now destruct d.
  - apply Forall2_refl_on. intros p. unfold same_but_value. now destruct p.
Qed.

Lemma same_but_value_set v ts p p' :
  same_but_value p p' -> same_but_value p (DataPoint.set_value v ts p').
Proof. unfold same_but_value. intros ->. reflexivity. Qed.

Lemma same_but_last_seen_set ts d d' :
  same_but_last_seen d d' -> same_but_last_seen d (Device.set_last_seen ts d').
Proof. unfold same_but_last_seen. intros ->. reflexivity. Qed.

Lemma update_context_points_refreshed w0 context points_data w :
  refreshed w0 w ->
  refreshed w0 (snd (_update_context_points E context points_data w)).
Proof.
  unfold _update_context_points. apply for_each_invariant.
  intros [k x] w1 _ (Hc & He & Hd & Hp).
  unfold update_point, bind, get.
  destruct (find_last (in_context (Context.id context) k) (points w1));
    [|now repeat split].
  destruct (negb (is_none x)); [|now repeat split].
  destruct (negb (opt_str_eqb _ _)); [|now repeat split].
  simpl. repeat split; try assumption.
  apply Forall2_update_last; [|exact Hp].
  intros a b. apply same_but_value_set.
Qed.

Lemma refresh_context_refreshed w0 device context w :
  refreshed w0 w -> refreshed w0 (snd (refresh_context E device context w)).
Proof.
  intros H. unfold refresh_context, bind, send_message.
  assert (Hsent : forall r,
             refreshed w0
               (mk (devices w) (contexts w) (points w) (events w) (tick w)
                  (sent w ++ [r])))
    by (intros r; exact H).
  destruct (net E _ _) as [[[body|]]|]; try apply Hsent.
  destruct (Protocol.points body) as [[|item rest]|]; try apply Hsent.
  apply update_context_points_refreshed, Hsent.
Qed.

Lemma refresh_device_refreshed w0 device w :
  refreshed w0 w -> refreshed w0 (snd (refresh_device E device w)).
Proof.
  intros (Hc & He & Hd & Hp). unfold refresh_device, bind, utcnow, modify, get.
  apply for_each_invariant.
  - intros context w1 _. apply refresh_context_refreshed.
  - simpl. repeat split; try assumption.
    apply Forall2_update_first; [|exact Hd].
    intros a b. apply same_but_last_seen_set.
Qed.

(** What a refresh cycle leaves alone.  Whatever the devices answer,
    [refresh_all_devices] adds and removes no row, changes no context and
    logs no event; of a device it changes at most the last-seen time, and
    of a data point at most the value and the time of its last update. *)
Theorem refresh_cycle_frame :
  forall w, refreshed w (snd (refresh_all_devices E w)).
Proof.
  intros w. unfold refresh_all_devices, bind, get.
  apply for_each_invariant; [|apply refreshed_refl].
  intros device w1 _. apply refresh_device_refreshed.
Qed.

(** [read_device_context] answers [{'success': True}] as soon as the
    device is online and the context exists: whether the device answered
    is not reported, and the context need not be one of the device.  One
    read request goes to the device's address, and the store changes at
    most as a refresh may change it, device rows not at all. *)
Theorem read_context_reports_success :
  forall w device_id context_id device context,
    find (has_id device_id) (devices w) = Some device ->
    Device.is_online device = true ->
    find (fun c => Context.id c =? context_id) (contexts w) = Some context ->
    let (r, w') := read_device_context E device_id context_id w in
    r = ok
    /\ sent w' = (sent w ++ [read_request (Device.ip_address device)
                               (Device.port device)
                               (Context.context_id context)])%list
    /\ devices w' = devices w
    /\ refreshed w w'.
Proof.
  intros w device_id context_id device context Hd Hon Hc.
  unfold read_device_context, bind, get. rewrite Hd, Hon, Hc. simpl.
  destruct (refresh_context E device context w) as [u w'] eqn:Hrun.
  unfold ret. split; [reflexivity|].
  assert (Hw' : w' = snd (refresh_context E device context w))
    by now rewrite Hrun.
  split; [|split].
  - subst w'. unfold refresh_context, bind, send_message.
    set (r := read_request _ _ _).
    assert (Hloop : forall ctx l w1,
               sent (snd (_update_context_points E ctx l w1)) = sent w1).
    { intros ctx l w1. unfold _update_context_points.
      apply (for_each_invariant (fun w2 => sent w2 = sent w1)); [|reflexivity].
      intros [k x] w2 _ H2. unfold update_point, bind, get.
      destruct (find_last _ _); [|exact H2].
      destruct (negb (is_none x)); [|exact H2].
      destruct (negb (opt_str_eqb _ _)); exact H2. }
    destruct (net E _ _) as [[[body|]]|]; try reflexivity.
    destruct (Protocol.points body) as [[|item rest]|]; try reflexivity.
    now rewrite Hloop.
  - subst w'. unfold refresh_context, bind, send_message.
    assert (Hloop : forall ctx l w1,
               devices (snd (_update_context_points E ctx l w1)) = devices w1).
    { intros ctx l w1. unfold _update_context_points.
      apply (for_each_invariant (fun w2 => devices w2 = devices w1));
        [|reflexivity].
      intros [k x] w2 _ H2. unfold update_point, bind, get.
      destruct (find_last _ _); [|exact H2].
      destruct (negb (is_none x)); [|exact H2].
      destruct (negb (opt_str_eqb _ _)); exact H2. }
    destruct (net E _ _) as [[[body|]]|]; try reflexivity.
    destruct (Protocol.points body) as [[|item rest]|]; try reflexivity.
    now rewrite Hloop.
  - subst w'. apply refresh_context_refreshed, refreshed_refl.
Qed.

End RefreshFacts.

Lemma refresh_same_value_untouched_witness :
  nth_error
    (World.points
       (snd (DeviceManager._update_context_points ReadingDemo.env Demo.storage
               ReadingDemo.reading Demo.world))) 1
  = Some Demo.power.
Proof.
  apply (refresh_same_value_untouched ReadingDemo.env Demo.storage
           ReadingDemo.reading Demo.world 1 Demo.power); [reflexivity|].
  intros x _ [H | [H | [H | []]]]; try discriminate H.
  injection H as <-. right. reflexivity.
Defined.

Lemma refresh_stores_reported_value_witness :
  exists p',
    World.find_last (DeviceManager.in_context 1 "WChaMax")
      (World.points
         (snd (DeviceManager._update_context_points ReadingDemo.env Demo.storage
                 ReadingDemo.reading Demo.world)))
    = Some p'
    /\ DataPoint.value p' = Some "250"
    /\ DeviceReads.same_but_value Demo.max_charge p'.
Proof.
  apply (refresh_stores_reported_value ReadingDemo.env Demo.storage
           ReadingDemo.reading Demo.world "WChaMax" (Py.PyInt 250)
           Demo.max_charge).
  - repeat constructor; simpl; intuition discriminate.
  - right. left. reflexivity.
  - reflexivity.
  - reflexivity.
Defined.

Lemma read_context_reports_success_witness :
  let (r, w') := DeviceReads.read_device_context ReadingDemo.env 1 1 Demo.world in
  r = DeviceManager.ok
  /\ World.sent w'
     = (World.sent Demo.world
          ++ [Protocol.read_request "10.0.0.1" 47808 "storage1"])%list
  /\ World.devices w' = World.devices Demo.world
  /\ DeviceReads.refreshed Demo.world w'.
Proof.
  apply (read_context_reports_success ReadingDemo.env Demo.world 1 1
           Demo.inverter Demo.storage); reflexivity.
Defined.

(* ================================================================== *)
(** * Further properties: the rows that discovery registers *)
(* ================================================================== *)

Section RegistryKeyFacts.
Import Py Protocol World DeviceDiscovery RegistryKeys.

Variable E : env.

Lemma NoDup_map_filter {A B} (g : A -> B) (p : A -> bool) l :
  NoDup (map g l) -> NoDup (map g (filter p l)).
Proof.
  induction l as [|a l IH]; simpl; intros H; [constructor|].
  inversion H as [|? ? Ha Hl]; subst.
  destruct (p a); simpl; [|now apply IH].
  constructor; [|now apply IH].
  intros Hin. apply Ha. apply in_map_iff in Hin as (x & Hx & Hin).
  apply filter_In in Hin as [Hin _]. apply in_map_iff. eauto.
Qed.

Lemma NoDup_map_pair {A B} (a : A) (l : list B) :
  NoDup l -> NoDup (map (pair a) l).
Proof.
  induction 1 as [|x l Hx Hl IH]; simpl; constructor; [|exact IH].
  intros Hin. apply in_map_iff in Hin as (y & [= ->] & Hin). now apply Hx.
Qed.

Lemma known_spec ids k : known ids k = true <-> In k ids.
Proof.
  unfold known. rewrite existsb_exists. split.
  - intros (x & Hin & Heq). apply String.eqb_eq in Heq. now subst.
  - intros Hin. exists k. split; [exact Hin | apply String.eqb_refl].
Qed.

Lemma process_point_keys cid ex k v w :
  map point_key (points (snd (process_point E cid ex (k, v) w)))
  = (map point_key (points w)
       ++ (if is_dict v && negb (known ex k) then [(cid, k)] else []))%list.
Proof.
  unfold process_point, known.
  destruct v as [| | | | | |info]; simpl; try (now rewrite app_nil_r).
  destruct (existsb (String.eqb k) ex); simpl.
  - unfold bind, modify, utcnow, ret. simpl.
    destruct (is_none (get_or_none "value" info)); simpl;
      rewrite ?map_update_first by reflexivity; now rewrite app_nil_r.
  - unfold modify. simpl. now rewrite map_app.
Qed.

Lemma process_points_keys cid ex l : forall w,
  map point_key (points (snd (for_each l (process_point E cid ex) w)))
  = (map point_key (points w) ++ map (pair cid) (new_point_ids ex l))%list.
Proof.
  induction l as [|[k v] l IH]; intros w.
  - simpl. now rewrite app_nil_r.
  - rewrite for_each_cons_snd, IH, process_point_keys.
    unfold new_point_ids. simpl.
    destruct (is_dict v && negb (known ex k)); simpl;
      rewrite <- app_assoc; reflexivity.
Qed.

Lemma new_points_unique cid l pts :
  NoDup (keys l) ->
  NoDup (map point_key pts) ->
  NoDup (map point_key pts
           ++ map (pair cid) (new_point_ids (point_ids_of cid pts) l)).
Proof.
  intros Hk Hp. apply NoDup_app; [exact Hp | |].
  - apply NoDup_map_pair. unfold new_point_ids. now apply NoDup_map_filter.
  - intros [c k] Hin Hnew.
    apply in_map_iff in Hnew as (k' & [= <- <-] & Hnew).
    unfold new_point_ids in Hnew.
    apply in_map_iff in Hnew as ([k0 v] & Hk0 & Hf). simpl in Hk0. subst k0.
    apply filter_In in Hf as [_ Hf]. simpl in Hf.
    apply andb_true_iff in Hf as [_ Hf]. apply negb_true_iff in Hf.
    assert (known (point_ids_of cid pts) k' = true) as Hkn; [|congruence].
    apply known_spec. unfold point_ids_of.
    apply in_map_iff in Hin as (p & Hp1 & Hin). unfold point_key in Hp1.
    injection Hp1 as Hc Hid. apply in_map_iff. exists p. split; [exact Hid|].
    apply filter_In. split; [exact Hin | now apply Z.eqb_eq].
Qed.

(** The data points that [_process_context_points] registers.  No row
    changes the (context, point id) pair it is known by; one row is
    appended, in payload order, for every point definition whose id was
    not in the context when the call began, and nothing else.  So when the
    pairs were distinct, they still are (a payload being a dictionary, its
    keys are). *)
Theorem process_context_points_keys :
  forall context points_data w,
    let w' := snd (_process_context_points E context points_data w) in
    map point_key (points w')
    = (map point_key (points w)
         ++ map (pair (Context.id context))
              (new_point_ids (point_ids_of (Context.id context) (points w))
                 points_data))%list
    /\ (NoDup (keys points_data) ->
        NoDup (map point_key (points w)) ->
        NoDup (map point_key (points w'))).
Proof.
  intros context points_data w. cbv zeta.
  unfold _process_context_points, bind, get.
  fold (point_ids_of (Context.id context) (points w)).
  rewrite process_points_keys. split; [reflexivity|].
  apply new_points_unique.
Qed.

Lemma process_context_points_contexts context points_data w :
  contexts (snd (_process_context_points E context points_data w)) = contexts w.
Proof.
  unfold _process_context_points, bind, get.
  apply (for_each_invariant (fun w1 => contexts w1 = contexts w)); [|reflexivity].
  intros [k v] w1 _ H. unfold process_point.
  destruct v; try exact H.
  destruct (existsb (String.eqb k) _); [|exact H].
  unfold bind, modify, utcnow, ret. simpl.
  destruct (is_none (get_or_none "value" d)); exact H.
Qed.

(** An iteration raises exactly on an ill-typed description. *)
Lemma process_context_completes did ex info w :
  fst (process_context E did ex info w) = negb (ill_typed info).
Proof.
  unfold process_context, ill_typed.
  destruct (Protocol.id info) as [[|a s]|]; try reflexivity.
  destruct (type info) as [v|]; [destruct v|]; try reflexivity;
    cbn [or_default is_str negb orb]; rewrite bind_get;
    (destruct (existsb (String.eqb (String a s)) ex);
     rewrite bind_bind, bind_modify, bind_ret;
     (destruct (cpoints info) as [[| | | | | |pd]|]; try reflexivity;
      apply fst_bind_ret)).
Qed.

Lemma process_context_keys did ex info w :
  ill_typed info = false ->
  map context_key (contexts (snd (process_context E did ex info w)))
  = (map context_key (contexts w) ++ map (pair did) (new_context_ids ex [info]))%list.
Proof.
  unfold process_context, ill_typed, new_context_ids, incoming_context_ids, known.
  cbn [flat_map]. rewrite app_nil_r.
  destruct (Protocol.id info) as [[|a s]|];
    try (intros _; simpl; now rewrite app_nil_r).
  destruct (type info) as [v|]; [destruct v|]; try discriminate;
    cbn [or_default is_str negb orb filter]; rewrite bind_get;
    (destruct (existsb (String.eqb (String a s)) ex);
     rewrite bind_bind, bind_modify, bind_ret;
     (destruct (cpoints info) as [[| | | | | |pd]|]; try discriminate; intros _;
      rewrite ?snd_bind_ret, ?process_context_points_contexts;
      unfold ret, set_contexts; cbn [contexts snd negb map];
      first [ rewrite map_update_first by reflexivity; now rewrite app_nil_r
            | now rewrite map_app ])).
Qed.

Lemma new_context_ids_cons ex info l :
  new_context_ids ex (info :: l)
  = (new_context_ids ex [info] ++ new_context_ids ex l)%list.
Proof.
  unfold new_context_ids, incoming_context_ids. simpl.
  now rewrite app_nil_r, filter_app.
Qed.

(** The loop completes exactly when no description is ill typed. *)
Lemma process_contexts_completes did ex l : forall w,
  fst (for_each_try l (process_context E did ex) w) = negb (existsb ill_typed l).
Proof.
  induction l as [|info l IH]; intros w; [reflexivity|].
  rewrite for_each_try_cons, process_context_completes. simpl.
  destruct (ill_typed info); simpl; [reflexivity | apply IH].
Qed.

Lemma process_contexts_keys did ex l : forall w,
  existsb ill_typed l = false ->
  map context_key
    (contexts (snd (for_each_try l (process_context E did ex) w)))
  = (map context_key (contexts w) ++ map (pair did) (new_context_ids ex l))%list.
Proof.
  induction l as [|info l IH]; intros w Hok.
  - simpl. now rewrite app_nil_r.
  - simpl in Hok. apply orb_false_iff in Hok as [Hinfo Hl].
    rewrite for_each_try_cons, process_context_completes, Hinfo. simpl.
    rewrite IH by exact Hl. rewrite process_context_keys by exact Hinfo.
    rewrite (new_context_ids_cons ex info l), map_app, app_assoc. reflexivity.
Qed.

Lemma process_context_ids did ex info w :
  NoDup (map Context.id (contexts w)) ->
  NoDup (map Context.id (contexts (snd (process_context E did ex info w)))).
Proof.
  intros H. unfold process_context.
  destruct (Protocol.id info) as [[|a s]|]; try exact H.
  destruct (or_default (type info) (PyStr "unknown")); try exact H.
  rewrite bind_get.
  destruct (existsb (String.eqb (String a s)) ex);
    rewrite bind_bind, bind_modify, bind_ret;
    destruct (cpoints info) as [[| | | | | |pd]|];
    rewrite ?snd_bind_ret, ?process_context_points_contexts;
    unfold ret, set_contexts; cbn [contexts snd];
    try (now rewrite map_update_first by reflexivity);
    (rewrite map_app; simpl; apply NoDup_snoc; [exact H | apply fresh_id_new]).
Qed.

Lemma process_context_point_keys did ex info w :
  (forall pd, cpoints info = Some (PyDict pd) -> NoDup (keys pd)) ->
  NoDup (map point_key (points w)) ->
  NoDup (map point_key (points (snd (process_context E did ex info w)))).
Proof.
  intros Hpd H. unfold process_context.
  destruct (Protocol.id info) as [[|a s]|]; try exact H.
  destruct (or_default (type info) (PyStr "unknown")); try exact H.
  rewrite bind_get.
  destruct (existsb (String.eqb (String a s)) ex);
    rewrite bind_bind, bind_modify, bind_ret;
    destruct (cpoints info) as [[| | | | | |pd]|]; try exact H;
    (rewrite snd_bind_ret;
     apply process_context_points_keys; [now apply Hpd | exact H]).
Qed.

(** The contexts that [_process_device_contexts] registers.

    When a description with an id carries a type that is not a string or
    points that are not a dictionary, the whole answer is undone: contexts
    and data points are as they were when the call began.

    Otherwise, for an answer that lists every context id once: no row
    changes the (device, context id) pair it is known by, and one row is
    appended, in the order received, for every context id that the device
    did not have when the call began.  Row ids stay distinct, the
    (device, context id) pairs stay distinct, and so do the (context,
    point id) pairs of the data points, the payloads being dictionaries. *)
Theorem process_device_contexts_keys :
  forall device_id contexts_data w,
    let w' := snd (_process_device_contexts E device_id contexts_data w) in
    (existsb ill_typed contexts_data = true ->
     contexts w' = contexts w /\ points w' = points w)
    /\ (existsb ill_typed contexts_data = false ->
        NoDup (incoming_context_ids contexts_data) ->
        map context_key (contexts w')
        = (map context_key (contexts w)
             ++ map (pair device_id)
                  (new_context_ids (context_ids_of device_id (contexts w))
                     contexts_data))%list
        /\ (NoDup (map Context.id (contexts w)) ->
            NoDup (map Context.id (contexts w')))
        /\ (NoDup (map context_key (contexts w)) ->
            NoDup (map context_key (contexts w')))
        /\ ((forall info pd, In info contexts_data ->
                             cpoints info = Some (PyDict pd) ->
                             NoDup (keys pd)) ->
            NoDup (map point_key (points w)) ->
            NoDup (map point_key (points w')))).
Proof.
  intros device_id contexts_data w. cbv zeta.
  unfold _process_device_contexts. rewrite bind_get.
  fold (context_ids_of device_id (contexts w)).
  set (ex := context_ids_of device_id (contexts w)).
  pose proof (process_contexts_completes device_id ex contexts_data w) as Hfst.
  pose proof (process_contexts_keys device_id ex contexts_data w) as Hkeys.
  pose proof (for_each_try_invariant
                (fun w1 => NoDup (map Context.id (contexts w1)))
                (process_context E device_id ex) contexts_data
                (fun info w1 _ => process_context_ids device_id ex info w1) w)
    as Hids.
  assert (Hpoints :
            (forall info pd, In info contexts_data ->
                             cpoints info = Some (PyDict pd) ->
                             NoDup (keys pd)) ->
            NoDup (map point_key (points w)) ->
            NoDup (map point_key
                     (points (snd (for_each_try contexts_data
                                     (process_context E device_id ex) w))))).
  { intros Hpd.
    apply (for_each_try_invariant
             (fun w1 => NoDup (map point_key (points w1)))).
    intros info w1 Hin. apply process_context_point_keys.
    intros pd. now apply Hpd. }
  unfold bind.
  destruct (for_each_try contexts_data (process_context E device_id ex) w)
    as [completed w1].
  simpl in Hfst, Hkeys, Hids, Hpoints. subst completed.
  split.
  - intros Hill. rewrite Hill. simpl. split; reflexivity.
  - intros Hok Hin. rewrite Hok. simpl.
    split; [now apply Hkeys|]. split; [exact Hids|]. split; [|exact Hpoints].
    intros Hk. rewrite (Hkeys Hok).
    apply NoDup_app; [exact Hk | |].
    + apply NoDup_map_pair. unfold new_context_ids. now apply NoDup_filter.
    + intros [d k] Hold Hnew.
      apply in_map_iff in Hnew as (k' & [= <- <-] & Hnew).
      unfold new_context_ids in Hnew. apply filter_In in Hnew as [_ Hnew].
      apply negb_true_iff in Hnew.
      assert (known ex k' = true) as Hkn; [|congruence].
      apply known_spec. unfold ex, context_ids_of.
      apply in_map_iff in Hold as (c & Hc & Hold). unfold context_key in Hc.
      injection Hc as Hd Hid. apply in_map_iff. exists c. split; [exact Hid|].
      apply filter_In. split; [exact Hold | now apply Z.eqb_eq].
Qed.

End RegistryKeyFacts.

Lemma process_context_points_keys_witness :
  NoDup
    (map RegistryKeys.point_key
       (World.points
          (snd (DeviceDiscovery._process_context_points Demo.env Demo.storage
                  [("W", Py.PyDict [("value", Py.PyInt 9)]);
                   ("SoC", Py.PyDict [("name", Py.PyStr "State of charge")]);
                   ("note", Py.PyStr "not a point definition")]
                  Demo.world)))).
Proof.
  apply (proj2 (process_context_points_keys Demo.env Demo.storage _ Demo.world));
    repeat constructor; simpl; intuition discriminate.
Defined.

Lemma process_device_contexts_keys_witness :
  let described :=
    [Protocol.mk_context_info (Some "storage1") (Some (Py.PyStr "storage"))
       (Some 124) (Some "Storage") None
       (Some (Py.PyDict [("W", Py.PyDict [("value", Py.PyInt 9)]);
                         ("SoC", Py.PyDict [])]));
     Protocol.mk_context_info (Some "meter1") None None None None None] in
  let w' :=
    snd (DeviceDiscovery._process_device_contexts Demo.env 2 described
           Demo.world) in
  let undone :=
    snd (DeviceDiscovery._process_device_contexts Demo.env 2
           (described
              ++ [Protocol.mk_context_info (Some "ac1") (Some Py.PyNone) None
                    None None None])
           Demo.world) in
  map RegistryKeys.context_key (World.contexts w')
  = [(2, "storage1"); (2, "meter1")]
  /\ NoDup (map RegistryKeys.context_key (World.contexts w'))
  /\ NoDup (map RegistryKeys.point_key (World.points w'))
  /\ World.contexts undone = World.contexts Demo.world
  /\ World.points undone = World.points Demo.world.
Proof.
  cbv zeta.
  pose proof (process_device_contexts_keys Demo.env 2
                [Protocol.mk_context_info (Some "storage1")
                   (Some (Py.PyStr "storage")) (Some 124) (Some "Storage") None
                   (Some (Py.PyDict [("W", Py.PyDict [("value", Py.PyInt 9)]);
                                     ("SoC", Py.PyDict [])]));
                 Protocol.mk_context_info (Some "meter1") None None None None
                   None]
                Demo.world) as (_ & Hok).
  destruct Hok as (Hkeys & _ & Hkey & Hpoint);
    [reflexivity | repeat constructor; simpl; intuition discriminate |].
  split; [exact Hkeys|]. split; [|split].
  - apply Hkey; repeat constructor; simpl; intuition discriminate.
  - apply Hpoint.
    + intros info pd [<- | [<- | []]]; simpl; intros [= <-];
        repeat constructor; simpl; intuition discriminate.
    + repeat constructor; simpl; intuition discriminate.
  - apply (proj1 (process_device_contexts_keys Demo.env 2 _ Demo.world)).
    reflexivity.
Defined.

(* ================================================================== *)
(** * Further properties: the simulated devices *)
(* ================================================================== *)

Section SimulatorFacts.
Import Py Protocol Simulator.

Lemma lookup_assoc_set {A} k k' (v : A) d :
  SunSpecModels.lookup k (assoc_set k' v d)
  = if String.eqb k k' then Some v else SunSpecModels.lookup k d.
Proof.
  induction d as [|[k0 v0] d IH]; simpl.
  - now destruct (String.eqb k k').
  - destruct (String.eqb_spec k' k0) as [-> | Hne]; simpl.
    + now destruct (String.eqb k k0).
    + rewrite IH. destruct (String.eqb_spec k k0) as [-> | ?]; [|reflexivity].
      destruct (String.eqb_spec k0 k'); [congruence | reflexivity].
Qed.

Lemma writable_set_value v point :
  writable (dict_set "value" v point) = writable point.
Proof. unfold writable. now rewrite dict_get_set. Qed.

(** Writing changes no key of the context and no access mode. *)
Lemma write_points_access cid pd : forall pts upd k,
  option_map writable
    (SunSpecModels.lookup k (snd (write_points cid pts pd upd)))
  = option_map writable (SunSpecModels.lookup k pts).
Proof.
  induction pd as [|[k0 v0] pd IH]; intros pts upd k; simpl; [reflexivity|].
  destruct (SunSpecModels.lookup k0 pts) as [point|] eqn:Hl; [|reflexivity].
  destruct (writable point) eqn:Hw; [|reflexivity].
  rewrite IH, lookup_assoc_set.
  destruct (String.eqb_spec k k0) as [-> | ?]; [|reflexivity].
  rewrite Hl. simpl. now rewrite writable_set_value.
Qed.

Lemma write_points_other cid pd : forall pts upd k,
  ~ In k (keys pd) ->
  SunSpecModels.lookup k (snd (write_points cid pts pd upd))
  = SunSpecModels.lookup k pts.
Proof.
  induction pd as [|[k0 v0] pd IH]; intros pts upd k Hk; simpl; [reflexivity|].
  destruct (SunSpecModels.lookup k0 pts) as [point|]; [|reflexivity].
  destruct (writable point); [|reflexivity].
  rewrite IH by (intros H; apply Hk; now right).
  rewrite lookup_assoc_set.
  destruct (String.eqb_spec k k0) as [-> | ?]; [|reflexivity].
  exfalso. apply Hk. now left.
Qed.

Lemma write_points_success cid pd : forall pts upd out pts',
  write_points cid pts pd upd = (Success out, pts') ->
  NoDup (keys pd) ->
  (forall k, In k (keys pd) -> ~ In k (keys upd)) ->
  out = (upd ++ pd)%list
  /\ (forall k v, In (k, v) pd ->
        exists point, SunSpecModels.lookup k pts' = Some point
                      /\ dict_get "value" point = Some v).
Proof.
  induction pd as [|[k0 v0] pd IH]; intros pts upd out pts' Hrun Hnd Hdis.
  - simpl in Hrun. injection Hrun as <- <-. rewrite app_nil_r.
    split; [reflexivity | intros k v []].
  - simpl in Hrun. inversion Hnd as [|? ? Hk0 Hnd']; subst.
    destruct (SunSpecModels.lookup k0 pts) as [point|] eqn:Hl; [|discriminate].
    destruct (writable point); [|discriminate].
    assert (Hfresh : ~ In k0 (keys upd)) by (apply Hdis; now left).
    rewrite (dict_set_fresh k0 v0 upd Hfresh) in Hrun.
    pose proof Hrun as Hsnd. apply (f_equal snd) in Hsnd. simpl in Hsnd.
    apply IH in Hrun as [Hout Hval]; [|exact Hnd'|].
    + split; [now rewrite Hout, <- app_assoc|].
      intros k v [Heq | Hin]; [|now apply Hval].
      injection Heq as <- <-. rewrite <- Hsnd.
      rewrite write_points_other by exact Hk0.
      rewrite lookup_assoc_set, String.eqb_refl.
      eexists. split; [reflexivity|]. now rewrite dict_get_set.
    + intros k Hk Hin. unfold keys in Hin. rewrite map_app in Hin.
      apply in_app_or in Hin as [Hin | [<- | []]].
      * apply (Hdis k); [now right | exact Hin].
      * now apply Hk0.
Qed.

Lemma read_points_written pts pd : forall acc,
  (forall k v, In (k, v) pd ->
     exists point, SunSpecModels.lookup k pts = Some point
                   /\ dict_get "value" point = Some v) ->
  NoDup (keys pd) ->
  (forall k, In k (keys pd) -> ~ In k (keys acc)) ->
  read_points pts (keys pd) acc = Returns (acc ++ pd)%list.
Proof.
  induction pd as [|[k0 v0] pd IH]; intros acc Hval Hnd Hdis; simpl.
  - now rewrite app_nil_r.
  - inversion Hnd as [|? ? Hk0 Hnd']; subst.
    destruct (Hval k0 v0 (or_introl eq_refl)) as (point & -> & ->).
    rewrite dict_set_fresh by (apply Hdis; now left).
    fold (keys pd). rewrite IH; [now rewrite <- app_assoc | | exact Hnd' |].
    + intros k v Hin. apply Hval. now right.
    + intros k Hk Hin. unfold keys in Hin. rewrite map_app in Hin.
      apply in_app_or in Hin as [Hin | [<- | []]].
      * apply (Hdis k); [now right | exact Hin].
      * now apply Hk0.
Qed.

Lemma get_device_store sim u c pts device :
  get_device_by_uuid sim u = Some device ->
  get_device_by_uuid (store sim u c pts) u
  = Some (set_contexts
            (World.update_first (has_id c) (set_points pts) (contexts device))
            device).
Proof.
  intros H. unfold get_device_by_uuid, store.
  rewrite find_update_first_same by reflexivity.
  unfold get_device_by_uuid in H. now rewrite H.
Qed.

Lemma find_context_store pts device c context :
  find_context device c = Some context ->
  find_context
    (set_contexts
       (World.update_first (has_id c) (set_points pts) (contexts device)) device)
    c
  = Some (set_points pts context).
Proof.
  intros H. unfold find_context. simpl.
  rewrite find_update_first_same by reflexivity.
  unfold find_context in H. now rewrite H.
Qed.

(** Read after write.  When [handle_write_request] succeeds for a payload
    (a dictionary, so its keys are distinct), it reports the payload as
    the points updated, and reading back the points written gives the
    payload itself. *)
Theorem simulator_read_after_write :
  forall sim device_uuid context_id points_data updated_points sim',
    points_data <> [] ->
    NoDup (keys points_data) ->
    handle_write_request sim device_uuid context_id points_data
    = (Success updated_points, sim') ->
    updated_points = points_data
    /\ handle_read_request sim' device_uuid context_id (Some (keys points_data))
       = Returns (Success points_data).
Proof.
  intros sim u c pd updated sim' Hne Hnd Hrun.
  unfold handle_write_request in Hrun.
  destruct (get_device_by_uuid sim u) as [device|] eqn:Hd; [|discriminate].
  destruct (find_context device c) as [context|] eqn:Hc; [|discriminate].
  destruct (write_points c (points context) pd []) as [outcome pts] eqn:Hw.
  injection Hrun as -> <-.
  apply write_points_success in Hw as [Hout Hval];
    [|exact Hnd | intros k _ []].
  split; [exact Hout|].
  unfold handle_read_request.
  rewrite (get_device_store sim u c pts device Hd).
  rewrite (find_context_store pts device c context Hc).
  destruct pd as [|[k v] pd]; [congruence|].
  pose proof (read_points_written pts ((k, v) :: pd) [] Hval Hnd
                (fun k0 _ H => H)) as Hread.
  change (keys ((k, v) :: pd)) with (k :: keys pd) in Hread |- *.
  cbn [points set_points]. now rewrite Hread.
Qed.

Lemma write_points_app cid good : forall pts upd written pts1 rest,
  write_points cid pts good upd = (Success written, pts1) ->
  write_points cid pts (good ++ rest)%list upd
  = write_points cid pts1 rest written.
Proof.
  induction good as [|[k v] good IH]; intros pts upd written pts1 rest Hrun;
    simpl in *.
  - now injection Hrun as <- <-.
  - destruct (SunSpecModels.lookup k pts) as [point|]; [|discriminate].
    destruct (writable point); [|discriminate].
    now apply IH.
Qed.

(** A write that fails is not undone.  When the points of [good] can be
    written and the next point of the payload is missing from the context
    or not writable, [handle_write_request] reports failure and leaves the
    simulator as the write of [good] alone leaves it: the points before
    the offending one keep their new values, those after it are not
    looked at. *)
Theorem simulator_failed_write_is_partial :
  forall sim device_uuid context_id device context good written
         point_id value rest,
    get_device_by_uuid sim device_uuid = Some device ->
    find_context device context_id = Some context ->
    fst (handle_write_request sim device_uuid context_id good) = Success written ->
    match SunSpecModels.lookup point_id (points context) with
    | Some point => writable point = false
    | None => True
    end ->
    exists error,
      handle_write_request sim device_uuid context_id
        (good ++ (point_id, value) :: rest)%list
      = (Failure error,
         snd (handle_write_request sim device_uuid context_id good)).
Proof.
  intros sim u c device context good written pid v rest Hd Hc Hgood Hbad.
  unfold handle_write_request in *. rewrite Hd, Hc in *.
  destruct (write_points c (points context) good []) as [outcome pts] eqn:Hw.
  simpl in Hgood. subst outcome.
  rewrite (write_points_app c good _ _ _ _ ((pid, v) :: rest) Hw).
  pose proof (write_points_access c good (points context) [] pid) as Hacc.
  rewrite Hw in Hacc. simpl in Hacc. simpl.
  destruct (SunSpecModels.lookup pid pts) as [point|];
    destruct (SunSpecModels.lookup pid (points context)) as [point0|];
    simpl in Hacc; try discriminate.
  - injection Hacc as Hacc. rewrite Hacc, Hbad. eexists. reflexivity.
  - eexists. reflexivity.
Qed.

Lemma candidates_skip sim path d rest :
  sim = d :: rest ->
  existsb (has_id path) (contexts d) = false ->
  candidates sim path = candidates rest path.
Proof.
  intros -> H. unfold candidates. simpl.
  replace (filter (has_id path) (contexts d)) with (@nil sim_context);
    [reflexivity|].
  symmetry. induction (contexts d) as [|c l IH]; [reflexivity|].
  simpl in *. apply orb_false_iff in H as [Hc Hl]. rewrite Hc. now apply IH.
Qed.

Lemma candidates_first (sim : Simulator.t) path d :
  find (fun x => existsb (has_id path) (contexts x)) sim = Some d ->
  exists rest, candidates sim path = uuid d :: rest.
Proof.
  induction sim as [|x sim IH]; cbn [find]; [discriminate|].
  destruct (existsb (has_id path) (contexts x)) eqn:Hx.
  - intros [= ->]. unfold candidates. simpl.
    apply existsb_exists in Hx as (c & Hin & Hc).
    assert (Hf : In c (filter (has_id path) (contexts d)))
      by (apply filter_In; now split).
    destruct (filter (has_id path) (contexts d)) as [|c0 l]; [destruct Hf|].
    simpl. eauto.
  - intros H. destruct (IH H) as (rest & Hrest). exists rest.
    now rewrite (candidates_skip (x :: sim) path x sim eq_refl Hx).
Qed.

Lemma candidates_none (sim : Simulator.t) path :
  find (fun x => existsb (has_id path) (contexts x)) sim = None ->
  candidates sim path = [].
Proof.
  induction sim as [|x sim IH]; cbn [find]; [reflexivity|].
  destruct (existsb (has_id path) (contexts x)) eqn:Hx; [discriminate|].
  intros H. rewrite (candidates_skip (x :: sim) path x sim eq_refl Hx).
  now apply IH.
Qed.

Lemma lookup_map_values {A B} (f : A -> B) (l : list (string * A)) k a :
  NoDup (map fst l) ->
  In (k, a) l ->
  SunSpecModels.lookup k (map (fun item => (fst item, f (snd item))) l)
  = Some (f a).
Proof.
  induction l as [|[k0 a0] l IH]; simpl; intros Hnd Hin; [destruct Hin|].
  inversion Hnd as [|? ? Hk0 Hnd']; subst.
  destruct Hin as [Heq | Hin].
  - injection Heq as -> ->. now rewrite String.eqb_refl.
  - destruct (String.eqb_spec k k0) as [-> | ?]; [|now apply IH].
    exfalso. apply Hk0. now apply (in_map fst) in Hin.
Qed.

(** Reading a whole context collects the value of every point, under
    its id and in the order of the context. *)
Lemma read_all_values pts : forall acc,
  NoDup (map fst pts) ->
  (forall k, In k (map fst pts) -> ~ In k (keys acc)) ->
  (forall point_id point,
      In (point_id, point) pts -> dict_get "value" point <> None) ->
  read_all pts acc
  = Returns
      (acc ++ map (fun item =>
                     (fst item,
                      DeviceDiscovery.or_default (dict_get "value" (snd item))
                        PyNone)) pts)%list.
Proof.
  induction pts as [|[k point] pts IH]; intros acc Hnd Hdis Hval; simpl.
  - now rewrite app_nil_r.
  - inversion Hnd as [|? ? Hk Hnd']; subst.
    destruct (dict_get "value" point) as [v|] eqn:Hv;
      [|exfalso; apply (Hval k point); [now left | exact Hv]].
    rewrite dict_set_fresh by (apply Hdis; now left).
    rewrite IH; [simpl; now rewrite <- app_assoc | exact Hnd' | |].
    + intros k0 Hk0 Hin. unfold keys in Hin. rewrite map_app in Hin.
      apply in_app_or in Hin as [Hin | [<- | []]].
      * apply (Hdis k0); [now right | exact Hin].
      * now apply Hk.
    + intros point_id pt Hin. apply (Hval point_id pt). now right.
Qed.

(** Where a simulated read goes.  The address in the message is not
    looked at: a read of a context path is answered by the first
    simulated device that has a context of that id (found again by its
    uuid), whichever device was meant, and the answer holds, under the id
    of every point of that context and in their order, the point's
    [value]; the simulator is not changed.  When no device has such a
    context, there is no answer. *)
Theorem simulated_read_routing :
  forall sim ip port context_path,
    match find (fun d => existsb (has_id context_path) (contexts d)) sim with
    | None =>
        Simulator.send_message sim (read_request ip port context_path)
        = (Returns None, sim)
    | Some device =>
        forall context,
          get_device_by_uuid sim (uuid device) = Some device ->
          find_context device context_path = Some context ->
          NoDup (map fst (points context)) ->
          (forall point_id point,
              In (point_id, point) (points context) ->
              dict_get "value" point <> None) ->
          exists points_data,
            Simulator.send_message sim (read_request ip port context_path)
            = (Returns (Some (points_answer points_data)), sim)
            /\ keys points_data = map fst (points context)
            /\ (forall point_id point,
                   In (point_id, point) (points context) ->
                   dict_get point_id points_data = dict_get "value" point)
    end.
Proof.
  intros sim ip port path.
  destruct (find _ sim) as [device|] eqn:Hfind.
  - intros context Hd Hc Hnd Hval.
    pose proof (read_all_values (points context) [] Hnd (fun k _ H => H) Hval)
      as Hread.
    cbn [app] in Hread.
    eexists. split; [|split].
    + unfold Simulator.send_message.
      destruct (candidates_first sim path device Hfind) as (rest & ->).
      simpl. unfold handle_read_request. rewrite Hd, Hc, Hread. reflexivity.
    + unfold keys. rewrite map_map. reflexivity.
    + intros point_id point Hin. unfold dict_get at 1.
      rewrite (lookup_map_values
                 (fun pt => DeviceDiscovery.or_default (dict_get "value" pt) PyNone)
                 (points context) point_id point Hnd Hin).
      destruct (dict_get "value" point) as [v|] eqn:Hv; [reflexivity|].
      exfalso. now apply (Hval point_id point).
  - unfold Simulator.send_message. now rewrite candidates_none.
Qed.

End SimulatorFacts.

Section SimulatedDiscoveryFacts.
Import Py Protocol World DeviceDiscovery.

Variable E : env.
Variable sim : Simulator.t.
Hypothesis Hsim : Simulator.simulated sim E.

Lemma process_context_no_points did ex info w :
  cpoints info = None ->
  points (snd (process_context E did ex info w)) = points w.
Proof.
  intros H. unfold process_context.
  destruct (Protocol.id info) as [[|a s]|]; try reflexivity.
  destruct (or_default (type info) (PyStr "unknown")); try reflexivity.
  rewrite bind_get.
  destruct (existsb (String.eqb (String a s)) ex);
    rewrite bind_bind, bind_modify, bind_ret, H; reflexivity.
Qed.

Lemma process_device_contexts_described did cs w :
  points (snd (_process_device_contexts E did (map Simulator.describe cs) w))
  = points w.
Proof.
  unfold _process_device_contexts. rewrite bind_get. unfold bind.
  match goal with
  | |- context [for_each_try ?l ?b w] =>
      assert (Hloop : points (snd (for_each_try l b w)) = points w);
      [ apply (for_each_try_invariant (fun w1 => points w1 = points w));
        [|reflexivity];
        intros info w2 Hin H; apply in_map_iff in Hin as (c & <- & _);
        now rewrite process_context_no_points
      | destruct (for_each_try l b w) as [[|] w1] ]
  end; [exact Hloop | reflexivity].
Qed.

Lemma get_device_details_points data w :
  ip_address data = "127.0.0.1" ->
  points (snd (_get_device_details E data w)) = points w.
Proof.
  intros Hip. unfold _get_device_details.
  destruct (id data) as [device_id|]; [|reflexivity].
  destruct ((device_id =? 0) || _ || _); [reflexivity|].
  unfold bind, send_message. rewrite Hip, Hsim.
  destruct sim as [|d0 rest]; [reflexivity|].
  cbn [Simulator.contexts_answer Protocol.mcp Protocol.contexts].
  now rewrite process_device_contexts_described.
Qed.

Lemma process_device_info_points info ip port w :
  points (snd (_process_device_info E info ip port w)) = points w.
Proof.
  unfold _process_device_info.
  destruct (Protocol.uuid info) as [[|c u]|]; try reflexivity.
  unfold bind, utcnow, get. simpl.
  now destruct (find (has_uuid (String c u)) (devices w)).
Qed.

Lemma process_device_info_address info ip port w data :
  fst (_process_device_info E info ip port w) = Some data ->
  Protocol.uuid info = Some (uuid data)
  /\ ip_address data = ip
  /\ DeviceDiscovery.port data
     = match port with
       | Some p => if p =? 0 then 47808 else p
       | None => 47808
       end.
Proof.
  unfold _process_device_info.
  destruct (Protocol.uuid info) as [[|c u]|]; try discriminate.
  unfold bind, utcnow, get. simpl.
  destruct (find (has_uuid (String c u)) (devices w)); simpl;
    intros [= <-]; repeat split.
Qed.

Lemma process_device_info_some info ip port w c u :
  Protocol.uuid info = Some (String c u) ->
  exists data, fst (_process_device_info E info ip port w) = Some data.
Proof.
  intros Hu. unfold _process_device_info. rewrite Hu.
  unfold bind, utcnow, get. simpl.
  destruct (find (has_uuid (String c u)) (devices w)); simpl; eauto.
Qed.

Lemma simulated_response d acc w :
  let r := process_response E acc (Simulator.discovery_answer d) w in
  points (snd r) = points w
  /\ (if str_nonempty (Simulator.uuid d)
      then exists data,
             fst r = (acc ++ [data])%list
             /\ uuid data = Simulator.uuid d
             /\ ip_address data = "127.0.0.1"
             /\ DeviceDiscovery.port data = 47808
      else fst r = acc).
Proof.
  cbv zeta. unfold process_response.
  cbn [Simulator.discovery_answer device source_ip source_port].
  assert (Huuid : Protocol.uuid (Simulator.device_info_of d)
                  = Some (Simulator.uuid d)) by reflexivity.
  rewrite Huuid.
  destruct (Simulator.uuid d) as [|c u] eqn:Hu; [split; reflexivity|].
  cbn [str_nonempty]. unfold bind.
  pose proof (process_device_info_points
                (Simulator.device_info_of d) "127.0.0.1" (Some 47808) w) as Hp.
  destruct (process_device_info_some
              (Simulator.device_info_of d) "127.0.0.1" (Some 47808) w c u Huuid)
    as (data & Hdata).
  pose proof (process_device_info_address _ _ _ _ _ Hdata) as (Hu' & Hip & Hport).
  simpl in Hport.
  destruct (_process_device_info E _ "127.0.0.1" (Some 47808) w) as [r w1].
  simpl in Hdata, Hp. subst r.
  pose proof (get_device_details_points data w1 Hip) as Hd.
  destruct (_get_device_details E data w1) as [u0 w2]. simpl in Hd |- *.
  split; [congruence|].
  exists data. repeat split; try assumption. congruence.
Qed.

Lemma simulated_responses l : forall acc w,
  let r := process_responses E acc (Simulator.broadcast_discovery l) w in
  points (snd r) = points w
  /\ exists found,
       fst r = (acc ++ found)%list
       /\ discovered_uuids found = filter str_nonempty (map Simulator.uuid l)
       /\ Forall (fun data => ip_address data = "127.0.0.1"
                              /\ DeviceDiscovery.port data = 47808) found.
Proof.
  induction l as [|d l IH]; intros acc w; cbv zeta.
  - simpl. split; [reflexivity|]. exists []. rewrite app_nil_r. now repeat split.
  - cbn [Simulator.broadcast_discovery map process_responses]. unfold bind.
    pose proof (simulated_response d acc w) as [Hp Hacc]. cbv zeta in Hp, Hacc.
    destruct (process_response E acc (Simulator.discovery_answer d) w)
      as [acc1 w1]. simpl in Hp, Hacc.
    specialize (IH acc1 w1). cbv zeta in IH.
    unfold Simulator.broadcast_discovery in IH.
    destruct IH as (Hp' & found & Hf & Hu & Ha).
    split; [congruence|]. rewrite Hf.
    destruct (str_nonempty (Simulator.uuid d)) eqn:Hne.
    + destruct Hacc as (data & -> & Hud & Hip & Hport).
      exists (data :: found). rewrite <- app_assoc. split; [reflexivity|].
      split; [simpl; now rewrite Hne, Hud, Hu|].
      constructor; [now split | exact Ha].
    + subst acc1. exists found. split; [reflexivity|].
      split; [simpl; now rewrite Hne | exact Ha].
Qed.

(** Discovery among simulated devices.  A round over the responses of the
    simulated broadcast finds every simulated device with a non-empty
    uuid, all of them at the one address 127.0.0.1:47808, and registers
    no data point and changes none: the contexts described by the
    simulator carry no points. *)
Theorem simulated_discovery_registers_no_points :
  forall w,
    let r := discover_devices E (Simulator.broadcast_discovery sim) w in
    points (snd r) = points w
    /\ discovered_uuids (fst r) = filter str_nonempty (map Simulator.uuid sim)
    /\ Forall (fun data => ip_address data = "127.0.0.1"
                           /\ DeviceDiscovery.port data = 47808) (fst r).
Proof.
  intros w. cbv zeta. unfold discover_devices, bind.
  pose proof (simulated_responses sim [] w) as (Hp & found & Hf & Hu & Ha).
  destruct (process_responses E [] (Simulator.broadcast_discovery sim) w)
    as [acc w1]. simpl in Hp, Hf. subst acc.
  assert (Hstatus : points (snd (_update_device_status found w1)) = points w1).
  { unfold _update_device_status, bind, get, modify. simpl.
    now rewrite add_events_loop. }
  destruct (_update_device_status found w1) as [u w2]. simpl in Hstatus |- *.
  split; [congruence|]. now split.
Qed.

End SimulatedDiscoveryFacts.

Lemma simulator_read_after_write_witness :
  let written := [("PowerLimit", Py.PyInt 80); ("Mode", Py.PyInt 2)] in
  Simulator.handle_read_request
    (snd (Simulator.handle_write_request SimulatorDemo.devices "1" "control"
            written))
    "1" "control" (Some ["PowerLimit"; "Mode"])
  = Simulator.Returns (Simulator.Success written).
Proof.
  cbv zeta.
  apply (proj2 (simulator_read_after_write SimulatorDemo.devices "1" "control"
                  [("PowerLimit", Py.PyInt 80); ("Mode", Py.PyInt 2)]
                  [("PowerLimit", Py.PyInt 80); ("Mode", Py.PyInt 2)]
                  (snd (Simulator.handle_write_request SimulatorDemo.devices
                          "1" "control"
                          [("PowerLimit", Py.PyInt 80); ("Mode", Py.PyInt 2)]))
                  ltac:(discriminate)
                  ltac:(repeat constructor; simpl; intuition discriminate)
                  eq_refl)).
Defined.

Lemma simulator_failed_write_is_partial_witness :
  exists error,
    Simulator.handle_write_request SimulatorDemo.devices "1" "control"
      [("PowerLimit", Py.PyInt 80); ("Pac", Py.PyInt 1); ("Mode", Py.PyInt 2)]
    = (Simulator.Failure error,
       snd (Simulator.handle_write_request SimulatorDemo.devices "1" "control"
              [("PowerLimit", Py.PyInt 80)])).
Proof.
  apply (simulator_failed_write_is_partial SimulatorDemo.devices "1" "control"
           SimulatorDemo.huawei (SimulatorDemo.control (Py.PyInt 100))
           [("PowerLimit", Py.PyInt 80)] [("PowerLimit", Py.PyInt 80)]
           "Pac" (Py.PyInt 1) [("Mode", Py.PyInt 2)]); reflexivity.
Defined.

Lemma simulated_read_routing_witness :
  exists points_data,
    Simulator.send_message SimulatorDemo.devices
      (Protocol.read_request "127.0.0.1" 47808 "control")
    = (Simulator.Returns (Some (Simulator.points_answer points_data)),
       SimulatorDemo.devices)
    /\ Protocol.keys points_data = ["PowerLimit"; "Mode"; "Pac"]
    /\ Protocol.dict_get "PowerLimit" points_data = Some (Py.PyInt 100).
Proof.
  destruct (simulated_read_routing SimulatorDemo.devices "127.0.0.1" 47808
              "control" (SimulatorDemo.control (Py.PyInt 100)) eq_refl eq_refl)
    as (points_data & Hsend & Hkeys & Hvalues).
  - repeat constructor; simpl; intuition discriminate.
  - intros point_id point [H | [H | [H | []]]]; injection H as <- <-;
      discriminate.
  - exists points_data. split; [exact Hsend|]. split; [exact Hkeys|].
    apply (Hvalues "PowerLimit" (SimulatorDemo.setting "Power Limit" (Py.PyInt 100))).
    left. reflexivity.
Defined.

Lemma simulated_discovery_registers_no_points_witness :
  World.points
    (snd (DeviceDiscovery.discover_devices SimulatorDemo.env
            (Simulator.broadcast_discovery SimulatorDemo.devices) Demo.world))
  = World.points Demo.world.
Proof.
  apply (proj1 (simulated_discovery_registers_no_points SimulatorDemo.env
                  SimulatorDemo.devices (fun n port => eq_refl) Demo.world)).
Defined.

(* ================================================================== *)
(** * Further properties: the framing of messages *)
(* ================================================================== *)

Section FramingFacts.
Import Framing.

Lemma to_N_byte_of_N n : (n < 256)%N -> Byte.to_N (byte_of_N n) = n.
Proof.
  intros H. unfold byte_of_N.
  destruct (Byte.of_N n) as [b|] eqn:Hb.
  - now apply Byte.to_of_N.
  - apply Byte.of_N_None_iff in Hb. lia.
Qed.

Lemma from_to_bytes4 n h : to_bytes4 n = Some h -> from_bytes h = n /\ List.length h = 4%nat.
Proof.
  unfold to_bytes4. destruct (n <? 2 ^ 32)%N eqn:Hlt; [|discriminate].
  apply N.ltb_lt in Hlt. intros [= <-]. split; [|reflexivity].
  unfold from_bytes. cbn [fold_left]. rewrite N.mul_0_l, N.add_0_l.
  assert (H24 : (n / 2 ^ 24 < 256)%N).
  { apply N.Div0.div_lt_upper_bound. change (2 ^ 24 * 256)%N with (2 ^ 32)%N. exact Hlt. }
  rewrite !to_N_byte_of_N by (try exact H24; apply N.mod_lt; discriminate).
  change (2 ^ 24)%N with (256 * 256 * 256)%N in *.
  change (N.pos (2 ^ 24)) with (256 * 256 * 256)%N.
  change (N.pos (2 ^ 16)) with (256 * 256)%N.
  change (N.pos (2 ^ 8)) with 256%N.
  rewrite <- !N.Div0.div_div.
  set (a := (n / 256)%N). set (b := (a / 256)%N).
  pose proof (N.div_mod n 256 ltac:(discriminate)).
  pose proof (N.div_mod a 256 ltac:(discriminate)).
  pose proof (N.div_mod b 256 ltac:(discriminate)).
  fold a in H. fold b in H0.
  lia.
Qed.


Lemma split_prefix {A} (chunk : list A) : forall need extra r,
  (chunk ++ r = need ++ extra)%list ->
  (List.length chunk <= List.length need)%nat ->
  exists need', need = (chunk ++ need')%list /\ r = (need' ++ extra)%list.
Proof.
  induction chunk as [|x chunk IH]; intros need extra r Heq Hlen.
  - exists need. split; [reflexivity | exact Heq].
  - destruct need as [|y need]; [simpl in Hlen; lia|].
    simpl in Heq. injection Heq as -> Heq.
    destruct (IH need extra r Heq) as (need' & -> & ->); [simpl in Hlen; lia|].
    exists need'. split; reflexivity.
Qed.

Lemma recv_pending_some n pieces :
  (1 <= n)%nat -> List.concat pieces <> [] ->
  exists chunk rest,
    recv_pending n pieces = Some (chunk, rest)
    /\ chunk <> []
    /\ (List.length chunk <= n)%nat
    /\ (chunk ++ List.concat rest)%list = List.concat pieces.
Proof.
  intros Hn. induction pieces as [|piece pieces IH]; simpl; [congruence|].
  destruct piece as [|b piece]; [exact IH|]. intros _.
  destruct (List.length (b :: piece) <=? n)%nat eqn:Hle.
  - apply Nat.leb_le in Hle. exists (b :: piece), pieces.
    repeat split; [discriminate | exact Hle].
  - apply Nat.leb_gt in Hle.
    exists (firstn n (b :: piece)), (skipn n (b :: piece) :: pieces).
    split; [reflexivity|]. split; [|split].
    + destruct n; [lia | discriminate].
    + rewrite length_firstn. lia.
    + cbn [List.concat]. rewrite app_assoc, firstn_skipn. reflexivity.
Qed.

Lemma recv_pending_none n pieces :
  List.concat pieces = [] -> recv_pending n pieces = None.
Proof.
  induction pieces as [|piece pieces IH]; simpl; [reflexivity|].
  intros H. apply app_eq_nil in H as [-> H]. now apply IH.
Qed.

(** The loop ends within [response_length] iterations. *)
Lemma receive_body_fuel fuel : forall response_length data bytes_received s,
  (response_length <= fuel + bytes_received)%nat ->
  receive_body fuel response_length data bytes_received s <> OutOfFuel.
Proof.
  induction fuel as [|fuel IH]; intros L data br s Hle; simpl.
  - destruct (br <? L)%nat eqn:Hlt; [|discriminate].
    apply Nat.ltb_lt in Hlt. lia.
  - destruct (br <? L)%nat; [|discriminate].
    destruct (recv _ s) as [[|b chunk] s'|]; try discriminate.
    apply IH. simpl. lia.
Qed.

Lemma receive_body_exact fuel : forall need acc pieces e extra,
  List.concat pieces = (need ++ extra)%list ->
  (List.length need <= fuel)%nat ->
  exists s',
    receive_body fuel (List.length acc + List.length need) acc (List.length acc)
      (mk_socket pieces e)
    = Done (acc ++ need)%list s'
    /\ List.concat (pending s') = extra.
Proof.
  induction fuel as [|fuel IH]; intros need acc pieces e extra Hcat Hfuel.
  - destruct need; [|simpl in Hfuel; lia]. simpl.
    rewrite Nat.add_0_r, Nat.ltb_irrefl, app_nil_r. eauto.
  - destruct need as [|x need].
    + simpl. rewrite Nat.add_0_r, Nat.ltb_irrefl, app_nil_r. eauto.
    + cbn [receive_body].
      assert (Hlt : (List.length acc <? List.length acc + List.length (x :: need))%nat
                    = true) by (apply Nat.ltb_lt; simpl; lia).
      rewrite Hlt. unfold recv. cbn [pending at_end].
      destruct (recv_pending_some
                  (Nat.min 4096 (List.length acc + List.length (x :: need)
                                 - List.length acc))
                  pieces) as (chunk & rest & -> & Hne & Hlen & Hsplit).
      * cbn [List.length]. lia.
      * rewrite Hcat. discriminate.
      * rewrite Hcat in Hsplit.
        destruct (split_prefix chunk (x :: need) extra (List.concat rest) Hsplit)
          as (need' & Hneed & Hrest); [lia|].
        destruct chunk as [|b chunk]; [congruence|].
        destruct (IH need' (acc ++ b :: chunk)%list rest e extra Hrest)
          as (s' & Hrun & Hs').
        { apply (f_equal (@List.length _)) in Hneed.
          rewrite length_app in Hneed. simpl in Hneed, Hfuel. lia. }
        exists s'. split; [|exact Hs'].
        rewrite Hneed, <- app_assoc in *. rewrite <- Hrun.
        rewrite !length_app. rewrite Nat.add_assoc. reflexivity.
Qed.

Lemma receive_body_truncated fuel : forall response_length acc pieces,
  (List.length acc + List.length (List.concat pieces) < response_length)%nat ->
  (List.length (List.concat pieces) < fuel)%nat ->
  exists s',
    receive_body fuel response_length acc (List.length acc)
      (mk_socket pieces Closed)
    = Done (acc ++ List.concat pieces)%list s'.
Proof.
  induction fuel as [|fuel IH]; intros L acc pieces Hshort Hfuel; [lia|].
  cbn [receive_body].
  assert (Hlt : (List.length acc <? L)%nat = true) by (apply Nat.ltb_lt; lia).
  rewrite Hlt. unfold recv. cbn [pending at_end].
  destruct (List.concat pieces) as [|x body] eqn:Hcat.
  - rewrite recv_pending_none by exact Hcat. rewrite app_nil_r. eauto.
  - destruct (recv_pending_some (Nat.min 4096 (L - List.length acc)) pieces)
      as (chunk & rest & -> & Hne & Hlen & Hsplit).
    + lia.
    + rewrite Hcat. discriminate.
    + destruct chunk as [|b chunk]; [congruence|].
      rewrite Hcat in Hsplit. rewrite <- Hsplit.
      apply (f_equal (@List.length _)) in Hsplit.
      rewrite length_app in Hsplit.
      destruct (IH L (acc ++ b :: chunk)%list rest) as (s' & Hrun).
      * rewrite length_app. cbn [List.length] in *. lia.
      * cbn [List.length] in *. lia.
      * exists s'. rewrite length_app in Hrun. rewrite Hrun.
        now rewrite <- app_assoc.
Qed.

(** Framing round trip.  What the sender frames, the receiver returns:
    when the first piece received holds the four bytes of the length, the
    bytes handed to the parser are exactly the message, however the rest
    is cut into pieces, whatever follows the message on the connection,
    and however the connection ends. *)
Theorem frame_receive_roundtrip :
  forall message_bytes framed first rest extra e,
    message_bytes <> [] ->
    frame message_bytes = Some framed ->
    (4 <= List.length first)%nat ->
    List.concat (first :: rest) = (framed ++ extra)%list ->
    receive_response (mk_socket (first :: rest) e) = Some message_bytes.
Proof.
  intros msg framed first rest extra e Hne Hframe Hfirst Hcat.
  unfold frame in Hframe.
  destruct (to_bytes4 (N.of_nat (List.length msg))) as [h|] eqn:Hh;
    [|discriminate].
  injection Hframe as <-.
  apply from_to_bytes4 in Hh as [Hfrom Hlen].
  cbn [List.concat] in Hcat. rewrite <- app_assoc in Hcat. symmetry in Hcat.
  destruct (split_prefix h first (List.concat rest) (msg ++ extra)%list Hcat)
    as (first' & -> & Hrest); [lia|].
  assert (Hrecv : exists s1,
             recv 4 (mk_socket ((h ++ first')%list :: rest) e) = Chunk h s1
             /\ List.concat (pending s1) = (msg ++ extra)%list
             /\ at_end s1 = e).
  { unfold recv. cbn [pending at_end recv_pending].
    destruct (h ++ first')%list as [|b p] eqn:Hp.
    { apply (f_equal (@List.length _)) in Hp. rewrite length_app in Hp.
      simpl in Hp. lia. }
    rewrite <- Hp. clear Hp.
    destruct (List.length (h ++ first') <=? 4)%nat eqn:Hle.
    - apply Nat.leb_le in Hle. rewrite length_app in Hle.
      destruct first'; [|simpl in Hle; lia].
      rewrite app_nil_r in *. eexists. split; [reflexivity|].
      split; [|reflexivity]. simpl. now rewrite Hrest.
    - assert (Hf : firstn 4 (h ++ first') = h).
      { rewrite <- Hlen, firstn_app, Nat.sub_diag, firstn_all. apply app_nil_r. }
      assert (Hs : skipn 4 (h ++ first') = first').
      { rewrite <- Hlen, skipn_app, Nat.sub_diag, skipn_all. reflexivity. }
      rewrite Hf, Hs.
      eexists. split; [reflexivity|]. split; [|reflexivity].
      simpl. now rewrite Hrest. }
  destruct Hrecv as (s1 & Hrecv & Hpend & Hend).
  unfold receive_response. rewrite Hrecv, Hlen. cbn [Nat.ltb Nat.leb].
  cbv zeta. rewrite Hfrom, Nat2N.id.
  destruct s1 as [pieces e1]. simpl in Hpend.
  destruct (receive_body_exact (List.length msg) msg [] pieces e1 extra Hpend
              (Nat.le_refl _)) as (s' & Hrun & _).
  simpl in Hrun. rewrite Hrun.
  destruct msg; [congruence | reflexivity].
Qed.

(** What the receiver does not make up for.  A length that comes in a
    first piece of fewer than four bytes is a failure, whatever comes
    after it; and when the peer closes before the announced number of
    bytes has come, the bytes received are handed to the parser as if
    they were the message. *)
Theorem receive_incomplete :
  (forall first rest e,
      first <> [] -> (List.length first < 4)%nat ->
      receive_response (mk_socket (first :: rest) e) = None)
  /\ (forall header rest,
         List.length header = 4%nat ->
         List.concat rest <> [] ->
         (List.length (List.concat rest) < N.to_nat (from_bytes header))%nat ->
         receive_response (mk_socket (header :: rest) Closed)
         = Some (List.concat rest)).
Proof.
  split.
  - intros first rest e Hne Hlen. unfold receive_response, recv.
    cbn [pending at_end recv_pending].
    destruct first as [|b p]; [congruence|].
    assert (Hle : (List.length (b :: p) <=? 4)%nat = true)
      by (apply Nat.leb_le; lia).
    rewrite Hle.
    assert (Hlt : (List.length (b :: p) <? 4)%nat = true)
      by (apply Nat.ltb_lt; lia).
    now rewrite Hlt.
  - intros header rest Hlen Hne Hshort. unfold receive_response, recv.
    cbn [pending at_end recv_pending].
    destruct header as [|b p]; [discriminate|].
    assert (Hle : (List.length (b :: p) <=? 4)%nat = true)
      by (rewrite Hlen; reflexivity).
    assert (Hlt : (List.length (b :: p) <? 4)%nat = false)
      by (rewrite Hlen; reflexivity).
    rewrite Hle, Hlt. cbv zeta.
    destruct (receive_body_truncated (N.to_nat (from_bytes (b :: p)))
                (N.to_nat (from_bytes (b :: p))) [] rest)
      as (s' & Hrun); [simpl; lia | lia |].
    simpl in Hrun. rewrite Hrun.
    destruct (List.concat rest); [congruence | reflexivity].
Qed.

End FramingFacts.

Lemma frame_receive_roundtrip_witness :
  Framing.receive_response
    (Framing.mk_socket
       [[Byte.x00; Byte.x00; Byte.x00; Byte.x02; Byte.x7b];
        [Byte.x7d; Byte.x0a]; [Byte.x0a]]
       Framing.Silent)
  = Some [Byte.x7b; Byte.x7d].
Proof.
  apply (frame_receive_roundtrip [Byte.x7b; Byte.x7d]
           [Byte.x00; Byte.x00; Byte.x00; Byte.x02; Byte.x7b; Byte.x7d]
           [Byte.x00; Byte.x00; Byte.x00; Byte.x02; Byte.x7b]
           [[Byte.x7d; Byte.x0a]; [Byte.x0a]] [Byte.x0a; Byte.x0a]
           Framing.Silent);
    [discriminate | reflexivity | simpl; lia | reflexivity].
Defined.

Lemma receive_incomplete_witness :
  Framing.receive_response
    (Framing.mk_socket
       [[Byte.x00; Byte.x00];
        [Byte.x00; Byte.x02; Byte.x7b; Byte.x7d]] Framing.Closed)
  = None
  /\ Framing.receive_response
       (Framing.mk_socket
          [[Byte.x00; Byte.x00; Byte.x00; Byte.x05]; [Byte.x7b]; [Byte.x7d]]
          Framing.Closed)
     = Some [Byte.x7b; Byte.x7d].
Proof.
  split.
  - apply (proj1 receive_incomplete); [discriminate | simpl; lia].
  - apply (proj2 receive_incomplete
             [Byte.x00; Byte.x00; Byte.x00; Byte.x05] [[Byte.x7b]; [Byte.x7d]]);
      [reflexivity | discriminate | vm_compute; lia].
Defined.
